(** * solid-mcp: a shallow embedding of the Solid pod client and MCP dispatcher

    The development follows the layout of the TypeScript sources:

    - [JS]      the ECMAScript string and value primitives the code calls
                ([startsWith], [includes], [split], [trim], regular-expression
                capture, truthiness, [String(v)]);
    - [Utils]   lib/utils.ts   ([normalizeUrl], [parseResourceMetadata],
                [getFilenameFromUrl]);
    - [Client]  lib/client.ts  ([readResource], [writeResource], ...);
    - [Server]  lib/server.ts  ([createTools], [searchResources],
                [handleRequest]).

    Strings are sequences of code units; the model covers code units below
    256, which is what Rocq's [ascii] holds. *)

From Stdlib Require Import String Ascii List ZArith Bool Arith Lia QArith.
From Stdlib Require Import DecimalString.
Import ListNotations.

Local Open Scope nat_scope.
Local Open Scope bool_scope.
Local Open Scope list_scope.
Local Open Scope string_scope.

(* ================================================================== *)
(** ** ECMAScript primitives *)
(* ================================================================== *)

Module JS.

(** The line feed, the double quote and the two angle brackets. *)
Definition LF : ascii := "010"%char.
Definition DQUOTE : ascii := "034"%char.
Definition LT : ascii := "<"%char.
Definition GT : ascii := ">"%char.

Definition str (c : ascii) : string := String c EmptyString.

(** [s.startsWith(p)] *)
Fixpoint startsWith (s p : string) {struct p} : bool :=
  match p with
  | EmptyString => true
  | String c p' =>
      match s with
      | EmptyString => false
      | String d s' => Ascii.eqb d c && startsWith s' p'
      end
  end.

(** [s.includes(p)] *)
Fixpoint includes (s p : string) {struct s} : bool :=
  startsWith s p ||
  match s with
  | EmptyString => false
  | String _ s' => includes s' p
  end.

(** [s.endsWith(p)] *)
Fixpoint endsWith (s p : string) {struct s} : bool :=
  String.eqb s p ||
  match s with
  | EmptyString => false
  | String _ s' => endsWith s' p
  end.

(** [s.substring(1)] *)
Definition substring1 (s : string) : string :=
  match s with
  | EmptyString => EmptyString
  | String _ s' => s'
  end.

(** [s.split(sep)] for a one-character separator: never the empty list. *)
Fixpoint split (sep : ascii) (s : string) : list string :=
  match s with
  | EmptyString => [EmptyString]
  | String c r =>
      if Ascii.eqb c sep then EmptyString :: split sep r
      else match split sep r with
           | h :: t => String c h :: t
           | [] => [str c]
           end
  end.

(** [parts[parts.length - 1]], [undefined] on the empty array. *)
Fixpoint last_part (parts : list string) : option string :=
  match parts with
  | [] => None
  | [x] => Some x
  | _ :: t => last_part t
  end.

(** White space as [String.prototype.trim] sees it, below code unit 256:
    TAB, LF, VT, FF, CR, SPACE and NO-BREAK SPACE. *)
Definition is_ws (c : ascii) : bool :=
  let n := nat_of_ascii c in
  (((9 <=? n) && (n <=? 13)) || (n =? 32) || (n =? 160))%nat.

Fixpoint trimStart (s : string) : string :=
  match s with
  | EmptyString => EmptyString
  | String c r => if is_ws c then trimStart r else s
  end.

Fixpoint trimEnd (s : string) : string :=
  match s with
  | EmptyString => EmptyString
  | String c r =>
      match trimEnd r with
      | EmptyString => if is_ws c then EmptyString else str c
      | r' => String c r'
      end
  end.

Definition trim (s : string) : string := trimEnd (trimStart s).

(** [s.toLowerCase()] on code units below 256: A-Z and the Latin-1 capitals
    (all of 192..222 but the multiplication sign 215) move up by 32. *)
Definition lower_char (c : ascii) : ascii :=
  let n := nat_of_ascii c in
  if (((65 <=? n) && (n <=? 90)) ||
      ((192 <=? n) && (n <=? 222) && negb (n =? 215)))%nat
  then ascii_of_nat (n + 32) else c.

Fixpoint toLowerCase (s : string) : string :=
  match s with
  | EmptyString => EmptyString
  | String c r => String (lower_char c) (toLowerCase r)
  end.

(** The longest prefix free of [c], and what follows it. *)
Fixpoint span_not (c : ascii) (s : string) : string * string :=
  match s with
  | EmptyString => (EmptyString, EmptyString)
  | String a r =>
      if Ascii.eqb a c then (EmptyString, s)
      else let (p, q) := span_not c r in (String a p, q)
  end.

(** Capture group 1 of the first match of [/o([^c]+)c/] in [s]: the
    leftmost [o] that is followed by a non-empty run free of [c] and then
    by [c].  [s.match(/<([^>]+)>/)] is [match_delimited LT GT s]; the same
    pattern with the double quote in the place of both brackets is
    [match_delimited DQUOTE DQUOTE s]. *)
Fixpoint match_delimited (o c : ascii) (s : string) : option string :=
  match s with
  | EmptyString => None
  | String a r =>
      if Ascii.eqb a o then
        match span_not c r with
        | (String b p, String _ _) => Some (String b p)
        | _ => match_delimited o c r
        end
      else match_delimited o c r
  end.

(** [free_of x s]: the code unit [x] does not occur in [s]. *)
Fixpoint free_of (x : ascii) (s : string) : bool :=
  match s with
  | EmptyString => true
  | String c r => negb (Ascii.eqb c x) && free_of x r
  end.

(** The last code unit, as the spec speaks of a trailing delimiter. *)
Fixpoint last_char (s : string) : option ascii :=
  match s with
  | EmptyString => None
  | String c EmptyString => Some c
  | String _ r => last_char r
  end.

(** Numbers: the integers, the negative zero, the two infinities and NaN
    (fractions play no part in the code). *)
Inductive JSNumber : Type :=
  | NaN
  | Int (z : Z)
  | NegZero
  | Infinity (negative : bool).

(** Values that reach the dispatcher: JSON data, [undefined] and blobs. *)
#[local] Set Warnings "-register-all".
Inductive JSValue : Type :=
  | JUndefined
  | JNull
  | JBool (b : bool)
  | JNumber (n : JSNumber)
  | JString (s : string)
  | JArray (items : list JSValue)
  | JObject (fields : list (string * JSValue))
  | JBlob (bytes : string).

(** [!!v] *)
Definition truthy (v : JSValue) : bool :=
  match v with
  | JUndefined | JNull => false
  | JBool b => b
  | JNumber NaN => false
  | JNumber (Int z) => negb (Z.eqb z 0)
  | JNumber NegZero => false
  | JNumber (Infinity _) => true
  | JString s => negb (String.eqb s EmptyString)
  | JArray _ | JObject _ | JBlob _ => true
  end.

(** [typeof v === 'string'] and [typeof v === 'object'] *)
Definition typeof_string (v : JSValue) : bool :=
  match v with JString _ => true | _ => false end.

Definition typeof_object (v : JSValue) : bool :=
  match v with
  | JNull | JArray _ | JObject _ | JBlob _ => true
  | _ => false
  end.

(** The fields of an object, each name once. *)
Fixpoint assoc (k : string) (fields : list (string * JSValue)) : option JSValue :=
  match fields with
  | [] => None
  | (k', v) :: rest => if String.eqb k k' then Some v else assoc k rest
  end.

(** What is thrown: an [Error] (or a subclass such as [TypeError]) with
    its message, or any other value. *)
Inductive Thrown : Type :=
  | ErrorObj (message : string)
  | ThrownValue (v : JSValue).

Inductive Try (A : Type) : Type :=
  | Val (a : A)
  | Exn (e : Thrown).
Arguments Val {A} a.
Arguments Exn {A} e.

(** [v.name] for one of the property names the code reads ([action],
    [parameters], [uri], ...): none of them is inherited, so the read gives
    [undefined] on everything but an object that has the field, and throws
    a [TypeError] on [undefined] and [null]. *)
Definition get_prop (v : JSValue) (name : string) : Try JSValue :=
  match v with
  | JUndefined =>
      Exn (ErrorObj ("Cannot read properties of undefined (reading '" ++ name ++ "')"))
  | JNull =>
      Exn (ErrorObj ("Cannot read properties of null (reading '" ++ name ++ "')"))
  | JObject fields =>
      Val (match assoc name fields with Some x => x | None => JUndefined end)
  | _ => Val JUndefined
  end.

(** [parseInt(s, 10)]: leading white space, a sign, then the longest run
    of decimal digits; [NaN] when there is no digit.  The result is the
    double nearest to the integer the digits denote: the standard lets an
    engine neglect the digits after the twentieth, Node rounds the exact
    value. *)
Definition digit_of (c : ascii) : option Z :=
  let n := nat_of_ascii c in
  if ((48 <=? n) && (n <=? 57))%nat then Some (Z.of_nat (n - 48)) else None.

Fixpoint digits_value (acc : Z) (s : string) : Z :=
  match s with
  | EmptyString => acc
  | String c r =>
      match digit_of c with
      | Some d => digits_value (10 * acc + d)%Z r
      | None => acc
      end
  end.

(** The Number value of an integer given by its sign and magnitude.  A
    magnitude below 2^53 is a double; above, a double keeps the 53 leading
    bits, rounded to the nearest with ties to the even one, and what rounds
    to 2^1024 or more is an infinity.  Zero keeps its sign. *)
Definition to_double (negative : bool) (magnitude : Z) : JSNumber :=
  if (magnitude =? 0)%Z then (if negative then NegZero else Int 0%Z)
  else
    let dropped := (Z.log2 magnitude - 52)%Z in
    let signed (m : Z) := if negative then (- m)%Z else m in
    if (dropped <=? 0)%Z then Int (signed magnitude)
    else
      let kept := Z.shiftr magnitude dropped in
      let rest := (magnitude - Z.shiftl kept dropped)%Z in
      let half := Z.shiftl 1 (dropped - 1) in
      let rounded :=
        if (half <? rest)%Z || ((rest =? half)%Z && Z.odd kept)
        then (kept + 1)%Z else kept in
      let nearest := Z.shiftl rounded dropped in
      if (Z.shiftl 1 1024 <=? nearest)%Z then Infinity negative
      else Int (signed nearest).

Definition parse_digits (negative : bool) (s : string) : JSNumber :=
  match s with
  | EmptyString => NaN
  | String c _ =>
      match digit_of c with
      | Some _ => to_double negative (digits_value 0%Z s)
      | None => NaN
      end
  end.

Definition parseInt10 (s : string) : JSNumber :=
  match trimStart s with
  | String "-" r => parse_digits true r
  | String "+" r => parse_digits false r
  | t => parse_digits false t
  end.

Definition Z_to_string (z : Z) : string :=
  NilZero.string_of_int (Z.to_int z).

Definition number_to_string (n : JSNumber) : string :=
  match n with
  | NaN => "NaN"
  | Int z => Z_to_string z
  | NegZero => "0"
  | Infinity false => "Infinity"
  | Infinity true => "-Infinity"
  end.

Fixpoint join (sep : string) (l : list string) : string :=
  match l with
  | [] => EmptyString
  | [x] => x
  | x :: rest => x ++ sep ++ join sep rest
  end.

(** [String(v)]: arrays join their elements with a comma, [null] and
    [undefined] elements giving the empty string. *)
Fixpoint ToString (v : JSValue) : string :=
  match v with
  | JUndefined => "undefined"
  | JNull => "null"
  | JBool true => "true"
  | JBool false => "false"
  | JNumber n => number_to_string n
  | JString s => s
  | JArray items =>
      join ","
        (map (fun x => match x with
                       | JUndefined | JNull => EmptyString
                       | _ => ToString x
                       end) items)
  | JObject _ => "[object Object]"
  | JBlob _ => "[object Blob]"
  end.

(** [error instanceof Error ? error.message : String(error)] *)
Definition error_message (e : Thrown) : string :=
  match e with
  | ErrorObj m => m
  | ThrownValue v => ToString v
  end.

(** *** The platform

    [new URL(s)] and [JSON.stringify(v)] belong to the host, not to the
    repository: the code is read against any host that provides them.
    [URL_parse s] is [None] when [new URL(s)] throws; [JSON_stringify v] is
    [None] when the result is [undefined]. *)

Record URL : Type := mkURL {
  protocol : string;
  host : string;
  pathname : string
}.

Class Platform : Type := {
  URL_parse : string -> option URL;
  JSON_stringify : JSValue -> option string
}.

End JS.

(* ================================================================== *)
(** ** lib/types.ts *)
(* ================================================================== *)

Module Types.
Import JS.

Inductive ResourceType : Type := Container | Resource.

Record Permissions : Type := mkPermissions {
  read : bool;
  write : bool;
  append : bool;
  control : bool
}.

Record SolidResource : Type := mkResource {
  uri : string;
  type : ResourceType;
  contentType : option string;
  modified : option string;
  size : option JSNumber;
  permissions : option Permissions
}.

Inductive AuthType : Type := bearer | dpop | cookie.

Record Auth : Type := mkAuth {
  auth_type : AuthType;
  token : option string
}.

Record SolidPodConfig : Type := mkConfig {
  podUrl : string;
  auth : option Auth
}.

End Types.

(* ================================================================== *)
(** ** lib/utils.ts *)
(* ================================================================== *)

Module Utils.
Import JS Types.

Section WithPlatform.
Context {P : Platform}.

(** [new URL(uri)] succeeds: the URI is returned as it is; otherwise it is
    appended to the base. *)
Definition normalizeUrl (uri baseUrl : string) : string :=
  match URL_parse uri with
  | Some _ => uri
  | None =>
      let base := if endsWith baseUrl "/" then baseUrl else baseUrl ++ "/" in
      let path := if startsWith uri "/" then substring1 uri else uri in
      base ++ path
  end.

Definition isValidUrl (url : string) : bool :=
  match URL_parse url with
  | Some _ => true
  | None => false
  end.

(** [new URL(url)] throws a [TypeError] on what does not parse. *)
Definition getFilenameFromUrl (url : string) : Try string :=
  match URL_parse url with
  | None => Exn (ErrorObj "Invalid URL")
  | Some urlObj =>
      match last_part (split "/" (pathname urlObj)) with
      | Some p => Val p
      | None => Val EmptyString
      end
  end.

End WithPlatform.

Definition LDP_CONTAINER : string := "http://www.w3.org/ns/ldp#Container".
Definition DC_FORMAT : string := "http://purl.org/dc/terms/format".

(** The loop variables of [parseResourceMetadata]. *)
Record Scan : Type := mkScan {
  currentUri : string;
  isContainer : bool;
  scanContentType : string;
  resources : list SolidResource
}.

Definition nonempty (s : string) : bool := negb (String.eqb s EmptyString).

(** One turn of the loop over the lines. *)
Definition scan_line (containerUrl : string) (st : Scan) (line : string) : Scan :=
  let trimmedLine := trim line in
  (* Look for resource URIs *)
  let st1 :=
    if includes trimmedLine "<http" && includes trimmedLine ">" then
      match match_delimited LT GT trimmedLine with
      | Some u => mkScan u false EmptyString (resources st)
      | None => st
      end
    else st in
  (* Check if it's a container *)
  let st2 :=
    if includes trimmedLine LDP_CONTAINER
    then mkScan (currentUri st1) true (scanContentType st1) (resources st1)
    else st1 in
  (* Look for content type *)
  let st3 :=
    if includes trimmedLine DC_FORMAT then
      match match_delimited DQUOTE DQUOTE trimmedLine with
      | Some t => mkScan (currentUri st2) (isContainer st2) t (resources st2)
      | None => st2
      end
    else st2 in
  (* If we've found a new resource, add it to the list *)
  if nonempty (currentUri st3) &&
     (endsWith trimmedLine "." || endsWith trimmedLine ";" ||
      String.eqb trimmedLine EmptyString)
  then
    let found :=
      (* Skip the container itself *)
      if negb (String.eqb (currentUri st3) containerUrl) && nonempty (currentUri st3)
      then (resources st3 ++
            [mkResource (currentUri st3)
               (if isContainer st3 then Container else Resource)
               (if nonempty (scanContentType st3) then Some (scanContentType st3) else None)
               None None None])%list
      else resources st3 in
    (* Reset for the next resource *)
    mkScan EmptyString (isContainer st3) (scanContentType st3) found
  else st3.

Definition scan_lines (containerUrl : string) (st : Scan) (lines : list string) : Scan :=
  fold_left (scan_line containerUrl) lines st.

Definition parseResourceMetadata (turtleContent containerUrl : string)
  : list SolidResource :=
  resources
    (scan_lines containerUrl (mkScan EmptyString false EmptyString [])
       (split LF turtleContent)).

End Utils.

(* ================================================================== *)
(** ** lib/client.ts *)
(* ================================================================== *)

Module Client.
Import JS Types Utils.

(** *** The transport

    [fetchFn(url, {method, headers, body})] settles with a response or
    rejects.  A response hands its body out through [text()], [json()] and
    [blob()]; what a reader gives may depend on how many reads the response
    object has served already, which is the argument of the three fields:
    a Fetch-standard response serves the first read only, a mock object
    whose readers are plain closures serves every read. *)

Inductive Body : Type :=
  | BodyText (s : string)
  | BodyBlob (bytes : string).

Record FetchRequest : Type := mkRequest {
  url : string;
  method : string;
  headers : list (string * string);
  body : option Body
}.

Record Response : Type := mkResponse {
  ok : bool;
  status : Z;
  statusText : string;
  headers_get : string -> option string;
  text : nat -> Try string;
  json : nat -> Try JSValue;
  blob : nat -> Try string
}.

Inductive FetchResult : Type :=
  | Resolved (r : Response)
  | Rejected (e : Thrown).

(** The result of [readResource]: [content] is the text, the parsed JSON
    or the blob. *)
Record SolidResourceResponse : Type := mkResponseOf {
  resource : SolidResource;
  content : option JSValue;
  children : option (list SolidResource)
}.

Section WithTransport.
Context {P : Platform} {W : Type}.

(** The state of the network and the record of the calls made so far,
    each with how it settled. *)
Record World : Type := mkWorld {
  net : W;
  calls : list (FetchRequest * FetchResult)
}.

(** Awaited computations: a value or a thrown failure, and the world. *)
Definition M (A : Type) : Type := World -> Try A * World.

Definition ret {A} (a : A) : M A := fun w => (Val a, w).

Definition throw {A} (e : Thrown) : M A := fun w => (Exn e, w).

Definition bind {A B} (m : M A) (k : A -> M B) : M B :=
  fun w =>
    match m w with
    | (Val a, w') => k a w'
    | (Exn e, w') => (Exn e, w')
    end.

(** [try { m } catch (error) { h error }] *)
Definition try_catch {A} (m : M A) (h : Thrown -> M A) : M A :=
  fun w =>
    match m w with
    | (Val a, w') => (Val a, w')
    | (Exn e, w') => h e w'
    end.

Definition lift {A} (t : Try A) : M A := fun w => (t, w).

Notation "x <- m ;; k" := (bind m (fun x => k))
  (at level 61, m at next level, right associativity).
Notation "' pat <- m ;; k" := (bind m (fun x => match x with pat => k end))
  (at level 61, pat pattern, m at next level, right associativity).

Variable fetchFn : FetchRequest -> W -> FetchResult * W.
Variable config : SolidPodConfig.

(** [await this.fetchFn(url, init)] *)
Definition call_fetch (req : FetchRequest) : M Response :=
  fun w =>
    let (res, n') := fetchFn req (net w) in
    let w' := mkWorld n' (calls w ++ [(req, res)])%list in
    match res with
    | Resolved r => (Val r, w')
    | Rejected e => (Exn e, w')
    end.

(** [headers[k] = v] on the header object. *)
Fixpoint set_header (k v : string) (hs : list (string * string))
  : list (string * string) :=
  match hs with
  | [] => [(k, v)]
  | (k', v') :: rest =>
      if String.eqb k k' then (k, v) :: rest
      else (k', v') :: set_header k v rest
  end.

Fixpoint get_header (k : string) (hs : list (string * string)) : option string :=
  match hs with
  | [] => None
  | (k', v) :: rest => if String.eqb k k' then Some v else get_header k rest
  end.

Definition ACCEPT : string := "application/ld+json, application/json, text/turtle".

Definition getAuthHeaders : list (string * string) :=
  let headers := [("Accept", ACCEPT)] in
  match auth config with
  | Some a =>
      match auth_type a, token a with
      | bearer, Some t =>
          if nonempty t then set_header "Authorization" ("Bearer " ++ t) headers
          else headers
      | dpop, Some t =>
          if nonempty t then set_header "Authorization" ("DPoP " ++ t) headers
          else headers
      | _, _ => headers
      end
  | None => headers
  end.

(** [h || ''] on a header lookup. *)
Definition or_empty (h : option string) : string :=
  match h with
  | Some s => s
  | None => EmptyString
  end.

Definition status_line (response : Response) : string :=
  Z_to_string (status response) ++ " " ++ statusText response.

(** [isContainer(response)]: [reads] is the number of body reads the
    response has served before this one. *)
Definition isContainer (response : Response) (reads : nat) : M bool :=
  body <- lift (text response reads) ;;
  ret (includes body LDP_CONTAINER).

Definition listContainerContents (containerUrl : string) : M (list SolidResource) :=
  try_catch
    (response <- call_fetch (mkRequest containerUrl "GET" getAuthHeaders None) ;;
     if negb (ok response) then
       throw (ErrorObj ("Failed to list container contents: " ++ status_line response))
     else
       body <- lift (text response 0) ;;
       ret (parseResourceMetadata body containerUrl))
    (fun error =>
       throw (ErrorObj ("Error listing container contents: " ++ error_message error))).

(** The placeholder of the source: nothing in the guarded block can throw. *)
Definition getPermissions (resourceUrl : string) : M (option Permissions) :=
  try_catch
    (ret (Some (mkPermissions true true true false)))
    (fun error => ret None).

(** The body as [readResource] decodes it, by the declared content type. *)
Definition decode_content (response : Response) (contentType : string) (reads : nat)
  : Try JSValue :=
  if includes contentType "application/json" || includes contentType "application/ld+json"
  then json response reads
  else if includes contentType "text/"
  then match text response reads with
       | Val s => Val (JString s)
       | Exn e => Exn e
       end
  else match blob response reads with
       | Val b => Val (JBlob b)
       | Exn e => Exn e
       end.

Definition readResource (uri : string) (includeContent : bool)
  : M SolidResourceResponse :=
  let resourceUrl := normalizeUrl uri (podUrl config) in
  try_catch
    (response <- call_fetch (mkRequest resourceUrl "GET" getAuthHeaders None) ;;
     if negb (ok response) then
       throw (ErrorObj ("Failed to read resource: " ++ status_line response))
     else
       let contentType := or_empty (headers_get response "Content-Type") in
       let lastModified := or_empty (headers_get response "Last-Modified") in
       let contentLength := headers_get response "Content-Length" in
       '(isContainer, reads) <-
          (if includes contentType "text/turtle"
           then b <- isContainer response 0 ;; ret (b, 1)
           else ret (false, 0)) ;;
       perms <- getPermissions resourceUrl ;;
       let resource :=
         mkResource resourceUrl
           (if isContainer then Container else Resource)
           (Some contentType)
           (Some lastModified)
           (match contentLength with
            | Some l => if nonempty l then Some (parseInt10 l) else None
            | None => None
            end)
           perms in
       content <-
          (if includeContent
           then c <- lift (decode_content response contentType reads) ;; ret (Some c)
           else ret None) ;;
       children <-
          (if isContainer
           then cs <- listContainerContents resourceUrl ;; ret (Some cs)
           else ret None) ;;
       ret (mkResponseOf resource content children))
    (fun error =>
       throw (ErrorObj ("Error reading resource " ++ resourceUrl ++ ": "
                        ++ error_message error))).

(** The body and the headers of the PUT, by the kind of the content. *)
Definition write_payload (content : JSValue) (contentType : string)
  : option Body * list (string * string) :=
  let headers := set_header "Content-Type" contentType getAuthHeaders in
  match content with
  | JString s => (Some (BodyText s), headers)
  | JBlob b => (Some (BodyBlob b), headers)
  | _ =>
      (option_map BodyText (JSON_stringify content),
       set_header "Content-Type" "application/json" headers)
  end.

(** The read-back is returned without being awaited inside the guarded
    block, so its failure is not wrapped a second time. *)
Definition writeResource (uri : string) (content : JSValue) (contentType : string)
  : M SolidResourceResponse :=
  let resourceUrl := normalizeUrl uri (podUrl config) in
  _ <- try_catch
         (let (body, headers) := write_payload content contentType in
          response <- call_fetch (mkRequest resourceUrl "PUT" headers body) ;;
          if negb (ok response) then
            throw (ErrorObj ("Failed to write resource: " ++ status_line response))
          else ret tt)
         (fun error =>
            throw (ErrorObj ("Error writing resource " ++ resourceUrl ++ ": "
                             ++ error_message error))) ;;
  readResource resourceUrl true.

Definition deleteResource (uri : string) : M bool :=
  let resourceUrl := normalizeUrl uri (podUrl config) in
  try_catch
    (response <- call_fetch (mkRequest resourceUrl "DELETE" getAuthHeaders None) ;;
     if negb (ok response) then
       throw (ErrorObj ("Failed to delete resource: " ++ status_line response))
     else ret true)
    (fun error =>
       throw (ErrorObj ("Error deleting resource " ++ resourceUrl ++ ": "
                        ++ error_message error))).

Definition LINK_BASIC_CONTAINER : string :=
  "<http://www.w3.org/ns/ldp#BasicContainer>; rel=" ++ str DQUOTE ++ "type" ++ str DQUOTE.

Definition createContainer (uri : string) : M SolidResourceResponse :=
  let containerUrl := normalizeUrl uri (podUrl config) in
  _ <- try_catch
         (let headers :=
            set_header "Content-Type" "text/turtle"
              (set_header "Link" LINK_BASIC_CONTAINER getAuthHeaders) in
          response <- call_fetch (mkRequest containerUrl "PUT" headers None) ;;
          if negb (ok response) then
            throw (ErrorObj ("Failed to create container: " ++ status_line response))
          else ret tt)
         (fun error =>
            throw (ErrorObj ("Error creating container " ++ containerUrl ++ ": "
                             ++ error_message error))) ;;
  readResource containerUrl true.

End WithTransport.

Arguments World : clear implicits.
Arguments M : clear implicits.

(** A pod that answers by the request alone, and the world before any
    call. *)
Definition static (serve : FetchRequest -> FetchResult)
  : FetchRequest -> unit -> FetchResult * unit :=
  fun req _ => (serve req, tt).

Definition start : World unit := mkWorld tt [].

End Client.

(* ================================================================== *)
(** ** lib/server.ts *)
(* ================================================================== *)

Module Server.
Import JS Types Utils Client.

(** [{...child, relevance: 0.8}] *)
Record SearchHit : Type := mkHit {
  hit : SolidResource;
  relevance : Q
}.

Definition RELEVANCE : Q := 0.8%Q.

(** What the six executors return. *)
Inductive ToolResult : Type :=
  | ResourceResult (r : SolidResourceResponse)
  | DeleteResult (success : bool)
  | ListResult (container : SolidResource) (children : list SolidResource)
  | ContainerResult (container : SolidResource)
  | SearchResults (results : list SearchHit).

(** [{status: 'success', result}] and [{status: 'error', error}] *)
Inductive MCPResponse : Type :=
  | Success (result : ToolResult)
  | Failure (error : string).

Section WithTransport.
Context {P : Platform} {W : Type}.
Variable fetchFn : FetchRequest -> W -> FetchResult * W.
Variable config : SolidPodConfig.

(** Computations that may recurse without bound carry fuel: [None] is a
    computation that has not settled within the fuel given. *)
Definition MF (A : Type) : Type := World W -> option (Try A * World W).

Definition retF {A} (a : A) : MF A := fun w => Some (Val a, w).

Definition throwF {A} (e : Thrown) : MF A := fun w => Some (Exn e, w).

Definition bindF {A B} (m : MF A) (k : A -> MF B) : MF B :=
  fun w =>
    match m w with
    | Some (Val a, w') => k a w'
    | Some (Exn e, w') => Some (Exn e, w')
    | None => None
    end.

Definition try_catchF {A} (m : MF A) (h : Thrown -> MF A) : MF A :=
  fun w =>
    match m w with
    | Some (Val a, w') => Some (Val a, w')
    | Some (Exn e, w') => h e w'
    | None => None
    end.

Definition liftM {A} (m : M W A) : MF A := fun w => Some (m w).

Definition liftT {A} (t : Try A) : MF A := fun w => Some (t, w).

Notation "x <- m ;; k" := (bindF m (fun x => k))
  (at level 61, m at next level, right associativity).

(** A [uri] argument as the client reads it.  The client starts with
    [normalizeUrl(uri, podUrl)]: [new URL(uri)] converts a value that is
    not a string with [String(uri)]; when that does not parse,
    [uri.startsWith] is a [TypeError], and when it does the value goes on
    to the transport, which reads it as that string. *)
Definition arg_uri (v : JSValue) : Try string :=
  match v with
  | JString s => Val s
  | JUndefined | JNull =>
      match URL_parse (ToString v) with
      | Some _ => Val (ToString v)
      | None =>
          Exn (ErrorObj ("Cannot read properties of " ++ ToString v
                         ++ " (reading 'startsWith')"))
      end
  | _ =>
      match URL_parse (ToString v) with
      | Some _ => Val (ToString v)
      | None => Exn (ErrorObj "uri.startsWith is not a function")
      end
  end.

(** [includeContent: boolean = true]: the default stands in for
    [undefined] only. *)
Definition arg_include_content (v : JSValue) : bool :=
  match v with
  | JUndefined => true
  | _ => truthy v
  end.

(** A header value that is not a string is read through [String(v)]. *)
Definition arg_content_type (v : JSValue) : string := ToString v.

(** [searchTerm.toLowerCase()] *)
Definition arg_lower (v : JSValue) : Try string :=
  match v with
  | JString s => Val (toLowerCase s)
  | JUndefined | JNull =>
      Exn (ErrorObj ("Cannot read properties of " ++ ToString v
                     ++ " (reading 'toLowerCase')"))
  | _ => Exn (ErrorObj "searchTerm.toLowerCase is not a function")
  end.

Definition is_container (r : SolidResource) : bool :=
  match type r with
  | Container => true
  | Resource => false
  end.

(** The loop over [result.children]; [recurse] is the call of
    [searchResources] on a child. *)
Fixpoint search_children (recurse : string -> MF (list SearchHit))
    (lowerSearchTerm : string) (recursive : bool)
    (children : list SolidResource) (searchResults : list SearchHit)
  : MF (list SearchHit) :=
  match children with
  | [] => retF searchResults
  | child :: rest =>
      filename <- liftT (getFilenameFromUrl (uri child)) ;;
      let matchesFilename := includes (toLowerCase filename) lowerSearchTerm in
      let found :=
        if matchesFilename
        then (searchResults ++ [mkHit child RELEVANCE])%list
        else searchResults in
      found' <-
        (if recursive && is_container child
         then childResults <- recurse (uri child) ;;
              retF (found ++ childResults)%list
         else retF found) ;;
      search_children recurse lowerSearchTerm recursive rest found'
  end.

(** Any failure inside is reported on the console and answered with the
    empty array. *)
Fixpoint searchResources (fuel : nat) (containerUri searchTerm : JSValue)
    (recursive : bool) {struct fuel} : MF (list SearchHit) :=
  match fuel with
  | O => fun _ => None
  | S fuel' =>
      try_catchF
        (u <- liftT (arg_uri containerUri) ;;
         result <- liftM (readResource fetchFn config u false) ;;
         match Client.children result with
         | None | Some [] => retF []
         | Some cs =>
             lowerSearchTerm <- liftT (arg_lower searchTerm) ;;
             search_children
               (fun u' => searchResources fuel' (JString u') searchTerm recursive)
               lowerSearchTerm recursive cs []
         end)
        (fun error => retF [])
  end.

Record SolidMCPTool : Type := mkTool {
  name : string;
  execute : nat -> JSValue -> MF ToolResult
}.

(** [params.k] on the validated parameters, which are an object. *)
Definition param (params : JSValue) (k : string) : MF JSValue :=
  liftT (get_prop params k).

Definition createTools : list SolidMCPTool :=
  [ mkTool "read_resource" (fun _ params =>
      uri <- param params "uri" ;;
      include_content <- param params "include_content" ;;
      u <- liftT (arg_uri uri) ;;
      r <- liftM (readResource fetchFn config u (arg_include_content include_content)) ;;
      retF (ResourceResult r));
    mkTool "write_resource" (fun _ params =>
      uri <- param params "uri" ;;
      content <- param params "content" ;;
      content_type <- param params "content_type" ;;
      u <- liftT (arg_uri uri) ;;
      r <- liftM (writeResource fetchFn config u content (arg_content_type content_type)) ;;
      retF (ResourceResult r));
    mkTool "delete_resource" (fun _ params =>
      uri <- param params "uri" ;;
      u <- liftT (arg_uri uri) ;;
      success <- liftM (deleteResource fetchFn config u) ;;
      retF (DeleteResult success));
    mkTool "list_container" (fun _ params =>
      uri <- param params "uri" ;;
      u <- liftT (arg_uri uri) ;;
      result <- liftM (readResource fetchFn config u false) ;;
      retF (ListResult (resource result)
              (match Client.children result with
               | Some cs => cs
               | None => []
               end)));
    mkTool "create_container" (fun _ params =>
      uri <- param params "uri" ;;
      u <- liftT (arg_uri uri) ;;
      result <- liftM (createContainer fetchFn config u) ;;
      retF (ContainerResult (resource result)));
    mkTool "search" (fun fuel params =>
      container_uri <- param params "container_uri" ;;
      search_term <- param params "search_term" ;;
      recursive <- param params "recursive" ;;
      results <- searchResources fuel container_uri search_term (truthy recursive) ;;
      retF (SearchResults results)) ].

(** [this.service.tools.find(t => t.name === action)] *)
Definition find_tool (action : string) : option SolidMCPTool :=
  find (fun t => String.eqb (name t) action) createTools.

(** The guarded block of [handleRequest]. *)
Definition dispatch (fuel : nat) (request : JSValue) : MF ToolResult :=
  action <- liftT (get_prop request "action") ;;
  if negb (truthy action) || negb (typeof_string action) then
    throwF (ErrorObj "Invalid request: missing or invalid action")
  else
    parameters <- liftT (get_prop request "parameters") ;;
    if negb (truthy parameters) || negb (typeof_object parameters) then
      throwF (ErrorObj "Invalid request: missing or invalid parameters")
    else
      match find_tool (ToString action) with
      | None => throwF (ErrorObj ("Unknown action: " ++ ToString action))
      | Some tool => execute tool fuel parameters
      end.

Definition handleRequest (fuel : nat) (request : JSValue) : MF MCPResponse :=
  try_catchF
    (result <- dispatch fuel request ;; retF (Success result))
    (fun error => retF (Failure (error_message error))).

End WithTransport.

End Server.

(* ================================================================== *)
(** ** The words of the specification *)
(* ================================================================== *)

Module Spec.
Import JS Types Utils Client Server.

(** The base with a trailing path delimiter ensured. *)
Definition ensure_trailing_delimiter (base : string) : string :=
  match last_char base with
  | Some "/"%char => base
  | _ => base ++ "/"
  end.

(** The input stripped of a leading path delimiter, when it has one. *)
Definition strip_leading_delimiter (u : string) : string :=
  match u with
  | String "/" r => r
  | _ => u
  end.

(** The input stripped of every leading path delimiter. *)
Fixpoint strip_leading_delimiters (u : string) : string :=
  match u with
  | String "/" r => strip_leading_delimiters r
  | _ => u
  end.

(** A container description with one statement to a line: the statement
    that types the container, then for each child its locator, the format
    property and the quoted format, closed by a full stop. *)
Definition container_line (containerUrl : string) : string :=
  "<" ++ containerUrl ++ "> a <" ++ LDP_CONTAINER ++ ">.".

Definition child_line (kid : string * string) : string :=
  "<" ++ fst kid ++ "> <" ++ DC_FORMAT ++ "> "
      ++ str DQUOTE ++ snd kid ++ str DQUOTE ++ ".".

Definition container_body (containerUrl : string) (kids : list (string * string))
  : string :=
  join (str LF) (container_line containerUrl :: map child_line kids).

(** A locator that can stand between angle brackets on a line, and a
    format that can stand between double quotes. *)
Definition locator_ok (s : string) : bool :=
  nonempty s && free_of GT s && free_of LF s && free_of DQUOTE s.

Definition format_ok (s : string) : bool :=
  nonempty s && free_of DQUOTE s && free_of LF s.

Definition kid_ok (containerUrl : string) (kid : string * string) : bool :=
  locator_ok (fst kid) && format_ok (snd kid)
  && negb (String.eqb (fst kid) containerUrl).

(** The six names of the registry. *)
Definition registered : list string :=
  ["read_resource"; "write_resource"; "delete_resource";
   "list_container"; "create_container"; "search"].

(** The action is missing, empty or not a string. *)
Definition bad_action (action : JSValue) : Prop :=
  forall s, action = JString s -> s = EmptyString.

(** The parameters are missing or not an object. *)
Definition bad_parameters (parameters : JSValue) : Prop :=
  match parameters with
  | JObject _ | JArray _ | JBlob _ => False
  | _ => True
  end.

(** A transport call that succeeded: it settled with a 2xx response. *)
Definition settled_ok (c : FetchRequest * FetchResult) : Prop :=
  match snd c with
  | Resolved r => ok r = true
  | Rejected _ => False
  end.

(** A computation surfaces the failures of the transport: the calls it
    makes are added to the record, and it returns a value only when every
    one of them succeeded. *)
Definition surfaces {W A : Type} (m : M W A) : Prop :=
  forall w,
    exists new,
      calls (snd (m w)) = (calls w ++ new)%list /\
      (forall a, fst (m w) = Val a -> Forall settled_ok new).

(** The body reads a read makes on its response succeed: the read of the
    container check, made when the declared type is turtle, and the read
    that decodes the content, made when the content is asked for. *)
Definition body_reads_ok (r : Response) (includeContent : bool) : Prop :=
  let declared := or_empty (headers_get r "Content-Type") in
  let turtle := includes declared "text/turtle" in
  (turtle = true -> exists payload, text r 0 = Val payload) /\
  (includeContent = true ->
   exists c, decode_content r declared (if turtle then 1 else 0) = Val c).

(** A response as the Fetch standard has it: once the body has been read,
    every reader rejects. *)
Definition single_use (r : Response) : Prop :=
  forall reads,
    (exists e, text r (S reads) = Exn e) /\
    (exists e, json r (S reads) = Exn e) /\
    (exists e, blob r (S reads) = Exn e).

(** Over a static pod what a computation returns does not depend on the
    calls made before it. *)
Definition world_blind {A : Type} (m : M unit A) : Prop :=
  forall w w0, fst (m w) = fst (m w0).

(** The children a static pod lists for a container: what the search
    walks. *)
Definition listing {P : Platform} (serve : FetchRequest -> FetchResult)
    (config : SolidPodConfig) (u : string) : list SolidResource :=
  match fst (readResource (static serve) config u false start) with
  | Val r =>
      match children r with
      | Some cs => cs
      | None => []
      end
  | Exn _ => []
  end.

(** The hit a child gives by its own name, if any. *)
Definition own_hit {P : Platform} (lower : string) (c : SolidResource)
  : list SearchHit :=
  match getFilenameFromUrl (uri c) with
  | Val filename =>
      if includes (toLowerCase filename) lower then [mkHit c RELEVANCE] else []
  | Exn _ => []
  end.

(** The pre-order walk of the tree under a container, to a given depth:
    each child is followed by the walk of what it contains. *)
Fixpoint walk {P : Platform} (serve : FetchRequest -> FetchResult)
    (config : SolidPodConfig) (lower : string) (depth : nat) (u : string)
  : list SearchHit :=
  match depth with
  | O => []
  | S depth' =>
      flat_map
        (fun c => (own_hit lower c ++
                   (if is_container c then walk serve config lower depth' (uri c)
                    else []))%list)
        (listing serve config u)
  end.

(** The containment relation is acyclic and finite: every container lies
    strictly below the container that lists it. *)
Definition acyclic {P : Platform} (serve : FetchRequest -> FetchResult)
    (config : SolidPodConfig) (rank : string -> nat) : Prop :=
  forall u c,
    In c (listing serve config u) -> type c = Container ->
    rank (uri c) < rank u.

(** A child whose locator has a filename: [new URL] accepts it. *)
Definition named_child {P : Platform} (p : SolidResource) : Prop :=
  exists f, getFilenameFromUrl (uri p) = Val f.

(** [on_cycle] is a set of containers closed under a step of containment:
    each lists a container of the set, and the children listed up to it
    have filenames, so that the loop over the children gets to it. *)
Definition cyclic {P : Platform} (serve : FetchRequest -> FetchResult)
    (config : SolidPodConfig) (on_cycle : string -> Prop) : Prop :=
  forall u,
    on_cycle u ->
    exists pre c rest,
      listing serve config u = (pre ++ c :: rest)%list /\
      Forall named_child pre /\
      type c = Container /\
      named_child c /\
      on_cycle (uri c).

End Spec.

(* ================================================================== *)
(** ** A reference host

    A concrete platform and concrete transports, on which the model runs.
    [URL_parse] is the WHATWG parser restricted to what the examples use:
    [scheme://authority/path?query#fragment] and [scheme:opaque], with no
    percent-encoding, case folding or dot-segment removal.
    [JSON_stringify] is [JSON.stringify] on the values of [JSValue]. *)
(* ================================================================== *)

Module Host.
Import JS Types Utils Client Server.

Definition is_alpha (c : ascii) : bool :=
  let n := nat_of_ascii c in
  (((65 <=? n) && (n <=? 90)) || ((97 <=? n) && (n <=? 122)))%nat.

Definition is_scheme_char (c : ascii) : bool :=
  let n := nat_of_ascii c in
  (is_alpha c || ((48 <=? n) && (n <=? 57)) ||
   (n =? 43) || (n =? 45) || (n =? 46))%nat.

(** The scheme characters up to the first colon, and what follows it. *)
Fixpoint scheme_rest (s : string) : option (string * string) :=
  match s with
  | EmptyString => None
  | String c r =>
      if Ascii.eqb c ":" then Some (EmptyString, r)
      else if is_scheme_char c then
        match scheme_rest r with
        | Some (p, q) => Some (String c p, q)
        | None => None
        end
      else None
  end.

Fixpoint span_until (stop : ascii -> bool) (s : string) : string * string :=
  match s with
  | EmptyString => (EmptyString, EmptyString)
  | String c r =>
      if stop c then (EmptyString, s)
      else let (p, q) := span_until stop r in (String c p, q)
  end.

Definition ends_path (c : ascii) : bool := Ascii.eqb c "?" || Ascii.eqb c "#".
Definition ends_authority (c : ascii) : bool := Ascii.eqb c "/" || ends_path c.

Definition parse_url (s : string) : option URL :=
  match s with
  | EmptyString => None
  | String c _ =>
      if is_alpha c then
        match scheme_rest s with
        | None => None
        | Some (scheme, rest) =>
            match rest with
            | String "/" (String "/" after) =>
                let (authority, tail) := span_until ends_authority after in
                let (path, _) := span_until ends_path tail in
                if nonempty authority
                then Some (mkURL (scheme ++ ":") authority
                             (if nonempty path then path else "/"))
                else None
            | _ =>
                let (path, _) := span_until ends_path rest in
                Some (mkURL (scheme ++ ":") EmptyString path)
            end
        end
      else None
  end.

Definition hex_digit (n : nat) : ascii :=
  if (n <? 10)%nat then ascii_of_nat (48 + n) else ascii_of_nat (87 + n).

(** A code unit inside a JSON string literal. *)
Definition escape_char (c : ascii) : string :=
  let n := nat_of_ascii c in
  if Ascii.eqb c DQUOTE then String "\" (str DQUOTE)
  else if Ascii.eqb c "\" then "\\"
  else if (n =? 8)%nat then "\b"
  else if (n =? 9)%nat then "\t"
  else if (n =? 10)%nat then "\n"
  else if (n =? 12)%nat then "\f"
  else if (n =? 13)%nat then "\r"
  else if (n <? 32)%nat
  then "\u00" ++ str (hex_digit (n / 16)) ++ str (hex_digit (n mod 16))
  else str c.

Fixpoint escape (s : string) : string :=
  match s with
  | EmptyString => EmptyString
  | String c r => escape_char c ++ escape r
  end.

Definition quote (s : string) : string := str DQUOTE ++ escape s ++ str DQUOTE.

(** [JSON.stringify]: [None] is [undefined].  Inside an array [undefined]
    prints as [null]; inside an object the field is left out. *)
Fixpoint stringify (v : JSValue) : option string :=
  match v with
  | JUndefined => None
  | JNull => Some "null"
  | JBool true => Some "true"
  | JBool false => Some "false"
  | JNumber NaN => Some "null"
  | JNumber (Int z) => Some (Z_to_string z)
  | JNumber NegZero => Some "0"
  | JNumber (Infinity _) => Some "null"
  | JString s => Some (quote s)
  | JArray items =>
      Some ("[" ++ join ","
                    (map (fun x => match stringify x with
                                   | Some t => t
                                   | None => "null"
                                   end) items) ++ "]")
  | JObject fields =>
      Some ("{" ++ join ","
                    (flat_map (fun kv => match stringify (snd kv) with
                                         | Some t => [quote (fst kv) ++ ":" ++ t]
                                         | None => []
                                         end) fields) ++ "}")
  | JBlob _ => Some "{}"
  end.

Definition reference : Platform := {|
  URL_parse := parse_url;
  JSON_stringify := stringify
|}.

(** [headers.get(name)]: names compare without regard to case. *)
Fixpoint lookup_header (hs : list (string * string)) (name : string) : option string :=
  match hs with
  | [] => None
  | (k, v) :: rest =>
      if String.eqb (toLowerCase k) (toLowerCase name) then Some v
      else lookup_header rest name
  end.

Definition BODY_USED : Thrown :=
  ErrorObj "Body is unusable: Body has already been read".

Definition status_ok (st : Z) : bool := ((200 <=? st) && (st <? 300))%Z.

(** A response as the Fetch standard has it: the body is handed out once. *)
Definition standard_response (st : Z) (stText : string)
    (hs : list (string * string)) (payload : string) (parsed : Try JSValue)
  : Response :=
  mkResponse (status_ok st) st stText (lookup_header hs)
    (fun reads => match reads with O => Val payload | S _ => Exn BODY_USED end)
    (fun reads => match reads with O => parsed | S _ => Exn BODY_USED end)
    (fun reads => match reads with O => Val payload | S _ => Exn BODY_USED end).

(** A mock response whose readers are plain closures: every read is served. *)
Definition replayable_response (st : Z) (stText : string)
    (hs : list (string * string)) (payload : string) (parsed : Try JSValue)
  : Response :=
  mkResponse (status_ok st) st stText (lookup_header hs)
    (fun _ => Val payload) (fun _ => parsed) (fun _ => Val payload).

Definition NOT_JSON : Try JSValue := Exn (ErrorObj "Not JSON").

Definition pod : SolidPodConfig := mkConfig "http://pod" None.

End Host.

(* ================================================================== *)
(** ** Pods to run the model on *)
(* ================================================================== *)

Module Pods.
Import JS Types Utils Client Server Host.

Definition turtle (payload : string) : FetchResult :=
  Resolved (standard_response 200 "OK" [("Content-Type", "text/turtle")]
              payload NOT_JSON).

Definition not_found : FetchResult :=
  Resolved (standard_response 404 "Not Found" [] "Not Found" NOT_JSON).

Definition lines (ls : list string) : string := join (str LF) ls.

Definition quoted (s : string) : string := str DQUOTE ++ s ++ str DQUOTE.

(** A container with two children, one statement to a line. *)
Definition flat_body : string :=
  lines
    [ "<http://pod/c/> a <http://www.w3.org/ns/ldp#Container>.";
      "<http://pod/c/a.txt> <http://purl.org/dc/terms/format> "
        ++ quoted "text/plain" ++ ".";
      "<http://pod/c/b.txt> <http://purl.org/dc/terms/format> "
        ++ quoted "application/json" ++ "." ].

Definition flat_pod (req : FetchRequest) : FetchResult :=
  if String.eqb (url req) "http://pod/c/" then turtle flat_body else not_found.

(** The same pod behind mock responses, as the test suite builds them. *)
Definition mock_pod (req : FetchRequest) : FetchResult :=
  if String.eqb (url req) "http://pod/c/"
  then Resolved (replayable_response 200 "OK" [("Content-Type", "text/turtle")]
                   flat_body NOT_JSON)
  else not_found.

(** The same container, each child described over two lines, the way the
    fixtures of the test suite are laid out. *)
Definition folded_body : string :=
  lines
    [ "<http://pod/c/> a <http://www.w3.org/ns/ldp#Container>.";
      "<http://pod/c/a.txt> a <http://www.w3.org/ns/ldp#Resource>;";
      "  <http://purl.org/dc/terms/format> " ++ quoted "text/plain" ++ ".";
      "<http://pod/c/b.txt> a <http://www.w3.org/ns/ldp#Resource>;";
      "  <http://purl.org/dc/terms/format> " ++ quoted "application/json" ++ "." ].

Definition folded_pod (req : FetchRequest) : FetchResult :=
  if String.eqb (url req) "http://pod/c/" then turtle folded_body else not_found.

(** A container described in JSON-LD, the first type the client accepts. *)
Definition jsonld_body : string :=
  "{" ++ quoted "@id" ++ ":" ++ quoted "http://pod/c/" ++ ","
      ++ quoted "@type" ++ ":[" ++ quoted "http://www.w3.org/ns/ldp#Container" ++ "]}".

Definition jsonld_value : JSValue :=
  JObject [("@id", JString "http://pod/c/");
           ("@type", JArray [JString "http://www.w3.org/ns/ldp#Container"])].

Definition jsonld_response : Response :=
  standard_response 200 "OK" [("Content-Type", "application/ld+json")]
    jsonld_body (Val jsonld_value).

Definition jsonld_pod (req : FetchRequest) : FetchResult :=
  if String.eqb (url req) "http://pod/c/" then Resolved jsonld_response
  else not_found.

(** A pod that cannot be reached. *)
Definition unreachable (req : FetchRequest) : FetchResult :=
  Rejected (ErrorObj "fetch failed").

(** [a.txt] is a container with a child of its own. *)
Definition tree_root : string :=
  lines
    [ "<http://pod/c/> a <http://www.w3.org/ns/ldp#Container>.";
      "<http://pod/c/a.txt> a <http://www.w3.org/ns/ldp#Container>.";
      "<http://pod/c/b.txt> <http://purl.org/dc/terms/format> "
        ++ quoted "text/plain" ++ "." ].

Definition tree_inner : string :=
  lines
    [ "<http://pod/c/a.txt> a <http://www.w3.org/ns/ldp#Container>.";
      "<http://pod/c/a.txt/about.md> <http://purl.org/dc/terms/format> "
        ++ quoted "text/markdown" ++ "." ].

Definition tree_pod (req : FetchRequest) : FetchResult :=
  if String.eqb (url req) "http://pod/c/" then turtle tree_root
  else if String.eqb (url req) "http://pod/c/a.txt" then turtle tree_inner
  else not_found.

Definition tree_rank (u : string) : nat :=
  let target := normalizeUrl (P:=reference) u (podUrl pod) in
  if String.eqb target "http://pod/c/" then 2
  else if String.eqb target "http://pod/c/a.txt" then 1
  else 0.

(** Two containers that list each other. *)
Definition loop_a : string :=
  lines
    [ "<http://pod/a/> a <http://www.w3.org/ns/ldp#Container>.";
      "<http://pod/b/> a <http://www.w3.org/ns/ldp#Container>." ].

Definition loop_b : string :=
  lines
    [ "<http://pod/b/> a <http://www.w3.org/ns/ldp#Container>.";
      "<http://pod/a/> a <http://www.w3.org/ns/ldp#Container>." ].

Definition loop_pod (req : FetchRequest) : FetchResult :=
  if String.eqb (url req) "http://pod/a/" then turtle loop_a
  else if String.eqb (url req) "http://pod/b/" then turtle loop_b
  else not_found.

Definition on_loop (u : string) : Prop :=
  u = "http://pod/a/" \/ u = "http://pod/b/".

Definition search_request (container_uri term : string) (recursive : bool)
  : JSValue :=
  JObject [("action", JString "search");
           ("parameters",
            JObject [("container_uri", JString container_uri);
                     ("search_term", JString term);
                     ("recursive", JBool recursive)])].

End Pods.

(* ================================================================== *)
(** ** lib/utils.ts: the parent of a locator *)
(* ================================================================== *)

Module UtilsMore.
Import JS Types Utils.

Section WithPlatform.
Context {P : Platform}.


End WithPlatform.

End UtilsMore.

(* ================================================================== *)
(** ** Properties the code is checked against *)
(* ================================================================== *)

Module Props.
Import JS Types Utils Client Server Spec.

(** What [parseResourceMetadata] builds for a child: a locator that is
    neither empty nor the container's own, a declared type that is absent
    or not empty, and nothing else. *)
Definition child_shaped (containerUrl : string) (r : SolidResource) : Prop :=
  uri r <> containerUrl /\ uri r <> EmptyString /\
  contentType r <> Some EmptyString /\
  modified r = None /\ size r = None /\ permissions r = None.

(** The locator stands in the text between angle brackets. *)
Definition bracketed_in (text : string) (u : string) : Prop :=
  includes text (str LT ++ u ++ str GT) = true.

(** What a child says comes from the text: its locator stands there
    between angle brackets, a child typed as a container is backed by the
    container marker, and a declared type stands there between double
    quotes, next to the format property. *)
Definition child_sourced (text : string) (r : SolidResource) : Prop :=
  bracketed_in text (uri r) /\ free_of GT (uri r) = true /\
  (type r = Container -> includes text LDP_CONTAINER = true) /\
  (forall t, contentType r = Some t ->
     includes text (str DQUOTE ++ t ++ str DQUOTE) = true /\
     includes text DC_FORMAT = true).

(** The same of the scan under way: its current subject, its container
    flag and its declared type come from the text, and so do the children
    found so far. *)
Definition scan_sourced (text : string) (st : Scan) : Prop :=
  (currentUri st = EmptyString \/
   (bracketed_in text (currentUri st) /\ free_of GT (currentUri st) = true)) /\
  (Utils.isContainer st = true -> includes text LDP_CONTAINER = true) /\
  (scanContentType st = EmptyString \/
   (includes text (str DQUOTE ++ scanContentType st ++ str DQUOTE) = true /\
    includes text DC_FORMAT = true)) /\
  Forall (child_sourced text) (resources st).

(** The line closes a statement for the scan: it ends with a full stop or
    a semicolon, or is blank. *)
Definition closes_statement (line : string) : bool :=
  endsWith (trim line) "." || endsWith (trim line) ";"
  || String.eqb (trim line) EmptyString.

(** Every call a computation makes satisfies [Q], and it makes at most
    [n] of them. *)
Definition makes {W A : Type} (n : nat) (Q : FetchRequest -> Prop) (m : M W A)
  : Prop :=
  forall w,
    exists new,
      calls (snd (m w)) = (calls w ++ new)%list /\
      length new <= n /\
      Forall (fun c => Q (fst c)) new.

(** The credentials a configuration sends: a bearer or DPoP token that
    is not empty; nothing for the cookie type or without a token. *)
Definition credentials (config : SolidPodConfig) : option string :=
  match auth config with
  | Some (mkAuth bearer (Some t)) =>
      if nonempty t then Some ("Bearer " ++ t) else None
  | Some (mkAuth dpop (Some t)) =>
      if nonempty t then Some ("DPoP " ++ t) else None
  | _ => None
  end.

(** [m] starts with the call [req], whatever it is answered, and makes at
    most [n] calls after it, each of them a request in [Q]. *)
Definition starts_with_call {W A : Type}
    (fetchFn : FetchRequest -> W -> FetchResult * W)
    (req : FetchRequest) (n : nat) (Q : FetchRequest -> Prop) (m : M W A) : Prop :=
  forall w, exists new,
    calls (snd (m w))
    = (calls w ++ (req, fst (fetchFn req (net w))) :: new)%list /\
    length new <= n /\
    Forall (fun c => Q (fst c)) new.

(** The request asks for the three types the client accepts and carries
    the credentials of the configuration, and no others. *)
Definition carries_auth (config : SolidPodConfig) (req : FetchRequest) : Prop :=
  get_header "Accept" (headers req) = Some ACCEPT /\
  get_header "Authorization" (headers req) = credentials config.

(** The placeholder every read reports as permissions. *)
Definition PLACEHOLDER : Permissions := mkPermissions true true true false.

(** What a first call that did not succeed says: the message of the
    rejection, or the status line of a response outside the 2xx range. *)
Definition failure_of (what : string) (res : FetchResult) : option string :=
  match res with
  | Rejected e => Some (error_message e)
  | Resolved r =>
      if ok r then None else Some ("Failed to " ++ what ++ ": " ++ status_line r)
  end.

(** [run], started in [w] with [req] as its first call, ends with that
    call when the call fails: it throws an error that names the operation,
    the locator and the failure, and the log holds that one call more. *)
Definition stopped_by {W A : Type} (fetchFn : FetchRequest -> W -> FetchResult * W)
    (w : World W) (req : FetchRequest) (label what : string)
    (run : Try A * World W) : Prop :=
  forall m, failure_of what (fst (fetchFn req (net w))) = Some m ->
    run = (Exn (ErrorObj (label ++ url req ++ ": " ++ m)),
           mkWorld (snd (fetchFn req (net w)))
             (calls w ++ [(req, fst (fetchFn req (net w)))])%list).

Section WithPlatform.
Context {P : Platform}.

(** The file name of the resource contains the term, case ignored. *)
Definition matches (term : string) (r : SolidResource) : Prop :=
  exists filename,
    getFilenameFromUrl (uri r) = Val filename /\
    includes (toLowerCase filename) (toLowerCase term) = true.

(** A hit the search may report for a term. *)
Definition sound_hit (searchTerm : JSValue) (h : SearchHit) : Prop :=
  relevance h = RELEVANCE /\
  exists term, searchTerm = JString term /\ matches term (hit h).

End WithPlatform.


(** The request names the tool [a] and passes it [parameters]. *)
Definition calls_tool (request : JSValue) (a : string) (parameters : JSValue) : Prop :=
  get_prop request "action" = Val (JString a) /\
  get_prop request "parameters" = Val parameters /\
  ~ bad_parameters parameters.

End Props.

(* ================================================================== *)
(** ** lib/server.ts: the service definition *)
(* ================================================================== *)

Module Service.
Import JS Types Utils Client Server.

Record Metadata : Type := mkMetadata {
  service_name : string;
  description : string;
  version : string;
  capabilities : list string
}.

Section WithTransport.
Context {P : Platform} {W : Type}.
Variable fetchFn : FetchRequest -> W -> FetchResult * W.
Variable config : SolidPodConfig.

Record SolidMCPService : Type := mkService {
  metadata : Metadata;
  tools : list (SolidMCPTool (W:=W))
}.

(** The service the constructor defines. *)
Definition service : SolidMCPService :=
  mkService
    (mkMetadata "solid-mcp"
       "Anthropic Model Context Protocol integration for Solid pods"
       "1.0.0"
       ["read_resource"; "write_resource"; "delete_resource";
        "list_container"; "create_container"])
    (createTools fetchFn config).

Definition getService : SolidMCPService := service.

End WithTransport.

End Service.

(* ================================================================== *)
(** ** lib/mcp-adapter.ts: the handlers of the adapter

    The handlers are the functions [createSolidMcpAdapter] registers with
    the SDK; they are read here as functions of their arguments.  What
    they log on the console is left out. *)
(* ================================================================== *)

Module Adapter.
Import JS Types Utils Client Server.

(** The fields of the [URL] argument the handlers read: [uri.pathname],
    and [uri.href] for [uri.toString()]. *)
Record Uri : Type := mkUri {
  uri_pathname : string;
  uri_href : string
}.

Record ResourceInfo : Type := mkInfo {
  info_uri : string;
  info_contentType : option string
}.

Record ReadResult : Type := mkRead {
  info : ResourceInfo;
  read_content : option JSValue
}.

Record Written : Type := mkWritten {
  written_uri : string
}.

Record Entry : Type := mkEntry {
  entry_uri : string;
  entry_name : string;
  entry_isContainer : bool
}.

Record Found : Type := mkFound {
  found_uri : string;
  found_name : string;
  excerpt : string;
  found_isContainer : bool
}.

(** What the guarded block of a handler throws: an [Error] or a
    [TypeError], with its message. *)
Inductive Caught : Type :=
  | AnError (message : string)
  | ATypeError (message : string).

(** [`${error}`]: the name of the error, then its message unless it is
    empty. *)
Definition template (e : Caught) : string :=
  match e with
  | AnError m => if nonempty m then "Error: " ++ m else "Error"
  | ATypeError m => if nonempty m then "TypeError: " ++ m else "TypeError"
  end.

(** [s.replace(/^\//, '')] *)
Definition strip_slash (s : string) : string :=
  if startsWith s "/" then substring1 s else s.

(** [s.split('/').pop() || ''] *)
Definition last_segment (s : string) : string :=
  match last_part (split "/" s) with
  | Some p => p
  | None => EmptyString
  end.

(** [response.result.resource.contentType]: only what [read_resource] and
    [write_resource] return has a [resource]. *)
Definition result_contentType (result : ToolResult) : Caught + option string :=
  match result with
  | ResourceResult r => inr (contentType (resource r))
  | _ => inl (ATypeError "Cannot read properties of undefined (reading 'contentType')")
  end.

(** [response.result.content] *)
Definition result_content (result : ToolResult) : option JSValue :=
  match result with
  | ResourceResult r => content r
  | _ => None
  end.

(** [response.result.children.map] *)
Definition result_children (result : ToolResult) : Caught + list SolidResource :=
  match result with
  | ListResult _ cs => inr cs
  | ResourceResult r =>
      match children r with
      | Some cs => inr cs
      | None => inl (ATypeError "Cannot read properties of undefined (reading 'map')")
      end
  | _ => inl (ATypeError "Cannot read properties of undefined (reading 'map')")
  end.

(** [response.result.results.map] *)
Definition result_results (result : ToolResult) : Caught + list SearchHit :=
  match result with
  | SearchResults hits => inr hits
  | _ => inl (ATypeError "Cannot read properties of undefined (reading 'map')")
  end.

Section WithTransport.
Context {P : Platform} {W : Type}.
Variable fetchFn : FetchRequest -> W -> FetchResult * W.
Variable config : SolidPodConfig.

(** The guarded block of a handler. *)
Definition AM (A : Type) : Type := World W -> option ((Caught + A) * World W).

Definition retA {A} (a : A) : AM A := fun w => Some (inr a, w).

Definition raise {A} (e : Caught) : AM A := fun w => Some (inl e, w).

Definition bindA {A B} (m : AM A) (k : A -> AM B) : AM B :=
  fun w =>
    match m w with
    | Some (inr a, w') => k a w'
    | Some (inl e, w') => Some (inl e, w')
    | None => None
    end.

Definition liftC {A} (c : Caught + A) : AM A := fun w => Some (c, w).

(** [await solidMcpServer.handleRequest(request)].  The server catches
    whatever its guarded block throws, so the promise is never rejected;
    a rejection would be caught by the handler as any error is. *)
Definition await (m : MF (W:=W) MCPResponse) : AM MCPResponse :=
  fun w =>
    match m w with
    | Some (Val response, w') => Some (inr response, w')
    | Some (Exn e, w') => Some (inl (AnError (error_message e)), w')
    | None => None
    end.

(** [try { ... } catch (error) { throw new Error(`${label}: ${error}`) }] *)
Definition guarded {A} (label : string) (m : AM A) : MF (W:=W) A :=
  fun w =>
    match m w with
    | Some (inr a, w') => Some (Val a, w')
    | Some (inl e, w') => Some (Exn (ErrorObj (label ++ ": " ++ template e)), w')
    | None => None
    end.

Notation "x <- m ;; k" := (bindA m (fun x => k))
  (at level 61, m at next level, right associativity).

Definition request_of (action : string) (parameters : list (string * JSValue))
  : JSValue :=
  JObject [("action", JString action); ("parameters", JObject parameters)].

(** [`/${path || ''}`] on the path of the URI without its leading
    delimiter. *)
Definition solid_path (uri : Uri) : string :=
  let path := strip_slash (uri_pathname uri) in
  "/" ++ path.

Definition read (fuel : nat) (uri : Uri) : MF (W:=W) ReadResult :=
  guarded "Failed to read Solid resource"
    (let solidPath := solid_path uri in
     response <- await (handleRequest fetchFn config fuel
                          (request_of "read_resource"
                             [("uri", JString solidPath);
                              ("include_content", JBool true)])) ;;
     match response with
     | Failure error => raise (AnError error)
     | Success result =>
         declared <- liftC (result_contentType result) ;;
         retA (mkRead (mkInfo (uri_href uri) declared) (result_content result))
     end).

(** The [list] handler. *)
Definition list_resources (fuel : nat) (uri : Uri) : MF (W:=W) (list Entry) :=
  guarded "Failed to list Solid container"
    (let solidPath := solid_path uri in
     response <- await (handleRequest fetchFn config fuel
                          (request_of "list_container"
                             [("uri", JString solidPath)])) ;;
     match response with
     | Failure error => raise (AnError error)
     | Success result =>
         children <- liftC (result_children result) ;;
         retA (map (fun child =>
                      mkEntry ("solid://" ++ strip_slash (Types.uri child))
                        (last_segment (Types.uri child))
                        (is_container child))
                 children)
     end).

(** [contentType || 'text/plain'] *)
Definition declared_or_plain (contentType : option string) : string :=
  match contentType with
  | Some t => if nonempty t then t else "text/plain"
  | None => "text/plain"
  end.

Definition write (fuel : nat) (uri : Uri) (content : string)
    (contentType : option string) : MF (W:=W) Written :=
  guarded "Failed to write Solid resource"
    (let solidPath := solid_path uri in
     response <- await (handleRequest fetchFn config fuel
                          (request_of "write_resource"
                             [("uri", JString solidPath);
                              ("content", JString content);
                              ("content_type",
                               JString (declared_or_plain contentType))])) ;;
     match response with
     | Failure error => raise (AnError error)
     | Success _ => retA (mkWritten (uri_href uri))
     end).

Definition delete (fuel : nat) (uri : Uri) : MF (W:=W) unit :=
  guarded "Failed to delete Solid resource"
    (let solidPath := solid_path uri in
     response <- await (handleRequest fetchFn config fuel
                          (request_of "delete_resource"
                             [("uri", JString solidPath)])) ;;
     match response with
     | Failure error => raise (AnError error)
     | Success _ => retA tt
     end).

(** [options.containerUri ? new URL(options.containerUri).pathname : '/'] *)
Definition container_path (containerUri : option string) : Caught + string :=
  match containerUri with
  | Some c =>
      if nonempty c then
        match URL_parse c with
        | Some o => inr (pathname o)
        | None => inl (ATypeError "Invalid URL")
        end
      else inr "/"
  | None => inr "/"
  end.

Definition search (fuel : nat) (query : string) (containerUri : option string)
    (recursive : option bool) : MF (W:=W) (list Found) :=
  guarded "Failed to search Solid resources"
    (containerPath <- liftC (container_path containerUri) ;;
     response <- await (handleRequest fetchFn config fuel
                          (request_of "search"
                             [("container_uri", JString containerPath);
                              ("search_term", JString query);
                              ("recursive",
                               JBool match recursive with
                                     | Some b => b
                                     | None => false
                                     end)])) ;;
     match response with
     | Failure error => raise (AnError error)
     | Success result =>
         results <- liftC (result_results result) ;;
         retA (map (fun item =>
                      mkFound ("solid://" ++ strip_slash (Types.uri (hit item)))
                        (last_segment (Types.uri (hit item)))
                        EmptyString
                        (is_container (hit item)))
                 results)
     end).

End WithTransport.

End Adapter.

(* ================================================================== *)
(** ** More pods to run the model on *)
(* ================================================================== *)

Module MorePods.
Import JS Types Utils Client Server Host Pods.

Definition created : Response :=
  standard_response 201 "Created" [] EmptyString NOT_JSON.

Definition note : Response :=
  standard_response 200 "OK" [("Content-Type", "text/plain")] "hello" NOT_JSON.

(** A pod that takes every PUT and serves one note. *)
Definition store_pod (req : FetchRequest) : FetchResult :=
  if String.eqb (method req) "PUT" then Resolved created
  else if String.eqb (url req) "http://pod/notes/a.txt" then Resolved note
  else not_found.

Definition described : Response :=
  standard_response 200 "OK" [("Content-Type", "text/turtle")] flat_body NOT_JSON.

(** A pod that takes every PUT and describes what it holds in Turtle. *)
Definition turtle_store_pod (req : FetchRequest) : FetchResult :=
  if String.eqb (method req) "PUT" then Resolved created
  else Resolved described.

(** A container one of whose children has a locator that does not
    parse. *)
Definition broken_body : string :=
  lines
    [ "<http://pod/c/> a <http://www.w3.org/ns/ldp#Container>.";
      "<http://pod/c/a.txt> <http://purl.org/dc/terms/format> "
        ++ quoted "text/plain" ++ ".";
      "<http> <http://purl.org/dc/terms/format> " ++ quoted "text/plain" ++ "." ].

Definition broken_pod (req : FetchRequest) : FetchResult :=
  if String.eqb (url req) "http://pod/c/" then turtle broken_body else not_found.

(** Two containers that list each other, the first behind a child whose
    locator does not parse. *)
Definition blocked_a : string :=
  lines
    [ "<http://pod/a/> a <http://www.w3.org/ns/ldp#Container>.";
      "<http> <http://purl.org/dc/terms/format> " ++ quoted "text/plain" ++ ".";
      "<http://pod/b/> a <http://www.w3.org/ns/ldp#Container>." ].

Definition blocked_pod (req : FetchRequest) : FetchResult :=
  if String.eqb (url req) "http://pod/a/" then turtle blocked_a
  else if String.eqb (url req) "http://pod/b/" then turtle loop_b
  else not_found.

(** A pod given by a path instead of a URL. *)
Definition by_path : SolidPodConfig := mkConfig "/pod" None.

Definition with_token : SolidPodConfig :=
  mkConfig "http://pod" (Some (mkAuth bearer (Some "secret"))).

(** What a run returned, for the runs that do return. *)
Definition returned {A : Type} (default : A) (run : Try A * World unit) : A :=
  match fst run with
  | Val a => a
  | Exn _ => default
  end.

Definition nothing : SolidResourceResponse :=
  mkResponseOf (mkResource EmptyString Resource None None None None) None None.

Definition tool_request (action : string) (parameters : list (string * JSValue))
  : JSValue :=
  JObject [("action", JString action); ("parameters", JObject parameters)].

End MorePods.

(* ================================================================== *)
(** ** Facts about the string primitives *)
(* ================================================================== *)

Module JSFacts.
Import JS.

Lemma sapp_assoc (a b c : string) : (a ++ b) ++ c = a ++ (b ++ c).
Proof. induction a as [|x a IH]; simpl; [reflexivity | now rewrite IH]. Qed.

Lemma sapp_empty_r (a : string) : a ++ "" = a.
Proof. induction a as [|x a IH]; simpl; [reflexivity | now rewrite IH]. Qed.

Lemma startsWith_app (p s : string) : startsWith (p ++ s) p = true.
Proof.
  induction p as [|c p IH]; simpl; [reflexivity|].
  now rewrite Ascii.eqb_refl, IH.
Qed.

Lemma includes_prefix (p s : string) : includes (p ++ s) p = true.
Proof.
  destruct p as [|c p]; destruct s as [|d s]; simpl;
    try reflexivity;
    rewrite ?Ascii.eqb_refl; simpl.
  - change (startsWith (p ++ "") p || includes (p ++ "") (String c p) = true).
    now rewrite startsWith_app.
  - now rewrite (startsWith_app p (String d s)).
Qed.

Lemma includes_app_r (a s p : string) :
  includes s p = true -> includes (a ++ s) p = true.
Proof.
  intros H. induction a as [|c a IH]; simpl; [exact H|].
  rewrite IH. apply orb_true_r.
Qed.

Lemma includes_mid (a p b : string) : includes (a ++ p ++ b) p = true.
Proof. apply includes_app_r, includes_prefix. Qed.

Lemma startsWith_app_l (a b p : string) :
  startsWith a p = true -> startsWith (a ++ b) p = true.
Proof.
  revert a. induction p as [|c p IH]; intros a H; simpl in *; [reflexivity|].
  destruct a as [|d a]; [discriminate|]. simpl.
  apply andb_true_iff in H as [H1 H2]. now rewrite H1, IH.
Qed.

Lemma includes_app_l (a b p : string) :
  includes a p = true -> includes (a ++ b) p = true.
Proof.
  induction a as [|c a IH]; intros H.
  - simpl in H. rewrite orb_false_r in H.
    destruct p; [|discriminate]. destruct b; reflexivity.
  - simpl in H. apply orb_true_iff in H as [H|H].
    + change (startsWith (String c a ++ b) p || includes (a ++ b) p = true).
      now rewrite startsWith_app_l.
    + change (startsWith (String c a ++ b) p || includes (a ++ b) p = true).
      rewrite IH by exact H. apply orb_true_r.
Qed.

Lemma endsWith_app (a p : string) : endsWith (a ++ p) p = true.
Proof.
  induction a as [|c a IH].
  - change ("" ++ p) with p.
    destruct p as [|d p]; [reflexivity|].
    change (String.eqb (String d p) (String d p) || endsWith p (String d p) = true).
    now rewrite String.eqb_refl.
  - change (String.eqb (String c a ++ p) p || endsWith (a ++ p) p = true).
    rewrite IH. apply orb_true_r.
Qed.

Lemma endsWith_last (s : string) (x : ascii) :
  endsWith s (str x) = true <-> last_char s = Some x.
Proof.
  induction s as [|c s IH].
  - simpl. split; discriminate.
  - destruct s as [|d s].
    + cbn. destruct (Ascii.eqb_spec c x) as [->|N]; split; intros H;
        try reflexivity; try discriminate.
      injection H as ->. contradiction.
    + change (String.eqb (String c (String d s)) (str x)
              || endsWith (String d s) (str x) = true
              <-> last_char (String d s) = Some x).
      assert (E : String.eqb (String c (String d s)) (str x) = false).
      { cbn. destruct (Ascii.eqb c x); reflexivity. }
      rewrite E. exact IH.
Qed.

Lemma trimEnd_snoc (s : string) (x : ascii) :
  is_ws x = false -> trimEnd (s ++ str x) = s ++ str x.
Proof.
  intros H. induction s as [|c s IH]; simpl.
  - now rewrite H.
  - rewrite IH. destruct (s ++ str x) eqn:E; [|reflexivity].
    destruct s; discriminate.
Qed.

Lemma trim_fixed (c x : ascii) (s : string) :
  is_ws c = false -> is_ws x = false ->
  trim (String c (s ++ str x)) = String c (s ++ str x).
Proof.
  intros Hc Hx. unfold trim. simpl trimStart. rewrite Hc.
  apply (trimEnd_snoc (String c s) x Hx).
Qed.

Lemma free_of_app (x : ascii) (a b : string) :
  free_of x (a ++ b) = free_of x a && free_of x b.
Proof.
  induction a as [|c a IH]; simpl; [reflexivity|].
  now rewrite IH, andb_assoc.
Qed.

Lemma span_not_app (x : ascii) (a b : string) :
  free_of x a = true -> span_not x (a ++ String x b) = (a, String x b).
Proof.
  induction a as [|c a IH]; simpl; intros H.
  - now rewrite Ascii.eqb_refl.
  - apply andb_true_iff in H as [H1 H2].
    apply negb_true_iff in H1. now rewrite H1, IH.
Qed.

Lemma match_delimited_skip (o c : ascii) (pre s : string) :
  free_of o pre = true ->
  match_delimited o c (pre ++ s) = match_delimited o c s.
Proof.
  induction pre as [|a pre IH]; simpl; intros H; [reflexivity|].
  apply andb_true_iff in H as [H1 H2].
  apply negb_true_iff in H1. now rewrite H1, IH.
Qed.

Lemma match_delimited_here (o c : ascii) (m rest : string) :
  free_of c m = true -> m <> EmptyString ->
  match_delimited o c (String o (m ++ String c rest)) = Some m.
Proof.
  intros H N. simpl. rewrite Ascii.eqb_refl, span_not_app by exact H.
  destruct m; [contradiction | reflexivity].
Qed.

Lemma split_free (x : ascii) (a : string) :
  free_of x a = true -> split x a = [a].
Proof.
  induction a as [|c a IH]; simpl; intros H; [reflexivity|].
  apply andb_true_iff in H as [H1 H2].
  apply negb_true_iff in H1. now rewrite H1, IH.
Qed.

Lemma split_app (x : ascii) (a b : string) :
  free_of x a = true -> split x (a ++ String x b) = a :: split x b.
Proof.
  induction a as [|c a IH]; simpl; intros H.
  - now rewrite Ascii.eqb_refl.
  - apply andb_true_iff in H as [H1 H2].
    apply negb_true_iff in H1. now rewrite H1, IH.
Qed.

Lemma includes_cons (a : ascii) (s p : string) :
  includes s p = true -> includes (String a s) p = true.
Proof. intros H. simpl. rewrite H. apply orb_true_r. Qed.

Lemma endsWith_app_r (a s p : string) :
  endsWith s p = true -> endsWith (a ++ s) p = true.
Proof.
  intros H. induction a as [|c a IH]; [exact H|].
  change (String.eqb (String c a ++ s) p || endsWith (a ++ s) p = true).
  rewrite IH. apply orb_true_r.
Qed.

Lemma trimEnd_app_r (a s : string) :
  s <> EmptyString -> trimEnd s = s -> trimEnd (a ++ s) = a ++ s.
Proof.
  intros N H. induction a as [|c a IH]; [exact H|].
  simpl. rewrite IH. destruct (a ++ s) eqn:E; [|reflexivity].
  destruct a; [simpl in E; contradiction | discriminate].
Qed.

Lemma trimEnd_stable_app (a s : string) :
  s <> EmptyString /\ trimEnd s = s ->
  a ++ s <> EmptyString /\ trimEnd (a ++ s) = a ++ s.
Proof.
  intros [N H]. split; [|now apply trimEnd_app_r].
  destruct a; [exact N | discriminate].
Qed.

Lemma nonempty_true (s : string) : Utils.nonempty s = true <-> s <> EmptyString.
Proof.
  unfold Utils.nonempty. rewrite negb_true_iff. apply String.eqb_neq.
Qed.

Lemma split_join (x : ascii) (l : string) (ls : list string) :
  Forall (fun s => free_of x s = true) (l :: ls) ->
  split x (join (str x) (l :: ls)) = l :: ls.
Proof.
  revert l. induction ls as [|m ls IH]; intros l H.
  - apply split_free. now inversion H.
  - inversion H as [|? ? H1 H2]; subst.
    change (join (str x) (l :: m :: ls)) with (l ++ String x (join (str x) (m :: ls))).
    rewrite split_app by exact H1. now rewrite IH.
Qed.

Lemma string_eqb_neq (a b : string) : a <> b -> String.eqb a b = false.
Proof. intros N. now apply String.eqb_neq. Qed.

End JSFacts.

(* ================================================================== *)
(** ** lib/utils.ts: [normalizeUrl] *)
(* ================================================================== *)

Module UtilsFacts.
Import JS Types Utils JSFacts Spec.

Section WithPlatform.
Context {P : Platform}.

Lemma ensure_trailing_delimiter_eq (base : string) :
  (if endsWith base "/" then base else base ++ "/") = ensure_trailing_delimiter base.
Proof.
  unfold ensure_trailing_delimiter.
  destruct (endsWith base "/") eqn:E.
  - apply (endsWith_last base "/"%char) in E. now rewrite E.
  - destruct (last_char base) as [c|] eqn:L; [|reflexivity].
    destruct (Ascii.eqb_spec c "/"%char) as [->|N].
    + apply (endsWith_last base "/"%char) in L.
      unfold str in L. congruence.
    + destruct c as [[] [] [] [] [] [] [] []]; try reflexivity.
      now contradiction N.
Qed.

Lemma strip_leading_delimiter_eq (u : string) :
  (if startsWith u "/" then substring1 u else u) = strip_leading_delimiter u.
Proof.
  destruct u as [|c u]; [reflexivity|].
  simpl. rewrite andb_true_r.
  destruct (Ascii.eqb_spec c "/"%char) as [->|N]; [reflexivity|].
  destruct c as [[] [] [] [] [] [] [] []]; try reflexivity.
  now contradiction N.
Qed.

Lemma ensure_trailing_delimiter_ends (base : string) :
  endsWith (ensure_trailing_delimiter base) "/" = true.
Proof.
  unfold ensure_trailing_delimiter.
  destruct (last_char base) as [c|] eqn:L; [|apply endsWith_app].
  destruct (Ascii.eqb_spec c "/"%char) as [->|N].
  - now apply (endsWith_last base "/"%char).
  - destruct c as [[] [] [] [] [] [] [] []]; try apply endsWith_app.
    now contradiction N.
Qed.

Lemma endsWith_strip_leading_delimiters (u : string) :
  endsWith u (strip_leading_delimiters u) = true.
Proof.
  induction u as [|c u IH]; [reflexivity|].
  destruct (Ascii.eqb_spec c "/"%char) as [->|N].
  - change (strip_leading_delimiters (String "/" u))
      with (strip_leading_delimiters u).
    apply (endsWith_app_r (str "/"%char) u), IH.
  - assert (E : strip_leading_delimiters (String c u) = String c u).
    { destruct c as [[] [] [] [] [] [] [] []]; try reflexivity.
      now contradiction N. }
    rewrite E. apply (endsWith_app EmptyString).
Qed.

(** C8. An input that parses as an absolute URI is returned unchanged,
    whatever the base; a relative input gives the base with a trailing
    path delimiter ensured, followed by the input stripped of a leading
    delimiter, so the result starts with the former and ends with the
    latter (and with the input stripped of all its leading delimiters). *)
Theorem normalizeUrl_absolute_or_joined (u base : string) :
  (URL_parse u <> None -> normalizeUrl u base = u) /\
  (URL_parse u = None ->
     normalizeUrl u base
       = ensure_trailing_delimiter base ++ strip_leading_delimiter u /\
     endsWith (ensure_trailing_delimiter base) "/" = true /\
     startsWith (normalizeUrl u base) (ensure_trailing_delimiter base) = true /\
     endsWith (normalizeUrl u base) (strip_leading_delimiter u) = true /\
     endsWith (normalizeUrl u base) (strip_leading_delimiters u) = true).
Proof.
  unfold normalizeUrl. split.
  - intros H. destruct (URL_parse u); [reflexivity | contradiction].
  - intros ->.
    rewrite ensure_trailing_delimiter_eq, strip_leading_delimiter_eq.
    repeat split.
    + apply ensure_trailing_delimiter_ends.
    + apply startsWith_app.
    + apply endsWith_app.
    + apply endsWith_app_r.
      destruct u as [|c u]; [reflexivity|].
      destruct (Ascii.eqb_spec c "/"%char) as [->|N].
      * change (endsWith u (strip_leading_delimiters u) = true).
        apply endsWith_strip_leading_delimiters.
      * assert (E : strip_leading_delimiter (String c u) = String c u).
        { destruct c as [[] [] [] [] [] [] [] []]; try reflexivity.
          now contradiction N. }
        rewrite E. apply endsWith_strip_leading_delimiters.
Qed.

End WithPlatform.

End UtilsFacts.

(* ================================================================== *)
(** ** lib/client.ts: reading and writing *)
(* ================================================================== *)

Module ClientFacts.
Import JS Types Utils Client JSFacts Spec.

Section WithTransport.
Context {P : Platform} {W : Type}.
Variable fetchFn : FetchRequest -> W -> FetchResult * W.
Variable config : SolidPodConfig.

Lemma get_set_header (k v : string) (hs : list (string * string)) :
  get_header k (set_header k v hs) = Some v.
Proof.
  induction hs as [|[k' v'] hs IH]; simpl.
  - now rewrite String.eqb_refl.
  - destruct (String.eqb k k') eqn:E; simpl.
    + now rewrite String.eqb_refl.
    + now rewrite E.
Qed.

Lemma call_fetch_resolved (req : FetchRequest) (w : World W) (r : Response) (n' : W) :
  fetchFn req (net w) = (Resolved r, n') ->
  call_fetch fetchFn req w
    = (Val r, mkWorld n' (calls w ++ [(req, Resolved r)])%list).
Proof. intros H. unfold call_fetch. now rewrite H. Qed.

Lemma call_fetch_rejected (req : FetchRequest) (w : World W) (e : Thrown) (n' : W) :
  fetchFn req (net w) = (Rejected e, n') ->
  call_fetch fetchFn req w
    = (Exn e, mkWorld n' (calls w ++ [(req, Rejected e)])%list).
Proof. intros H. unfold call_fetch. now rewrite H. Qed.

(** *** Failures of the transport are surfaced *)

Lemma surfaces_ret {A} (a : A) : surfaces (W:=W) (ret a).
Proof. intros w. exists []. simpl. now rewrite app_nil_r. Qed.

Lemma surfaces_throw {A} (e : Thrown) : surfaces (W:=W) (A:=A) (throw e).
Proof.
  intros w. exists []. simpl. rewrite app_nil_r.
  split; [reflexivity | discriminate].
Qed.

Lemma surfaces_lift {A} (t : Try A) : surfaces (W:=W) (lift t).
Proof. intros w. exists []. simpl. now rewrite app_nil_r. Qed.

Lemma surfaces_bind {A B} (m : M W A) (k : A -> M W B) :
  surfaces m -> (forall a, surfaces (k a)) -> surfaces (bind m k).
Proof.
  intros Hm Hk w. unfold bind.
  destruct (Hm w) as (n1 & E1 & F1).
  destruct (m w) as [[a|e] w1]; simpl in *.
  - destruct (Hk a w1) as (n2 & E2 & F2).
    exists (n1 ++ n2)%list. rewrite E2, E1, app_assoc.
    split; [reflexivity|].
    intros b Hb. apply Forall_app. split; [now apply (F1 a) | now apply (F2 b)].
  - exists n1. split; [exact E1 | discriminate].
Qed.

(** A handler that rethrows lets nothing through. *)
Lemma surfaces_rethrow {A} (m : M W A) (f : Thrown -> Thrown) :
  surfaces m -> surfaces (try_catch m (fun e => throw (f e))).
Proof.
  intros Hm w. unfold try_catch, throw.
  destruct (Hm w) as (n1 & E1 & F1).
  destruct (m w) as [[a|e] w1]; simpl in *.
  - exists n1. split; [exact E1|]. intros b [= <-]. now apply (F1 a).
  - exists n1. split; [exact E1 | discriminate].
Qed.

(** A call followed by the test of [response.ok]. *)
Lemma surfaces_fetch_checked {A} (req : FetchRequest) (e : Response -> Thrown)
    (k : Response -> M W A) :
  (forall r, surfaces (k r)) ->
  surfaces (bind (call_fetch fetchFn req)
              (fun response => if negb (ok response) then throw (e response)
                               else k response)).
Proof.
  intros Hk w. unfold bind, call_fetch.
  destruct (fetchFn req (net w)) as [[r|x] n1].
  - destruct (ok r) eqn:Hok; simpl negb; cbv iota.
    + destruct (Hk r (mkWorld n1 (calls w ++ [(req, Resolved r)])%list))
        as (n2 & E2 & F2).
      exists ((req, Resolved r) :: n2). simpl in E2 |- *.
      rewrite E2, <- app_assoc. split; [reflexivity|].
      intros a Ha. constructor; [exact Hok | now apply (F2 a)].
    + exists [(req, Resolved r)]. simpl. split; [reflexivity | discriminate].
  - exists [(req, Rejected x)]. simpl. split; [reflexivity | discriminate].
Qed.

Lemma surfaces_getPermissions (u : string) : surfaces (W:=W) (getPermissions u).
Proof. intros w. exists []. simpl. now rewrite app_nil_r. Qed.

Lemma surfaces_listContainerContents (u : string) :
  surfaces (listContainerContents fetchFn config u).
Proof.
  unfold listContainerContents.
  apply surfaces_rethrow
    with (f := fun error =>
                 ErrorObj ("Error listing container contents: " ++ error_message error)).
  apply surfaces_fetch_checked
    with (e := fun response =>
                 ErrorObj ("Failed to list container contents: " ++ status_line response)).
  intros r. apply surfaces_bind; [apply surfaces_lift | intros; apply surfaces_ret].
Qed.

Lemma surfaces_readResource (uri : string) (includeContent : bool) :
  surfaces (readResource fetchFn config uri includeContent).
Proof.
  unfold readResource.
  apply surfaces_rethrow
    with (f := fun error =>
                 ErrorObj ("Error reading resource "
                           ++ normalizeUrl uri (podUrl config) ++ ": "
                           ++ error_message error)).
  apply surfaces_fetch_checked
    with (e := fun response =>
                 ErrorObj ("Failed to read resource: " ++ status_line response)).
  intros r. apply surfaces_bind.
  - destruct (includes _ "text/turtle"); [|apply surfaces_ret].
    apply surfaces_bind; [|intros; apply surfaces_ret].
    unfold isContainer.
    apply surfaces_bind; [apply surfaces_lift | intros; apply surfaces_ret].
  - intros [isC reads]. apply surfaces_bind; [apply surfaces_getPermissions|].
    intros perms. apply surfaces_bind.
    + destruct includeContent; [|apply surfaces_ret].
      apply surfaces_bind; [apply surfaces_lift | intros; apply surfaces_ret].
    + intros content. apply surfaces_bind; [|intros; apply surfaces_ret].
      destruct isC; [|apply surfaces_ret].
      apply surfaces_bind;
        [apply surfaces_listContainerContents | intros; apply surfaces_ret].
Qed.

Lemma surfaces_writeResource (uri : string) (content : JSValue) (contentType : string) :
  surfaces (writeResource fetchFn config uri content contentType).
Proof.
  unfold writeResource.
  apply surfaces_bind; [|intros; apply surfaces_readResource].
  apply surfaces_rethrow
    with (f := fun error =>
                 ErrorObj ("Error writing resource "
                           ++ normalizeUrl uri (podUrl config) ++ ": "
                           ++ error_message error)).
  destruct (write_payload config content contentType) as [b h].
  apply surfaces_fetch_checked
    with (e := fun response =>
                 ErrorObj ("Failed to write resource: " ++ status_line response)).
  intros; apply surfaces_ret.
Qed.

Lemma surfaces_deleteResource (uri : string) :
  surfaces (deleteResource fetchFn config uri).
Proof.
  unfold deleteResource.
  apply surfaces_rethrow
    with (f := fun error =>
                 ErrorObj ("Error deleting resource "
                           ++ normalizeUrl uri (podUrl config) ++ ": "
                           ++ error_message error)).
  apply surfaces_fetch_checked
    with (e := fun response =>
                 ErrorObj ("Failed to delete resource: " ++ status_line response)).
  intros; apply surfaces_ret.
Qed.

Lemma surfaces_createContainer (uri : string) :
  surfaces (createContainer fetchFn config uri).
Proof.
  unfold createContainer.
  apply surfaces_bind; [|intros; apply surfaces_readResource].
  apply surfaces_rethrow
    with (f := fun error =>
                 ErrorObj ("Error creating container "
                           ++ normalizeUrl uri (podUrl config) ++ ": "
                           ++ error_message error)).
  apply surfaces_fetch_checked
    with (e := fun response =>
                 ErrorObj ("Failed to create container: " ++ status_line response)).
  intros; apply surfaces_ret.
Qed.

(** *** What a value returned by the client stands for *)

(** A read returns a value only when the GET settled with a 2xx response,
    every body read made on it succeeded and, for a container, the second
    GET and its body read succeeded too. *)
Lemma readResource_value_inv
    (uri : string) (includeContent : bool) (w w' : World W)
    (v : SolidResourceResponse) :
  let target := normalizeUrl uri (podUrl config) in
  let req := mkRequest target "GET" (getAuthHeaders config) None in
  readResource fetchFn config uri includeContent w = (Val v, w') ->
  exists r n1,
    fetchFn req (net w) = (Resolved r, n1) /\ ok r = true /\
    let declared := or_empty (headers_get r "Content-Type") in
    let reads := if includes declared "text/turtle" then 1 else 0 in
    (if includes declared "text/turtle"
     then exists payload,
            text r 0 = Val payload /\
            type (resource v)
            = (if includes payload LDP_CONTAINER then Container else Resource)
     else type (resource v) = Resource) /\
    (if includeContent
     then exists c, decode_content r declared reads = Val c /\ content v = Some c
     else content v = None) /\
    match type (resource v) with
    | Container =>
        exists r2 n2 payload2,
          fetchFn req n1 = (Resolved r2, n2) /\ ok r2 = true /\
          text r2 0 = Val payload2 /\
          children v = Some (parseResourceMetadata payload2 target)
    | Resource => children v = None
    end.
Proof.
  intros target req.
  unfold readResource, try_catch, bind. fold target. fold req.
  unfold call_fetch at 1.
  destruct (fetchFn req (net w)) as [[r|x] n1] eqn:F; cbv beta match zeta;
    [|unfold throw; discriminate].
  destruct (ok r) eqn:Hok; cbv beta match delta [negb];
    [|unfold throw; discriminate].
  set (declared := or_empty (headers_get r "Content-Type")).
  assert (Hlist :
    forall (w0 : World W) (cs : list SolidResource) (w1 : World W),
      net w0 = n1 ->
      listContainerContents fetchFn config target w0 = (Val cs, w1) ->
      exists r2 n2 payload2,
        fetchFn req n1 = (Resolved r2, n2) /\ ok r2 = true /\
        text r2 0 = Val payload2 /\
        cs = parseResourceMetadata payload2 target).
  { intros w0 cs w1 Hn. unfold listContainerContents, try_catch, bind, call_fetch.
    fold req. rewrite Hn.
    destruct (fetchFn req n1) as [[r2|x2] n2] eqn:F2; cbv beta match zeta;
      [|unfold throw; discriminate].
    destruct (ok r2) eqn:Hok2; cbv beta match delta [negb];
      [|unfold throw; discriminate].
    unfold lift, ret, throw.
    destruct (text r2 0) as [payload2|x2] eqn:T2; [|discriminate].
    intros [= <- _]. exists r2, n2, payload2. auto. }
  unfold getPermissions, try_catch, isContainer, bind, lift, ret, throw.
  destruct (includes declared "text/turtle") eqn:Turtle.
  - destruct (text r 0) as [payload|x] eqn:T; [|discriminate].
    cbv beta match.
    destruct includeContent.
    + destruct (decode_content r declared 1) as [c|x] eqn:D; [|discriminate].
      cbv beta match.
      destruct (includes payload LDP_CONTAINER) eqn:Marked.
      * destruct (listContainerContents fetchFn config target _) as [[cs|x] w1] eqn:L;
          [|discriminate].
        intros [= <- _]. exists r, n1. cbv zeta. fold declared. rewrite Turtle.
        repeat split; trivial.
        -- exists payload. simpl. now rewrite Marked.
        -- simpl. eauto.
        -- simpl. destruct (Hlist (mkWorld n1 _) cs w1 eq_refl L) as (r2 & n2 & p2 & ? & ? & ? & ->).
           exists r2, n2, p2. auto.
      * intros [= <- _]. exists r, n1. cbv zeta. fold declared. rewrite Turtle.
        repeat split; trivial.
        -- exists payload. simpl. now rewrite Marked.
        -- simpl. eauto.
    + cbv beta match.
      destruct (includes payload LDP_CONTAINER) eqn:Marked.
      * destruct (listContainerContents fetchFn config target _) as [[cs|x] w1] eqn:L;
          [|discriminate].
        intros [= <- _]. exists r, n1. cbv zeta. fold declared. rewrite Turtle.
        repeat split; trivial.
        -- exists payload. simpl. now rewrite Marked.
        -- simpl. destruct (Hlist (mkWorld n1 _) cs w1 eq_refl L) as (r2 & n2 & p2 & ? & ? & ? & ->).
           exists r2, n2, p2. auto.
      * intros [= <- _]. exists r, n1. cbv zeta. fold declared. rewrite Turtle.
        repeat split; trivial.
        exists payload. simpl. now rewrite Marked.
  - cbv beta match.
    destruct includeContent.
    + destruct (decode_content r declared 0) as [c|x] eqn:D; [|discriminate].
      cbv beta match.
      intros [= <- _]. exists r, n1. cbv zeta. fold declared. rewrite Turtle.
        repeat split; trivial.
      * simpl. eauto.
    + cbv beta match.
      intros [= <- _]. exists r, n1. cbv zeta. fold declared. rewrite Turtle.
        repeat split; trivial.
Qed.

(** A write returns what its read-back returns, after a PUT that settled
    with a 2xx response. *)
Lemma writeResource_value_inv
    (uri : string) (content : JSValue) (contentType : string) (w w' : World W)
    (v : SolidResourceResponse) :
  let target := normalizeUrl uri (podUrl config) in
  let req := mkRequest target "PUT"
               (snd (write_payload config content contentType))
               (fst (write_payload config content contentType)) in
  writeResource fetchFn config uri content contentType w = (Val v, w') ->
  exists r n1,
    fetchFn req (net w) = (Resolved r, n1) /\ ok r = true /\
    readResource fetchFn config target true
      (mkWorld n1 (calls w ++ [(req, Resolved r)])%list) = (Val v, w').
Proof.
  intros target req.
  unfold writeResource, try_catch, bind. fold target.
  destruct (write_payload config content contentType) as [b h] eqn:Hp.
  unfold req. simpl fst. simpl snd. clear req.
  unfold call_fetch.
  destruct (fetchFn _ (net w)) as [[r|x] n1] eqn:F; cbv beta match zeta;
    [|unfold throw; discriminate].
  destruct (ok r) eqn:Hok; cbv beta match delta [negb ret];
    [|unfold throw; discriminate].
  intros H. exists r, n1. auto.
Qed.

Lemma deleteResource_value_inv (uri : string) (w w' : World W) (b : bool) :
  let req := mkRequest (normalizeUrl uri (podUrl config)) "DELETE"
               (getAuthHeaders config) None in
  deleteResource fetchFn config uri w = (Val b, w') ->
  b = true /\
  exists r n1, fetchFn req (net w) = (Resolved r, n1) /\ ok r = true.
Proof.
  intros req. unfold deleteResource, try_catch, bind, call_fetch. fold req.
  destruct (fetchFn req (net w)) as [[r|x] n1] eqn:F; cbv beta match zeta;
    [|unfold throw; discriminate].
  destruct (ok r) eqn:Hok; cbv beta match delta [negb ret];
    [|unfold throw; discriminate].
  intros [= <- _]. eauto.
Qed.

Lemma createContainer_value_inv (uri : string) (w w' : World W)
    (v : SolidResourceResponse) :
  let target := normalizeUrl uri (podUrl config) in
  let req := mkRequest target "PUT"
               (set_header "Content-Type" "text/turtle"
                  (set_header "Link" LINK_BASIC_CONTAINER (getAuthHeaders config)))
               None in
  createContainer fetchFn config uri w = (Val v, w') ->
  exists r n1,
    fetchFn req (net w) = (Resolved r, n1) /\ ok r = true /\
    readResource fetchFn config target true
      (mkWorld n1 (calls w ++ [(req, Resolved r)])%list) = (Val v, w').
Proof.
  intros target req.
  unfold createContainer, try_catch, bind, call_fetch. fold target. fold req.
  destruct (fetchFn req (net w)) as [[r|x] n1] eqn:F; cbv beta match zeta;
    [|unfold throw; discriminate].
  destruct (ok r) eqn:Hok; cbv beta match delta [negb ret];
    [|unfold throw; discriminate].
  intros H. exists r, n1. auto.
Qed.

Lemma getAuthHeaders_accept : get_header "Accept" (getAuthHeaders config) = Some ACCEPT.
Proof.
  unfold getAuthHeaders.
  destruct (auth config) as [[[] [t|]]|]; simpl; try reflexivity;
    destruct (nonempty t); reflexivity.
Qed.

(** C10. When the Content-Type of the response does not contain
    [text/turtle], the read makes exactly one call, the GET, and what it
    returns is typed [resource] and has no children, whatever the body
    holds; it does return when the response is a success and the body, if
    asked for, decodes.  The GET asks for JSON-LD first, so a container
    that the pod describes in JSON-LD is read as a plain resource. *)
Theorem readResource_not_turtle
    (uri : string) (includeContent : bool) (w : World W) (r : Response) (n' : W) :
  let req := mkRequest (normalizeUrl uri (podUrl config)) "GET"
               (getAuthHeaders config) None in
  let contentType := or_empty (headers_get r "Content-Type") in
  fetchFn req (net w) = (Resolved r, n') ->
  includes contentType "text/turtle" = false ->
  get_header "Accept" (headers req) = Some ACCEPT /\
  startsWith ACCEPT "application/ld+json" = true /\
  snd (readResource fetchFn config uri includeContent w)
    = mkWorld n' (calls w ++ [(req, Resolved r)])%list /\
  (forall v,
     fst (readResource fetchFn config uri includeContent w) = Val v ->
     type (resource v) = Resource /\ children v = None) /\
  (ok r = true ->
   (includeContent = true -> exists c, decode_content r contentType 0 = Val c) ->
   exists v, fst (readResource fetchFn config uri includeContent w) = Val v).
Proof.
  intros req contentType Hfetch Hct.
  split; [apply getAuthHeaders_accept|]. split; [reflexivity|].
  unfold readResource, try_catch, bind.
  fold req. rewrite (call_fetch_resolved req w r n' Hfetch).
  destruct (ok r) eqn:Hok; simpl negb; cbv iota.
  2:{ unfold throw. simpl. split; [reflexivity|]. split; intros; discriminate. }
  fold contentType. rewrite Hct.
  unfold ret, getPermissions, try_catch, ret, lift. cbv beta iota.
  destruct includeContent.
  - destruct (decode_content r contentType 0) as [c|e] eqn:Hdec; simpl.
    + split; [reflexivity|]. split.
      * intros v [= <-]. split; reflexivity.
      * intros _ _. eexists. reflexivity.
    + unfold throw. simpl. split; [reflexivity|]. split.
      * intros; discriminate.
      * intros _ H. destruct (H eq_refl) as [c Hc]. discriminate.
  - simpl. split; [reflexivity|]. split.
    + intros v [= <-]. split; reflexivity.
    + intros _ _. eexists. reflexivity.
Qed.

(** C6. The first call of a write is the PUT.  For content that is neither
    a string nor a blob its body is the JSON serialization of the content
    and its Content-Type is [application/json], whatever type the caller
    declared; for a string (and for a blob) the body is the content as it
    is, under the declared type. *)
Theorem writeResource_put_payload
    (uri : string) (content : JSValue) (contentType : string) (w : World W) :
  exists req res rest,
    calls (snd (writeResource fetchFn config uri content contentType w))
      = (calls w ++ (req, res) :: rest)%list /\
    method req = "PUT" /\
    url req = normalizeUrl uri (podUrl config) /\
    match content with
    | JString s =>
        body req = Some (BodyText s) /\
        get_header "Content-Type" (headers req) = Some contentType
    | JBlob b =>
        body req = Some (BodyBlob b) /\
        get_header "Content-Type" (headers req) = Some contentType
    | _ =>
        body req = option_map BodyText (JSON_stringify content) /\
        get_header "Content-Type" (headers req) = Some "application/json"
    end.
Proof.
  unfold writeResource, bind, try_catch.
  destruct (write_payload config content contentType) as [b h] eqn:Hp.
  set (req := mkRequest (normalizeUrl uri (podUrl config)) "PUT" h b).
  assert (Hpay :
    match content with
    | JString s =>
        body req = Some (BodyText s) /\
        get_header "Content-Type" (headers req) = Some contentType
    | JBlob bs =>
        body req = Some (BodyBlob bs) /\
        get_header "Content-Type" (headers req) = Some contentType
    | _ =>
        body req = option_map BodyText (JSON_stringify content) /\
        get_header "Content-Type" (headers req) = Some "application/json"
    end).
  { unfold write_payload in Hp.
    destruct content; injection Hp as <- <-; simpl;
      split; try reflexivity; apply get_set_header. }
  unfold call_fetch.
  destruct (fetchFn req (net w)) as [res n1] eqn:Hf.
  exists req, res.
  destruct res as [r|e].
  - destruct (ok r); cbv beta iota zeta delta [negb ret throw].
    + destruct (surfaces_readResource (normalizeUrl uri (podUrl config)) true
                  (mkWorld n1 (calls w ++ [(req, Resolved r)])%list))
        as (new & E & _).
      exists new. rewrite E. simpl. rewrite <- app_assoc.
      repeat split; trivial.
    + exists []. simpl. repeat split; trivial.
  - exists []. simpl. repeat split; trivial.
Qed.

End WithTransport.

End ClientFacts.

(* ================================================================== *)
(** ** lib/server.ts: the search *)
(* ================================================================== *)

Module SearchFacts.
Import JS Types Utils Client Server JSFacts Spec.

Section WithTransport.
Context {P : Platform} {W : Type}.
Variable fetchFn : FetchRequest -> W -> FetchResult * W.
Variable config : SolidPodConfig.

Lemma searchResources_step (fuel : nat) (u : string) (searchTerm : JSValue)
    (recursive : bool) (w : World W) :
  searchResources fetchFn config (S fuel) (JString u) searchTerm recursive w =
  match readResource fetchFn config u false w with
  | (Val result, w1) =>
      match children result with
      | None | Some [] => Some (Val [], w1)
      | Some cs =>
          match arg_lower searchTerm with
          | Val lowerSearchTerm =>
              match search_children
                      (fun u' => searchResources fetchFn config fuel (JString u')
                                   searchTerm recursive)
                      lowerSearchTerm recursive cs [] w1 with
              | Some (Val hits, w2) => Some (Val hits, w2)
              | Some (Exn _, w2) => Some (Val [], w2)
              | None => None
              end
          | Exn _ => Some (Val [], w1)
          end
      end
  | (Exn _, w1) => Some (Val [], w1)
  end.
Proof.
  simpl. unfold try_catchF, bindF, liftT, liftM, retF.
  change (arg_uri (JString u)) with (Val (A:=string) u). cbv match.
  destruct (readResource fetchFn config u false w) as [[result|e] w1];
    [|reflexivity].
  destruct (children result) as [[|c cs]|]; try reflexivity.
  destruct (arg_lower searchTerm) as [l|e]; reflexivity.
Qed.

Lemma search_children_nil (recurse : string -> MF (W:=W) (list SearchHit))
    (lower : string) (recursive : bool) (acc : list SearchHit) (w : World W) :
  search_children recurse lower recursive [] acc w = Some (Val acc, w).
Proof. reflexivity. Qed.

Lemma search_children_cons (recurse : string -> MF (W:=W) (list SearchHit))
    (lower : string) (recursive : bool) (child : SolidResource)
    (rest : list SolidResource) (acc : list SearchHit) (w : World W) :
  search_children recurse lower recursive (child :: rest) acc w =
  match getFilenameFromUrl (uri child) with
  | Exn e => Some (Exn e, w)
  | Val filename =>
      let found :=
        if includes (toLowerCase filename) lower
        then (acc ++ [mkHit child RELEVANCE])%list else acc in
      if recursive && is_container child then
        match recurse (uri child) w with
        | Some (Val childResults, w1) =>
            search_children recurse lower recursive rest
              (found ++ childResults)%list w1
        | Some (Exn e, w1) => Some (Exn e, w1)
        | None => None
        end
      else search_children recurse lower recursive rest found w
  end.
Proof.
  simpl. unfold bindF, liftT, retF.
  destruct (getFilenameFromUrl (uri child)) as [filename|e]; [|reflexivity].
  cbv beta zeta. destruct (recursive && is_container child); [|reflexivity].
  destruct (recurse (uri child) w) as [[[hits|e] w1]|]; reflexivity.
Qed.

(** The search answers with a value whenever it answers. *)
Lemma searchResources_never_throws (fuel : nat) (containerUri searchTerm : JSValue)
    (recursive : bool) (w w' : World W) (e : Thrown) :
  searchResources fetchFn config fuel containerUri searchTerm recursive w
    <> Some (Exn e, w').
Proof.
  destruct fuel as [|fuel]; [discriminate|].
  simpl. unfold try_catchF, retF.
  match goal with
  | |- match ?m with _ => _ end <> _ => destruct m as [[[hits|x] w1]|]
  end; discriminate.
Qed.

(** The search over a container whose read returns given children. *)
Lemma searchResources_on_children
    (u : string) (w w1 : World W) (r : SolidResourceResponse) :
  readResource fetchFn config u false w = (Val r, w1) ->
  (children r = None \/ children r = Some [] ->
   forall fuel searchTerm recursive,
     searchResources fetchFn config (S fuel) (JString u) searchTerm recursive w
       = Some (Val [], w1)) /\
  (forall c1 c2,
     children r = Some [c1; c2] ->
     getFilenameFromUrl (uri c1) = Val "a.txt" ->
     getFilenameFromUrl (uri c2) = Val "b.txt" ->
     (forall fuel recursive,
        recursive = false \/ (type c1 = Resource /\ type c2 = Resource) ->
        searchResources fetchFn config (S fuel) (JString u) (JString "a") recursive w
          = Some (Val [mkHit c1 0.8%Q], w1)) /\
     (forall fuel r2 w2 d filename,
        type c1 = Container -> type c2 = Resource ->
        readResource fetchFn config (uri c1) false w1 = (Val r2, w2) ->
        children r2 = Some [d] ->
        type d = Resource ->
        getFilenameFromUrl (uri d) = Val filename ->
        includes (toLowerCase filename) "a" = true ->
        searchResources fetchFn config (S (S fuel)) (JString u) (JString "a") true w
          = Some (Val [mkHit c1 0.8%Q; mkHit d 0.8%Q], w2))).
Proof.
  intros Hread. split.
  - intros Hc fuel searchTerm recursive.
    rewrite searchResources_step, Hread.
    destruct Hc as [-> | ->]; reflexivity.
  - intros c1 c2 Hc F1 F2. split.
    + intros fuel recursive Hplain.
      assert (R1 : recursive && is_container c1 = false).
      { unfold is_container.
        destruct Hplain as [-> | [-> _]]; [reflexivity | apply andb_false_r]. }
      assert (R2 : recursive && is_container c2 = false).
      { unfold is_container.
        destruct Hplain as [-> | [_ ->]]; [reflexivity | apply andb_false_r]. }
      rewrite searchResources_step, Hread, Hc.
      change (arg_lower (JString "a")) with (Val (A:=string) "a").
      cbv match. rewrite search_children_cons, F1. cbv beta zeta.
      rewrite R1. rewrite search_children_cons, F2. cbv beta zeta.
      rewrite R2. reflexivity.
    + intros fuel r2 w2 d filename T1 T2 Hread2 Hc2 Td Fd Hm.
      rewrite searchResources_step, Hread, Hc.
      change (arg_lower (JString "a")) with (Val (A:=string) "a").
      cbv match. rewrite search_children_cons, F1. cbv beta zeta.
      unfold is_container at 1. rewrite T1.
      rewrite searchResources_step, Hread2, Hc2.
      change (arg_lower (JString "a")) with (Val (A:=string) "a").
      cbv match. rewrite search_children_cons, Fd. cbv beta zeta.
      rewrite Hm. unfold is_container at 1. rewrite Td.
      simpl andb. cbv match. rewrite search_children_nil. cbv match.
      rewrite search_children_cons, F2. cbv beta zeta.
      unfold is_container. rewrite T2. reflexivity.
Qed.

(** Without recursion the loop over the children calls nothing: it
    settles in the world it started in, with an outcome that does not
    depend on what a recursive call would do. *)
Lemma search_children_flat (recurse : string -> MF (W:=W) (list SearchHit))
    (lower : string) (cs : list SolidResource) (acc : list SearchHit) (w : World W) :
  exists t, search_children recurse lower false cs acc w = Some (t, w).
Proof.
  revert acc. induction cs as [|c cs IH]; intros acc; [eexists; reflexivity|].
  rewrite search_children_cons.
  destruct (getFilenameFromUrl (uri c)) as [filename|e]; [|eexists; reflexivity].
  cbv beta zeta. simpl andb. cbv match. apply IH.
Qed.



(** A child whose locator does not parse, behind children that are not
    containers, makes the loop over the children throw before anything is
    searched. *)
Lemma search_children_blocked (recurse : string -> MF (W:=W) (list SearchHit))
    (lower : string) (recursive : bool) (pre : list SolidResource)
    (c : SolidResource) (rest : list SolidResource) :
  Forall (fun p => type p = Resource) pre ->
  URL_parse (uri c) = None ->
  forall acc w,
    exists e,
      search_children recurse lower recursive (pre ++ c :: rest) acc w
      = Some (Exn e, w).
Proof.
  intros Hpre Hbad. induction Hpre as [|p pre Tp _ IH]; intros acc w.
  - simpl app. rewrite search_children_cons. unfold getFilenameFromUrl.
    rewrite Hbad. eauto.
  - simpl app. rewrite search_children_cons.
    destruct (getFilenameFromUrl (uri p)) as [filename|e]; [|eauto].
    cbv beta zeta. unfold is_container at 1. rewrite Tp, andb_false_r.
    apply IH.
Qed.

End WithTransport.

(** *** The search over a static pod *)

Section StaticPod.
Context {P : Platform}.
Variable serve : FetchRequest -> FetchResult.
Variable config : SolidPodConfig.

Lemma blind_ret {A} (a : A) : world_blind (ret a).
Proof. intros w w0. reflexivity. Qed.

Lemma blind_throw {A} (e : Thrown) : world_blind (A:=A) (throw e).
Proof. intros w w0. reflexivity. Qed.

Lemma blind_lift {A} (t : Try A) : world_blind (lift t).
Proof. intros w w0. reflexivity. Qed.

Lemma blind_call_fetch (req : FetchRequest) :
  world_blind (call_fetch (static serve) req).
Proof.
  intros w w0. unfold call_fetch, static.
  destruct (serve req); reflexivity.
Qed.

Lemma blind_bind {A B} (m : M unit A) (k : A -> M unit B) :
  world_blind m -> (forall a, world_blind (k a)) -> world_blind (bind m k).
Proof.
  intros Hm Hk w w0. unfold bind. specialize (Hm w w0).
  destruct (m w) as [[a|e] w1], (m w0) as [[a0|e0] w2]; simpl in Hm;
    try discriminate; injection Hm as <-; [apply Hk | reflexivity].
Qed.

Lemma blind_try_catch {A} (m : M unit A) (h : Thrown -> M unit A) :
  world_blind m -> (forall e, world_blind (h e)) -> world_blind (try_catch m h).
Proof.
  intros Hm Hh w w0. unfold try_catch. specialize (Hm w w0).
  destruct (m w) as [[a|e] w1], (m w0) as [[a0|e0] w2]; simpl in Hm;
    try discriminate; injection Hm as <-; [reflexivity | apply Hh].
Qed.

Ltac blind :=
  repeat first
    [ apply blind_ret | apply blind_throw | apply blind_lift
    | apply blind_call_fetch
    | apply blind_try_catch | apply blind_bind
    | match goal with
      | |- world_blind (if ?b then _ else _) => destruct b
      | |- world_blind (match ?p with (_, _) => _ end) => destruct p
      | |- forall _, _ => intro
      end ].

(** What a read returns does not depend on the calls made before it. *)
Lemma readResource_static (u : string) (includeContent : bool) (w w0 : World unit) :
  fst (readResource (static serve) config u includeContent w)
  = fst (readResource (static serve) config u includeContent w0).
Proof.
  revert w w0. change (world_blind (readResource (static serve) config u includeContent)).
  unfold readResource, listContainerContents, isContainer, getPermissions.
  blind.
Qed.

Lemma listing_read (u : string) (w w1 : World unit) (res : Try SolidResourceResponse) :
  readResource (static serve) config u false w = (res, w1) ->
  listing serve config u =
  match res with
  | Val r => match children r with Some cs => cs | None => [] end
  | Exn _ => []
  end.
Proof.
  intros H. unfold listing.
  rewrite (readResource_static u false start w), H. reflexivity.
Qed.

(** The loop settles when every recursive call it makes settles. *)
Lemma search_children_settles (recurse : string -> MF (W:=unit) (list SearchHit))
    (lower : string) (recursive : bool) (cs : list SolidResource) :
  (forall c, In c cs -> type c = Container ->
     forall w, exists hits w', recurse (uri c) w = Some (Val hits, w')) ->
  forall acc w,
    exists res w',
      search_children recurse lower recursive cs acc w = Some (res, w').
Proof.
  induction cs as [|c cs IH]; intros Hrec acc w.
  - rewrite search_children_nil. eauto.
  - rewrite search_children_cons.
    destruct (getFilenameFromUrl (uri c)) as [filename|e]; [|eauto].
    cbv zeta.
    assert (Hrest : forall c', In c' cs -> type c' = Container ->
              forall w, exists hits w', recurse (uri c') w = Some (Val hits, w')).
    { intros c' Hin. apply Hrec. now right. }
    destruct (recursive && is_container c) eqn:E; [|now apply IH].
    apply andb_true_iff in E as [_ E]. unfold is_container in E.
    destruct (type c) eqn:T; [|discriminate].
    destruct (Hrec c (or_introl eq_refl) T w) as (hits & w' & ->).
    now apply IH.
Qed.

(** The children ahead of a container do not stop the loop: either a
    recursive call on one of them has not come back, or the loop gets to
    the container. *)
Lemma search_children_reaches (recurse : string -> MF (W:=unit) (list SearchHit))
    (lower : string) (pre rest : list SolidResource) :
  (forall u w e w', recurse u w <> Some (Exn e, w')) ->
  Forall named_child pre ->
  forall acc w,
    search_children recurse lower true (pre ++ rest) acc w = None \/
    exists acc' w',
      search_children recurse lower true (pre ++ rest) acc w
      = search_children recurse lower true rest acc' w'.
Proof.
  intros Hrec. induction 1 as [|p pre [f F] _ IH]; intros acc w.
  - right. now exists acc, w.
  - change ((p :: pre) ++ rest)%list with (p :: (pre ++ rest))%list.
    rewrite search_children_cons, F. cbv zeta.
    destruct (true && is_container p); [|apply IH].
    destruct (recurse (uri p) w) as [[[hits|e] w1]|] eqn:R.
    + apply IH.
    + now apply Hrec in R.
    + now left.
Qed.

(** The loop adds, child after child, the hit of the child and then the
    hits found under it. *)
Lemma search_children_walks (recurse : string -> MF (W:=unit) (list SearchHit))
    (sub : string -> list SearchHit) (lower : string) (cs : list SolidResource) :
  Forall named_child cs ->
  (forall c, In c cs -> type c = Container ->
     forall w, exists w', recurse (uri c) w = Some (Val (sub (uri c)), w')) ->
  forall acc w,
    exists w',
      search_children recurse lower true cs acc w
      = Some (Val (acc ++ flat_map
                            (fun c => (own_hit lower c ++
                                       (if is_container c then sub (uri c) else []))%list)
                            cs)%list, w').
Proof.
  induction 1 as [|c cs [f F] _ IH]; intros Hrec acc w.
  - rewrite search_children_nil. simpl. rewrite app_nil_r. eauto.
  - rewrite search_children_cons, F. cbv zeta.
    assert (Hrest : forall c', In c' cs -> type c' = Container ->
              forall w, exists w', recurse (uri c') w = Some (Val (sub (uri c')), w')).
    { intros c' Hin. apply Hrec. now right. }
    assert (Hown :
      (if includes (toLowerCase f) lower
       then (acc ++ [mkHit c RELEVANCE])%list else acc)
      = (acc ++ own_hit lower c)%list).
    { unfold own_hit. rewrite F.
      destruct (includes (toLowerCase f) lower); [reflexivity|].
      now rewrite app_nil_r. }
    rewrite Hown. simpl flat_map.
    destruct (is_container c) eqn:K; simpl andb; cbv match.
    + assert (T : type c = Container).
      { unfold is_container in K. now destruct (type c). }
      destruct (Hrec c (or_introl eq_refl) T w) as [w1 ->].
      destruct (IH Hrest ((acc ++ own_hit lower c) ++ sub (uri c))%list w1) as [w2 ->].
      exists w2. now rewrite <- !app_assoc.
    + destruct (IH Hrest (acc ++ own_hit lower c)%list w) as [w2 ->].
      exists w2. now rewrite app_nil_r, <- !app_assoc.
Qed.

Lemma walk_step (lower : string) (depth : nat) (u : string) :
  walk serve config lower (S depth) u =
  flat_map
    (fun c => (own_hit lower c ++
               (if is_container c then walk serve config lower depth (uri c)
                else []))%list)
    (listing serve config u).
Proof. reflexivity. Qed.

(** On an acyclic pod whose children all have filenames, a recursive
    search returns the pre-order walk of the tree under the container. *)
Lemma searchResources_walks (rank : string -> nat) (term : string) :
  acyclic serve config rank ->
  (forall u c, In c (listing serve config u) -> named_child c) ->
  forall fuel u w,
    rank u < fuel ->
    exists w',
      searchResources (static serve) config fuel (JString u) (JString term) true w
      = Some (Val (walk serve config (toLowerCase term) fuel u), w').
Proof.
  intros Hacyclic Hnamed fuel.
  induction fuel as [|fuel IH]; intros u w Hlt; [lia|].
  rewrite searchResources_step, walk_step.
  destruct (readResource (static serve) config u false w) as [res w1] eqn:Hread.
  pose proof (listing_read u w w1 res Hread) as Hl.
  destruct res as [r|e]; [|rewrite Hl; eauto].
  destruct (children r) as [[|c cs]|]; try (rewrite Hl; eauto).
  change (arg_lower (JString term)) with (Val (A:=string) (toLowerCase term)).
  cbv match.
  destruct (search_children_walks
              (fun u' => searchResources (static serve) config fuel (JString u')
                           (JString term) true)
              (walk serve config (toLowerCase term) fuel)
              (toLowerCase term) (c :: cs)) with (acc := @nil SearchHit) (w := w1)
    as [w2 ->].
  - apply Forall_forall. intros c' Hin. apply (Hnamed u). now rewrite Hl.
  - intros c' Hin T w0. apply IH.
    assert (rank (uri c') < rank u) by (apply Hacyclic; [now rewrite Hl | exact T]).
    lia.
  - now exists w2.
Qed.

(** On a pod with a cycle a recursive search with a string for its term
    never comes back, whatever the fuel. *)
Lemma searchResources_cycle_unbounded (on_cycle : string -> Prop) :
  cyclic serve config on_cycle ->
  forall fuel u term w,
    on_cycle u ->
    searchResources (static serve) config fuel (JString u) (JString term)
      true w = None.
Proof.
  intros Hcyclic fuel.
  induction fuel as [|fuel IH]; intros u term w Hu; [reflexivity|].
  rewrite searchResources_step.
  destruct (Hcyclic u Hu) as (pre & c & rest & Hl & Hpre & T & [f F] & Hc).
  destruct (readResource (static serve) config u false w) as [res w1] eqn:Hread.
  rewrite (listing_read u w w1 res Hread) in Hl.
  destruct res as [r|e]; [|now destruct pre].
  destruct (children r) as [cs|]; [|now destruct pre].
  subst cs.
  change (arg_lower (JString term)) with (Val (A:=string) (toLowerCase term)).
  cbv match.
  assert (Hnone :
    search_children
      (fun u' => searchResources (static serve) config fuel (JString u')
                   (JString term) true)
      (toLowerCase term) true (pre ++ c :: rest) [] w1 = None).
  { destruct (search_children_reaches
                (fun u' => searchResources (static serve) config fuel (JString u')
                             (JString term) true)
                (toLowerCase term) pre (c :: rest)) with (acc := @nil SearchHit) (w := w1)
      as [E | (acc' & w2 & E)].
    - intros u' w0 e w'. apply searchResources_never_throws.
    - exact Hpre.
    - exact E.
    - rewrite E, search_children_cons, F. cbv beta zeta.
      unfold is_container. rewrite T. simpl andb. cbv match.
      now rewrite (IH (uri c) term w2 Hc). }
  destruct (pre ++ c :: rest)%list eqn:Epre; [now destruct pre|].
  now rewrite Hnone.
Qed.

(** C9. A recursive search comes back on every pod whose containment
    relation is acyclic and finite: the depth of the container bounds the
    fuel it needs.  On a pod with a cycle, a set of containers each
    listing a container of the set behind children that have filenames, a
    recursive search with a string for its term never comes back, whatever
    the fuel: nothing bounds the recursion.  The recursion has to get to
    the link, though.  A search whose term is not a string comes back
    empty from the first container that has children, and so does a search
    of a container that lists a child whose locator does not parse behind
    children that are not containers: what is thrown is caught, on a cycle
    as anywhere else. *)
Theorem searchResources_terminates_iff_acyclic :
  (forall rank,
     acyclic serve config rank ->
     forall fuel u searchTerm recursive w,
       rank u < fuel ->
       exists hits w',
         searchResources (static serve) config fuel (JString u) searchTerm
           recursive w = Some (Val hits, w')) /\
  (forall on_cycle,
     cyclic serve config on_cycle ->
     forall fuel u term w,
       on_cycle u ->
       searchResources (static serve) config fuel (JString u) (JString term)
         true w = None) /\
  (forall fuel u searchTerm recursive w,
     (forall term, searchTerm <> JString term) ->
     exists w',
       searchResources (static serve) config (S fuel) (JString u) searchTerm
         recursive w = Some (Val [], w')) /\
  (forall fuel u searchTerm recursive w pre c rest,
     listing serve config u = (pre ++ c :: rest)%list ->
     Forall (fun p => type p = Resource) pre ->
     URL_parse (uri c) = None ->
     exists w',
       searchResources (static serve) config (S fuel) (JString u) searchTerm
         recursive w = Some (Val [], w')).
Proof.
  split; [|split; [|split]].
  - intros rank Hacyclic fuel.
    induction fuel as [|fuel IH]; intros u searchTerm recursive w Hlt; [lia|].
    rewrite searchResources_step.
    destruct (readResource (static serve) config u false w) as [res w1] eqn:Hread.
    pose proof (listing_read u w w1 res Hread) as Hl.
    destruct res as [r|e]; [|eauto].
    destruct (children r) as [[|c cs]|]; [eauto | | eauto].
    destruct (arg_lower searchTerm) as [lower|e]; [|eauto].
    destruct (search_children_settles
                (fun u' => searchResources (static serve) config fuel (JString u')
                             searchTerm recursive)
                lower recursive (c :: cs)) with (acc := @nil SearchHit) (w := w1)
      as (res & w2 & ->).
    + intros c' Hin T w'. apply IH.
      assert (rank (uri c') < rank u) by (apply Hacyclic; [now rewrite Hl | exact T]).
      lia.
    + destruct res; eauto.
  - apply searchResources_cycle_unbounded.
  - intros fuel u searchTerm recursive w Hterm.
    rewrite searchResources_step.
    destruct (readResource (static serve) config u false w) as [[r|e] w1];
      [|eauto].
    destruct (children r) as [[|c cs]|]; [eauto | | eauto].
    destruct searchTerm as [| |b|n|term|l|l|s]; try (cbn [arg_lower]; eauto).
    now contradiction (Hterm term).
  - intros fuel u searchTerm recursive w pre c rest Hl Hpre Hbad.
    rewrite searchResources_step.
    destruct (readResource (static serve) config u false w) as [res w1] eqn:Hread.
    rewrite (listing_read u w w1 res Hread) in Hl.
    destruct res as [r|e]; [|eauto].
    destruct (children r) as [cs|]; [|eauto].
    subst cs.
    destruct (pre ++ c :: rest)%list as [|c0 cs] eqn:E; [eauto|].
    destruct (arg_lower searchTerm) as [lower|e]; [|eauto].
    rewrite <- E.
    destruct (search_children_blocked
                (fun u' => searchResources (static serve) config fuel (JString u')
                             searchTerm recursive)
                lower recursive pre c rest Hpre Hbad [] w1) as [e ->].
    eauto.
Qed.

End StaticPod.

(** C7. Over a container whose children are [a.txt] and [b.txt] the
    term [a] gives exactly one hit, [a.txt], with relevance 0.8; when the
    search is recursive and [a.txt] is a container with a matching child
    of its own, the hit of the parent comes before the hit of the
    descendant; a container with absent or empty children gives the empty
    sequence.  In general a recursive search returns the pre-order walk of
    the tree: each child, then what lies under it. *)
Theorem searchResources_scenarios {P : Platform} :
  (forall (W : Type) (fetchFn : FetchRequest -> W -> FetchResult * W)
          (config : SolidPodConfig)
          (u : string) (w w1 : World W) (r : SolidResourceResponse),
     readResource fetchFn config u false w = (Val r, w1) ->
     (children r = None \/ children r = Some [] ->
      forall fuel searchTerm recursive,
        searchResources fetchFn config (S fuel) (JString u) searchTerm recursive w
          = Some (Val [], w1)) /\
     (forall c1 c2,
        children r = Some [c1; c2] ->
        getFilenameFromUrl (uri c1) = Val "a.txt" ->
        getFilenameFromUrl (uri c2) = Val "b.txt" ->
        (forall fuel recursive,
           recursive = false \/ (type c1 = Resource /\ type c2 = Resource) ->
           searchResources fetchFn config (S fuel) (JString u) (JString "a")
             recursive w
             = Some (Val [mkHit c1 0.8%Q], w1)) /\
        (forall fuel r2 w2 d filename,
           type c1 = Container -> type c2 = Resource ->
           readResource fetchFn config (uri c1) false w1 = (Val r2, w2) ->
           children r2 = Some [d] ->
           type d = Resource ->
           getFilenameFromUrl (uri d) = Val filename ->
           includes (toLowerCase filename) "a" = true ->
           searchResources fetchFn config (S (S fuel)) (JString u) (JString "a")
             true w
             = Some (Val [mkHit c1 0.8%Q; mkHit d 0.8%Q], w2)))) /\
  (forall (serve : FetchRequest -> FetchResult) (config : SolidPodConfig)
          (rank : string -> nat) (term : string),
     acyclic serve config rank ->
     (forall u c, In c (listing serve config u) -> named_child c) ->
     forall fuel u w,
       rank u < fuel ->
       exists w',
         searchResources (static serve) config fuel (JString u) (JString term)
           true w
         = Some (Val (walk serve config (toLowerCase term) fuel u), w')).
Proof.
  split.
  - intros W fetchFn config u w w1 r. apply searchResources_on_children.
  - intros serve config rank term. apply searchResources_walks.
Qed.

End SearchFacts.

(* ================================================================== *)
(** ** lib/server.ts: the dispatcher *)
(* ================================================================== *)

Module DispatchFacts.
Import JS Types Utils Client Server JSFacts Spec Props SearchFacts.

Section WithTransport.
Context {P : Platform} {W : Type}.
Variable fetchFn : FetchRequest -> W -> FetchResult * W.
Variable config : SolidPodConfig.

Ltac unfold_dispatch :=
  unfold handleRequest, dispatch, try_catchF, bindF, liftT, throwF, retF.

Lemma bad_action_rejected (action : JSValue) :
  bad_action action ->
  negb (truthy action) || negb (typeof_string action) = true.
Proof.
  intros H.
  destruct action as [| |b|n|s|l|l|s]; simpl; rewrite ?orb_true_r; try reflexivity.
  now rewrite (H s eq_refl).
Qed.

Lemma good_action_accepted (a : string) :
  a <> EmptyString ->
  negb (truthy (JString a)) || negb (typeof_string (JString a)) = false.
Proof.
  intros N. simpl. rewrite orb_false_r, negb_involutive.
  now apply String.eqb_neq.
Qed.

Lemma bad_parameters_rejected (parameters : JSValue) :
  bad_parameters parameters <->
  negb (truthy parameters) || negb (typeof_object parameters) = true.
Proof.
  destruct parameters as [| |b|n|s|l|l|s]; simpl; try tauto;
    try (split; [reflexivity | exact (fun _ => I)]);
    try (split; [contradiction | discriminate]).
  - rewrite orb_true_r. tauto.
  - rewrite orb_true_r. tauto.
  - rewrite orb_true_r. tauto.
Qed.

Lemma good_parameters_accepted (parameters : JSValue) :
  ~ bad_parameters parameters ->
  negb (truthy parameters) || negb (typeof_object parameters) = false.
Proof.
  intros N.
  destruct (negb (truthy parameters) || negb (typeof_object parameters)) eqn:E;
    [|reflexivity].
  now apply bad_parameters_rejected in E.
Qed.

(** The registry holds the six names and no other. *)
Lemma find_tool_registered (a : string) :
  In a registered <->
  exists tool, find_tool fetchFn config a = Some tool /\ name tool = a.
Proof.
  split.
  - intros H. simpl in H.
    repeat (destruct H as [<-|H]; [eexists; split; reflexivity|]).
    contradiction.
  - intros (tool & H & <-). unfold find_tool in H.
    apply find_some in H as [H _]. simpl in H.
    repeat (destruct H as [<-|H]; [simpl; tauto|]).
    contradiction.
Qed.

Lemma find_tool_unknown (a : string) : ~ In a registered -> find_tool fetchFn config a = None.
Proof.
  intros N. destruct (find_tool fetchFn config a) as [t|] eqn:E; [|reflexivity].
  exfalso. apply N, find_tool_registered.
  exists t. split; [exact E|].
  unfold find_tool in E. apply find_some in E as [_ E].
  now apply String.eqb_eq in E.
Qed.

(** C4. A request whose action is missing, empty or not a string, or
    whose parameters are missing or not an object, is answered with an
    error whose message contains [Invalid request]; a well-formed request
    that names none of the six registered actions is answered with the
    error [Unknown action: <name>].  Neither makes a transport call: the
    world comes back as it was. *)
Theorem handleRequest_rejects_without_io
    (fuel : nat) (request action parameters : JSValue) (w : World W) :
  get_prop request "action" = Val action ->
  get_prop request "parameters" = Val parameters ->
  (bad_action action \/ bad_parameters parameters ->
     exists msg,
       handleRequest fetchFn config fuel request w = Some (Val (Failure msg), w) /\
       includes msg "Invalid request" = true) /\
  (forall a,
     action = JString a -> a <> EmptyString -> ~ bad_parameters parameters ->
     ~ In a registered ->
     handleRequest fetchFn config fuel request w = Some (Val (Failure ("Unknown action: " ++ a)), w)).
Proof.
  intros Ha Hp. split.
  - intros Hbad. unfold_dispatch. rewrite Ha.
    destruct (negb (truthy action) || negb (typeof_string action)) eqn:E.
    + eexists. split; reflexivity.
    + rewrite Hp.
      destruct Hbad as [Hbad|Hbad].
      * apply bad_action_rejected in Hbad. congruence.
      * apply bad_parameters_rejected in Hbad. rewrite Hbad.
        eexists. split; reflexivity.
  - intros a -> Hne Hobj Hunknown. unfold_dispatch. rewrite Ha.
    rewrite (good_action_accepted a Hne), Hp.
    rewrite (good_parameters_accepted parameters Hobj).
    change (ToString (JString a)) with a. now rewrite (find_tool_unknown a Hunknown).
Qed.

(** A request that is [null] or [undefined] has no fields to read: the
    [TypeError] is the error of the response, and no call is made. *)
Lemma handleRequest_nullish (fuel : nat) (request : JSValue) (w : World W) :
  request = JUndefined \/ request = JNull ->
  handleRequest fetchFn config fuel request w
  = Some (Val (Failure ("Cannot read properties of " ++ ToString request
                        ++ " (reading 'action')")), w).
Proof. intros [-> | ->]; reflexivity. Qed.

(** The guarded block reaches the executor of the tool the action names. *)
Lemma dispatch_executes (fuel : nat) (request parameters : JSValue)
    (a : string) (tool : SolidMCPTool) (w : World W) :
  get_prop request "action" = Val (JString a) -> a <> EmptyString ->
  get_prop request "parameters" = Val parameters -> ~ bad_parameters parameters ->
  find_tool fetchFn config a = Some tool ->
  dispatch fetchFn config fuel request w = execute tool fuel parameters w.
Proof.
  intros Ha Hne Hp Hobj Hfind. unfold dispatch, bindF, liftT.
  rewrite Ha, (good_action_accepted a Hne), Hp.
  rewrite (good_parameters_accepted parameters Hobj).
  change (ToString (JString a)) with a. now rewrite Hfind.
Qed.

(** A value comes out of the guarded block only through an executor. *)
Lemma dispatch_value_inv (fuel : nat) (request : JSValue) (w w' : World W)
    (v : ToolResult) :
  dispatch fetchFn config fuel request w = Some (Val v, w') ->
  exists a parameters tool,
    get_prop request "action" = Val (JString a) /\ a <> EmptyString /\
    get_prop request "parameters" = Val parameters /\
    ~ bad_parameters parameters /\
    find_tool fetchFn config a = Some tool /\
    execute tool fuel parameters w = Some (Val v, w').
Proof.
  unfold dispatch, bindF, liftT, throwF.
  destruct (get_prop request "action") as [action|e] eqn:Ha; [|discriminate].
  destruct (negb (truthy action) || negb (typeof_string action)) eqn:Ea;
    [discriminate|].
  destruct (get_prop request "parameters") as [parameters|e] eqn:Hp; [|discriminate].
  destruct (negb (truthy parameters) || negb (typeof_object parameters)) eqn:Ep;
    [discriminate|].
  destruct action as [| |b|n|a|l|l|s]; try discriminate Ea;
    try (simpl in Ea; rewrite orb_true_r in Ea; discriminate Ea).
  change (ToString (JString a)) with a.
  destruct (find_tool fetchFn config a) as [tool|] eqn:Hf; [|discriminate].
  intros H. exists a, parameters, tool. repeat split; trivial.
  - intros ->. discriminate Ea.
  - intros Hbad. apply bad_parameters_rejected in Hbad. congruence.
Qed.


(** The response is the outcome of the guarded block, wrapped. *)
Lemma handleRequest_wraps (fuel : nat) (request : JSValue) (w : World W) :
  handleRequest fetchFn config fuel request w =
  match dispatch fetchFn config fuel request w with
  | Some (Val v, w') => Some (Val (Success v), w')
  | Some (Exn e, w') => Some (Val (Failure (error_message e)), w')
  | None => None
  end.
Proof.
  unfold handleRequest, try_catchF, bindF, retF.
  destruct (dispatch fetchFn config fuel request w) as [[[v|e] w1]|]; reflexivity.
Qed.

Lemma handleRequest_success_inv (fuel : nat) (request : JSValue) (w w' : World W)
    (v : ToolResult) :
  handleRequest fetchFn config fuel request w = Some (Val (Success v), w') ->
  dispatch fetchFn config fuel request w = Some (Val v, w').
Proof.
  rewrite handleRequest_wraps.
  destruct (dispatch fetchFn config fuel request w) as [[[v'|e'] w1]|];
    try discriminate.
  now intros [= -> ->].
Qed.



End WithTransport.

End DispatchFacts.

(* ================================================================== *)
(** ** lib/utils.ts: [parseResourceMetadata] on one statement to a line *)
(* ================================================================== *)

Module ScanFacts.
Import JS Types Utils JSFacts Spec.

Lemma child_line_shape (c f : string) :
  child_line (c, f) =
  String LT (c ++ String GT
    (" <" ++ DC_FORMAT ++ "> " ++ String DQUOTE (f ++ String DQUOTE "."))).
Proof. reflexivity. Qed.

Lemma container_line_shape (u : string) :
  container_line u = String LT (u ++ String GT (" a <" ++ LDP_CONTAINER ++ ">.")).
Proof. reflexivity. Qed.

Lemma trim_child_line (kid : string * string) : trim (child_line kid) = child_line kid.
Proof.
  destruct kid as [c f]. unfold trim.
  change (trimStart (child_line (c, f))) with (child_line (c, f)).
  unfold child_line.
  repeat apply trimEnd_stable_app. split; [discriminate | reflexivity].
Qed.

Lemma trim_container_line (u : string) : trim (container_line u) = container_line u.
Proof.
  unfold trim.
  change (trimStart (container_line u)) with (container_line u).
  unfold container_line.
  repeat apply trimEnd_stable_app. split; [discriminate | reflexivity].
Qed.

Lemma child_line_facts (c f : string) :
  locator_ok c = true -> format_ok f = true ->
  includes (child_line (c, f)) "<http" = true /\
  includes (child_line (c, f)) ">" = true /\
  match_delimited LT GT (child_line (c, f)) = Some c /\
  includes (child_line (c, f)) DC_FORMAT = true /\
  match_delimited DQUOTE DQUOTE (child_line (c, f)) = Some f /\
  endsWith (child_line (c, f)) "." = true /\
  free_of LF (child_line (c, f)) = true.
Proof.
  unfold locator_ok, format_ok. rewrite !andb_true_iff, !nonempty_true.
  intros [[[Nc Gc] Lc] Qc] [[Nf Qf] Lf].
  repeat split.
  - rewrite child_line_shape. apply includes_cons, includes_app_r. reflexivity.
  - rewrite child_line_shape. apply includes_cons, includes_app_r. reflexivity.
  - rewrite child_line_shape. now apply match_delimited_here.
  - rewrite child_line_shape. apply includes_cons, includes_app_r. reflexivity.
  - unfold child_line, fst, snd.
    rewrite (match_delimited_skip DQUOTE DQUOTE "<") by reflexivity.
    rewrite (match_delimited_skip DQUOTE DQUOTE c) by exact Qc.
    rewrite (match_delimited_skip DQUOTE DQUOTE "> <") by reflexivity.
    rewrite (match_delimited_skip DQUOTE DQUOTE DC_FORMAT) by reflexivity.
    rewrite (match_delimited_skip DQUOTE DQUOTE "> ") by reflexivity.
    now apply (match_delimited_here DQUOTE DQUOTE f ".").
  - unfold child_line. repeat apply endsWith_app_r. reflexivity.
  - unfold child_line, fst, snd. rewrite !free_of_app, Lc, Lf. reflexivity.
Qed.

(** A child line adds its child, whatever the scan held before. *)
Lemma scan_child_line (u : string) (st : Scan) (kid : string * string) :
  kid_ok u kid = true ->
  currentUri (scan_line u st (child_line kid)) = EmptyString /\
  exists kind,
    resources (scan_line u st (child_line kid))
    = (resources st ++ [mkResource (fst kid) kind (Some (snd kid)) None None None])%list.
Proof.
  destruct kid as [c f]. unfold kid_ok, fst, snd.
  rewrite !andb_true_iff, negb_true_iff.
  intros [[Hc Hf] Hne].
  destruct (child_line_facts c f Hc Hf) as (I1 & I2 & M1 & I3 & M2 & E & _).
  assert (Nc : nonempty c = true).
  { unfold locator_ok in Hc. rewrite !andb_true_iff in Hc. tauto. }
  assert (Nf : nonempty f = true).
  { unfold format_ok in Hf. rewrite !andb_true_iff in Hf. tauto. }
  pose proof (trim_child_line (c, f)) as T.
  remember (child_line (c, f)) as line eqn:Hline. clear Hline.
  unfold scan_line. rewrite T, I1, I2, M1, I3, M2.
  destruct (includes line LDP_CONTAINER); simpl;
    rewrite Nc, E, Hne, Nf; simpl; eauto.
Qed.

(** The line that types the container adds nothing. *)
Lemma scan_container_line (u : string) (st : Scan) :
  nonempty u = true -> free_of GT u = true ->
  currentUri (scan_line u st (container_line u)) = EmptyString /\
  resources (scan_line u st (container_line u)) = resources st.
Proof.
  intros Nu Gu.
  assert (I1 : includes (container_line u) "<http" = true).
  { rewrite container_line_shape. apply includes_cons, includes_app_r. reflexivity. }
  assert (I2 : includes (container_line u) ">" = true).
  { rewrite container_line_shape. apply includes_cons, includes_app_r. reflexivity. }
  assert (M1 : match_delimited LT GT (container_line u) = Some u).
  { rewrite container_line_shape. apply match_delimited_here; [exact Gu|].
    now apply nonempty_true. }
  assert (I3 : includes (container_line u) LDP_CONTAINER = true).
  { rewrite container_line_shape. apply includes_cons, includes_app_r. reflexivity. }
  assert (E : endsWith (container_line u) "." = true).
  { unfold container_line. repeat apply endsWith_app_r. reflexivity. }
  pose proof (trim_container_line u) as T.
  remember (container_line u) as line eqn:Hline. clear Hline.
  unfold scan_line. rewrite T, I1, I2, M1, I3.
  destruct (includes line DC_FORMAT);
    [destruct (match_delimited DQUOTE DQUOTE line)|];
    simpl; rewrite Nu, E, String.eqb_refl; simpl; auto.
Qed.

(** The children of a description with one statement to a line are the
    children it lists, in order, each with its format. *)
Lemma scan_child_lines (u : string) (kids : list (string * string)) :
  Forall (fun kid => kid_ok u kid = true) kids ->
  forall st,
    let out := scan_lines u st (map child_line kids) in
    map uri (resources out) = (map uri (resources st) ++ map fst kids)%list /\
    map contentType (resources out)
    = (map contentType (resources st) ++ map (fun kid => Some (snd kid)) kids)%list.
Proof.
  induction 1 as [|kid kids Hk _ IH]; intros st.
  - simpl. now rewrite !app_nil_r.
  - simpl. unfold scan_lines in IH.
    destruct (scan_child_line u st kid Hk) as (_ & kind & R).
    destruct (IH (scan_line u st (child_line kid))) as [I1 I2].
    unfold scan_lines. simpl fold_left. rewrite I1, I2, R.
    rewrite !map_app. simpl. now rewrite <- !app_assoc.
Qed.

Lemma parse_container_body (u : string) (kids : list (string * string)) :
  nonempty u = true -> free_of GT u = true -> free_of LF u = true ->
  Forall (fun kid => kid_ok u kid = true) kids ->
  map uri (parseResourceMetadata (container_body u kids) u) = map fst kids /\
  map contentType (parseResourceMetadata (container_body u kids) u)
  = map (fun kid => Some (snd kid)) kids.
Proof.
  intros Nu Gu Lu Hk.
  unfold parseResourceMetadata, container_body.
  rewrite split_join.
  - unfold scan_lines. simpl fold_left.
    set (st := scan_line u _ (container_line u)).
    destruct (scan_container_line u (mkScan EmptyString false EmptyString []) Nu Gu)
      as [_ R]. fold st in R.
    destruct (scan_child_lines u kids Hk st) as [I1 I2].
    unfold scan_lines in I1, I2. rewrite I1, I2, R. split; reflexivity.
  - constructor.
    + unfold container_line. rewrite !free_of_app, Lu. reflexivity.
    + apply Forall_map. eapply Forall_impl; [|exact Hk].
      intros [c f] H. unfold kid_ok, fst, snd in H.
      rewrite !andb_true_iff in H. destruct H as [[Hc Hf] _].
      now destruct (child_line_facts c f Hc Hf) as (_ & _ & _ & _ & _ & _ & L).
Qed.

End ScanFacts.

(* ================================================================== *)
(** ** lib/client.ts: reading a container *)
(* ================================================================== *)

Module ContainerFacts.
Import JS Types Utils Client JSFacts Spec ScanFacts ClientFacts.

Section WithTransport.
Context {P : Platform} {W : Type}.
Variable fetchFn : FetchRequest -> W -> FetchResult * W.
Variable config : SolidPodConfig.

Lemma container_body_marked (u : string) (kids : list (string * string)) :
  includes (container_body u kids) LDP_CONTAINER = true.
Proof.
  unfold container_body.
  assert (H : includes (container_line u) LDP_CONTAINER = true).
  { rewrite container_line_shape. apply includes_cons, includes_app_r. reflexivity. }
  destruct kids as [|kid kids]; [exact H|].
  change (join (str LF) (container_line u :: map child_line (kid :: kids)))
    with (container_line u ++ str LF ++ join (str LF) (map child_line (kid :: kids))).
  now apply includes_app_l.
Qed.

(** C1, as the code has it.  When the response is a turtle description of
    the requested locator with one statement to a line (the statement that
    types it as a container, then each of the two children on a line of its
    own with its format) the read returns type [container] and exactly two
    children, with the two formats as declared content types, provided the
    body is not asked for or decodes. *)
Theorem readResource_container_one_statement_per_line
    (uri : string) (includeContent : bool) (w : World W)
    (r1 r2 : Response) (n1 n2 : W) (c1 f1 c2 f2 : string) :
  let target := normalizeUrl uri (podUrl config) in
  let req := mkRequest target "GET" (getAuthHeaders config) None in
  let described := container_body target [(c1, f1); (c2, f2)] in
  let declared := or_empty (headers_get r1 "Content-Type") in
  fetchFn req (net w) = (Resolved r1, n1) ->
  ok r1 = true -> includes declared "text/turtle" = true ->
  text r1 0 = Val described ->
  fetchFn req n1 = (Resolved r2, n2) ->
  ok r2 = true -> text r2 0 = Val described ->
  nonempty target = true -> free_of GT target = true -> free_of LF target = true ->
  kid_ok target (c1, f1) = true -> kid_ok target (c2, f2) = true ->
  (includeContent = true -> exists c, decode_content r1 declared 1 = Val c) ->
  exists v cs,
    readResource fetchFn config uri includeContent w
      = (Val v, mkWorld n2 (calls w ++ [(req, Resolved r1); (req, Resolved r2)])%list) /\
    type (resource v) = Container /\
    children v = Some cs /\
    length cs = 2 /\
    map Types.uri cs = [c1; c2] /\
    map contentType cs = [Some f1; Some f2].
Proof.
  intros target req described declared F1 Ok1 Turtle T1 F2 Ok2 T2 Nu Gu Lu K1 K2 Dec.
  destruct (parse_container_body target [(c1, f1); (c2, f2)] Nu Gu Lu) as [Huri Htype].
  { repeat constructor; assumption. }
  fold described in Huri, Htype.
  unfold readResource, try_catch, bind. fold target. fold req.
  rewrite (call_fetch_resolved fetchFn req w r1 n1 F1). cbv beta match.
  rewrite Ok1. change (negb true) with false. cbv beta match.
  fold declared. rewrite Turtle.
  unfold isContainer, bind, lift. rewrite T1.
  unfold described at 1. rewrite container_body_marked. fold described.
  unfold ret at 1 2. cbv beta match.
  unfold getPermissions, try_catch, ret at 1. cbv beta match.
  assert (Hlist :
    forall w0, net w0 = n1 ->
      listContainerContents fetchFn config target w0
      = (Val (parseResourceMetadata described target),
         mkWorld n2 (calls w0 ++ [(req, Resolved r2)])%list)).
  { intros w0 Hn. unfold listContainerContents, try_catch, bind. fold req.
    rewrite (call_fetch_resolved fetchFn req w0 r2 n2) by (now rewrite Hn).
    cbv beta match. rewrite Ok2. change (negb true) with false. cbv beta match.
    unfold lift, ret. now rewrite T2. }
  exists (mkResponseOf
            (mkResource target Container (Some declared)
               (Some (or_empty (headers_get r1 "Last-Modified")))
               (match headers_get r1 "Content-Length" with
                | Some l => if nonempty l then Some (parseInt10 l) else None
                | None => None
                end)
               (Some (mkPermissions true true true false)))
            (if includeContent
             then match decode_content r1 declared 1 with
                  | Val c => Some c
                  | Exn _ => None
                  end
             else None)
            (Some (parseResourceMetadata described target))),
         (parseResourceMetadata described target).
  split; [|repeat split; trivial].
  - destruct includeContent.
    + destruct (Dec eq_refl) as [c Hc]. unfold lift. rewrite Hc.
      unfold ret at 1 2. cbv beta match.
      rewrite Hlist by reflexivity. unfold ret. simpl calls.
      now rewrite <- app_assoc.
    + unfold ret at 1. cbv beta match.
      rewrite Hlist by reflexivity. unfold ret. simpl calls.
      now rewrite <- app_assoc.
  - rewrite <- (length_map Types.uri), Huri. reflexivity.
Qed.

(** On a response whose body can be read once, a read that asks for the
    body of a turtle resource fails: the container check has used the body
    up before the content is decoded. *)
Lemma readResource_turtle_body_used
    (uri : string) (w : World W) (r : Response) (n1 : W) :
  let req := mkRequest (normalizeUrl uri (podUrl config)) "GET"
               (getAuthHeaders config) None in
  fetchFn req (net w) = (Resolved r, n1) ->
  includes (or_empty (headers_get r "Content-Type")) "text/turtle" = true ->
  single_use r ->
  exists e,
    readResource fetchFn config uri true w
      = (Exn e, mkWorld n1 (calls w ++ [(req, Resolved r)])%list).
Proof.
  intros req F Turtle Once.
  unfold readResource, try_catch, bind. fold req.
  rewrite (call_fetch_resolved fetchFn req w r n1 F). cbv beta match.
  destruct (ok r); cbv beta match delta [negb]; [|unfold throw; eauto].
  rewrite Turtle. unfold isContainer, bind, lift.
  destruct (text r 0) as [payload|e]; [|unfold throw; eauto].
  unfold ret at 1 2. cbv beta match.
  unfold getPermissions, try_catch, ret at 1. cbv beta match.
  destruct (Once 0) as ([e1 H1] & [e2 H2] & [e3 H3]).
  unfold decode_content. rewrite H1, H2, H3.
  destruct (includes _ "application/json" || includes _ "application/ld+json");
    [unfold throw; eauto|].
  destruct (includes _ "text/"); unfold throw; eauto.
Qed.

End WithTransport.

End ContainerFacts.

(* ================================================================== *)
(** ** Which failures reach the caller *)
(* ================================================================== *)

Module SurfacingFacts.
Import JS Types Utils Client Server JSFacts Spec ClientFacts DispatchFacts SearchFacts.

Section WithTransport.
Context {P : Platform} {W : Type}.
Variable fetchFn : FetchRequest -> W -> FetchResult * W.
Variable config : SolidPodConfig.

Lemma liftM_surfaces {A B} (m : M W A) (f : A -> B) (w w' : World W) (b : B) :
  surfaces m ->
  bindF (liftM m) (fun a => retF (f a)) w = Some (Val b, w') ->
  exists new, calls w' = (calls w ++ new)%list /\ Forall settled_ok new.
Proof.
  intros Hm. unfold bindF, liftM, retF.
  destruct (Hm w) as (new & E & F).
  destruct (m w) as [[a|e] w1]; [|discriminate].
  intros [= _ <-]. exists new. split; [exact E | now apply (F a)].
Qed.

(** The executors other than the search return a value only when every
    transport call succeeded. *)
Lemma execute_surfaces (tool : SolidMCPTool) (fuel : nat) (parameters : JSValue)
    (w w' : World W) (v : ToolResult) :
  In tool (createTools fetchFn config) -> name tool <> "search" ->
  execute tool fuel parameters w = Some (Val v, w') ->
  exists new, calls w' = (calls w ++ new)%list /\ Forall settled_ok new.
Proof.
  intros Hin Hname. simpl in Hin.
  destruct Hin as [<-|[<-|[<-|[<-|[<-|[<-|[]]]]]]]; simpl in Hname;
    try contradiction;
    simpl execute; unfold param;
    unfold bindF at 1, liftT at 1.
  - destruct (get_prop parameters "uri") as [u|e]; [|discriminate].
    unfold bindF at 1, liftT at 1.
    destruct (get_prop parameters "include_content") as [ic|e]; [|discriminate].
    unfold bindF at 1, liftT at 1.
    destruct (arg_uri u) as [us|e]; [|discriminate].
    apply liftM_surfaces, surfaces_readResource.
  - destruct (get_prop parameters "uri") as [u|e]; [|discriminate].
    unfold bindF at 1, liftT at 1.
    destruct (get_prop parameters "content") as [ct|e]; [|discriminate].
    unfold bindF at 1, liftT at 1.
    destruct (get_prop parameters "content_type") as [cty|e]; [|discriminate].
    unfold bindF at 1, liftT at 1.
    destruct (arg_uri u) as [us|e]; [|discriminate].
    apply liftM_surfaces, surfaces_writeResource.
  - destruct (get_prop parameters "uri") as [u|e]; [|discriminate].
    unfold bindF at 1, liftT at 1.
    destruct (arg_uri u) as [us|e]; [|discriminate].
    apply liftM_surfaces, surfaces_deleteResource.
  - destruct (get_prop parameters "uri") as [u|e]; [|discriminate].
    unfold bindF at 1, liftT at 1.
    destruct (arg_uri u) as [us|e]; [|discriminate].
    apply liftM_surfaces, surfaces_readResource.
  - destruct (get_prop parameters "uri") as [u|e]; [|discriminate].
    unfold bindF at 1, liftT at 1.
    destruct (arg_uri u) as [us|e]; [|discriminate].
    apply liftM_surfaces, surfaces_createContainer.
Qed.

(** C3, as the code has it.  Read, write, delete and create-container
    return a value only when every transport call they made settled with a
    2xx response and every body read succeeded, and so does the dispatcher
    for every action but the search: a rejected call, a non-2xx response
    or a failed body read reaches the caller as a thrown failure or an
    error response.  The search is the exception: it never throws, and a
    container whose read fails gives the empty sequence.  The permissions
    stub always answers with its placeholder. *)
Theorem failures_surface_except_in_search :
  (forall uri includeContent,
     surfaces (readResource fetchFn config uri includeContent)) /\
  (forall uri content contentType,
     surfaces (writeResource fetchFn config uri content contentType)) /\
  (forall uri, surfaces (deleteResource fetchFn config uri)) /\
  (forall uri, surfaces (createContainer fetchFn config uri)) /\
  (forall uri includeContent w v w',
     readResource fetchFn config uri includeContent w = (Val v, w') ->
     let req := mkRequest (normalizeUrl uri (podUrl config)) "GET"
                  (getAuthHeaders config) None in
     exists r n1,
       fetchFn req (net w) = (Resolved r, n1) /\ ok r = true /\
       body_reads_ok r includeContent /\
       (type (resource v) = Container ->
        exists r2 n2 payload2,
          fetchFn req n1 = (Resolved r2, n2) /\ ok r2 = true /\
          text r2 0 = Val payload2)) /\
  (forall uri content contentType w v w',
     writeResource fetchFn config uri content contentType w = (Val v, w') ->
     exists w1,
       readResource fetchFn config (normalizeUrl uri (podUrl config)) true w1
         = (Val v, w')) /\
  (forall uri w v w',
     createContainer fetchFn config uri w = (Val v, w') ->
     exists w1,
       readResource fetchFn config (normalizeUrl uri (podUrl config)) true w1
         = (Val v, w')) /\
  (forall fuel request a w v w',
     get_prop request "action" = Val (JString a) -> a <> "search" ->
     handleRequest fetchFn config fuel request w = Some (Val (Success v), w') ->
     exists new, calls w' = (calls w ++ new)%list /\ Forall settled_ok new) /\
  (forall fuel containerUri searchTerm recursive w e w',
     searchResources fetchFn config fuel containerUri searchTerm recursive w
       <> Some (Exn e, w')) /\
  (forall fuel u searchTerm recursive w e w1,
     readResource fetchFn config u false w = (Exn e, w1) ->
     searchResources fetchFn config (S fuel) (JString u) searchTerm recursive w
       = Some (Val [], w1)) /\
  (forall resourceUrl (w : World W),
     getPermissions resourceUrl w
       = (Val (Some (mkPermissions true true true false)), w)).
Proof.
  split; [exact (surfaces_readResource fetchFn config)|].
  split; [exact (surfaces_writeResource fetchFn config)|].
  split; [exact (surfaces_deleteResource fetchFn config)|].
  split; [exact (surfaces_createContainer fetchFn config)|].
  split; [|split; [|split; [|split; [|split; [|split]]]]].
  - intros uri includeContent w v w' H req.
    destruct (readResource_value_inv fetchFn config uri includeContent w w' v H)
      as (r & n1 & F & Hok & Hkind & Hcontent & Hchildren).
    exists r, n1. split; [exact F|]. split; [exact Hok|]. split.
    + unfold body_reads_ok. cbv zeta in Hkind, Hcontent |- *.
      destruct (includes (or_empty (headers_get r "Content-Type")) "text/turtle").
      * split.
        -- intros _. destruct Hkind as (payload & T & _). eauto.
        -- intros ->. destruct Hcontent as (c & D & _). eauto.
      * split; [discriminate|].
        intros ->. destruct Hcontent as (c & D & _). eauto.
    + intros T. rewrite T in Hchildren.
      destruct Hchildren as (r2 & n2 & p2 & F2 & Hok2 & T2 & _). eauto 6.
  - intros uri content contentType w v w' H.
    destruct (writeResource_value_inv fetchFn config uri content contentType w w' v H)
      as (r & n1 & _ & _ & R). eauto.
  - intros uri w v w' H.
    destruct (createContainer_value_inv fetchFn config uri w w' v H)
      as (r & n1 & _ & _ & R). eauto.
  - intros fuel request a w v w' Ha Hne H.
    apply handleRequest_success_inv, dispatch_value_inv in H.
    destruct H as (a' & parameters & tool & Ha' & _ & _ & _ & Hf & Hx).
    assert (a' = a) by congruence. subst a'.
    unfold find_tool in Hf. apply find_some in Hf as [Hin Hn].
    apply String.eqb_eq in Hn.
    apply (execute_surfaces tool fuel parameters w w' v Hin); [congruence | exact Hx].
  - intros. apply searchResources_never_throws.
  - intros fuel u searchTerm recursive w e w1 H.
    now rewrite searchResources_step, H.
  - reflexivity.
Qed.

End WithTransport.

End SurfacingFacts.

(* ================================================================== *)
(** ** The model at work on the reference host *)
(* ================================================================== *)

Module Scenarios.
Import JS Types Utils Client Server Host Pods MorePods JSFacts Spec Props.
Import UtilsFacts DispatchFacts ClientFacts SearchFacts ScanFacts ContainerFacts
  SurfacingFacts.

(** [normalizeUrl] on an absolute and on a relative input. *)
Lemma normalizeUrl_absolute_or_joined_witness :
  normalizeUrl (P:=reference) "http://pod/x" "http://other" = "http://pod/x" /\
  normalizeUrl (P:=reference) "/notes/a.txt" "http://pod" = "http://pod/notes/a.txt".
Proof.
  split.
  - apply (proj1 (normalizeUrl_absolute_or_joined (P:=reference)
                    "http://pod/x" "http://other")).
    vm_compute. discriminate.
  - apply (proj2 (normalizeUrl_absolute_or_joined (P:=reference)
                    "/notes/a.txt" "http://pod")).
    vm_compute. reflexivity.
Defined.

(** [handle({})] and an action that is not registered. *)
Lemma handleRequest_rejects_without_io_witness :
  (exists msg,
     handleRequest (P:=reference) (static unreachable) pod 0 (JObject []) start
       = Some (Val (Failure msg), start) /\
     includes msg "Invalid request" = true) /\
  handleRequest (P:=reference) (static unreachable) pod 0
    (JObject [("action", JString "not_real"); ("parameters", JObject [])]) start
    = Some (Val (Failure "Unknown action: not_real"), start).
Proof.
  split.
  - apply (proj1 (handleRequest_rejects_without_io (P:=reference)
                    (static unreachable) pod 0 (JObject []) JUndefined JUndefined
                    start eq_refl eq_refl)).
    left. intros s H. discriminate H.
  - apply (proj2 (handleRequest_rejects_without_io (P:=reference)
                    (static unreachable) pod 0
                    (JObject [("action", JString "not_real"); ("parameters", JObject [])])
                    (JString "not_real") (JObject []) start eq_refl eq_refl)
             "not_real" eq_refl).
    + discriminate.
    + exact (fun H => H).
    + vm_compute. intuition discriminate.
Defined.


(** C1, as stated, fails: the description below types the requested
    locator as a container and describes two children with distinct
    formats, each over two lines; the read returns four children, two
    without a declared type and two that are not children at all. *)
Lemma folded_description_yields_four_children :
  exists v cs,
    fst (readResource (P:=reference) (static folded_pod) pod "/c/" false start) = Val v /\
    type (resource v) = Container /\
    children v = Some cs /\
    length cs = 4 /\
    map uri cs = ["http://pod/c/a.txt"; "http://purl.org/dc/terms/format";
                  "http://pod/c/b.txt"; "http://purl.org/dc/terms/format"] /\
    map contentType cs = [None; Some "text/plain"; None; Some "application/json"].
Proof.
  eexists. eexists. split; [vm_compute; reflexivity|].
  repeat split.
Qed.

(** The same container with one statement to a line. *)
Lemma readResource_container_one_statement_per_line_witness :
  exists v cs w',
    readResource (P:=reference) (static flat_pod) pod "/c/" false start = (Val v, w') /\
    type (resource v) = Container /\
    children v = Some cs /\
    length cs = 2 /\
    map uri cs = ["http://pod/c/a.txt"; "http://pod/c/b.txt"] /\
    map contentType cs = [Some "text/plain"; Some "application/json"].
Proof.
  destruct (readResource_container_one_statement_per_line (P:=reference)
              (static flat_pod) pod "/c/" false start
              (standard_response 200 "OK" [("Content-Type", "text/turtle")]
                 flat_body NOT_JSON)
              (standard_response 200 "OK" [("Content-Type", "text/turtle")]
                 flat_body NOT_JSON)
              tt tt
              "http://pod/c/a.txt" "text/plain"
              "http://pod/c/b.txt" "application/json")
    as (v & cs & H); try reflexivity.
  - intros H. discriminate H.
  - exists v, cs. eexists. exact H.
Defined.

(** C2 at its failing input: a read with the body of a container served
    by a Fetch-standard response throws, while the same read without the
    body returns the container. *)
Lemma readResource_container_body_consumed :
  fst (readResource (P:=reference) (static flat_pod) pod "/c/" true start)
  = Exn (ErrorObj
           "Error reading resource http://pod/c/: Body is unusable: Body has already been read") /\
  exists v,
    fst (readResource (P:=reference) (static flat_pod) pod "/c/" false start) = Val v /\
    type (resource v) = Container /\
    option_map (@length SolidResource) (children v) = Some 2.
Proof.
  split; [vm_compute; reflexivity|].
  eexists. split; [vm_compute; reflexivity|]. split; reflexivity.
Qed.

(** Behind mock responses, whose readers serve every read, the same read
    returns the body next to the two children. *)
Example readResource_container_body_mocked :
  exists v,
    fst (readResource (P:=reference) (static mock_pod) pod "/c/" true start) = Val v /\
    type (resource v) = Container /\
    content v = Some (JString flat_body) /\
    option_map (@length SolidResource) (children v) = Some 2.
Proof.
  eexists. split; [vm_compute; reflexivity|]. repeat split.
Qed.

(** C3, as stated, fails: the pod cannot be reached, the one transport
    call is rejected, and the search is answered with [success] and no
    results. *)
Lemma search_swallows_transport_failure :
  exists w',
    handleRequest (P:=reference) (static unreachable) pod 1
      (search_request "/c/" "a" false) start
    = Some (Val (Success (SearchResults [])), w') /\
    calls w'
    = [(mkRequest "http://pod/c/" "GET" [("Accept", ACCEPT)] None,
        Rejected (ErrorObj "fetch failed"))] /\
    ~ Forall settled_ok (calls w').
Proof.
  eexists. split; [vm_compute; reflexivity|].
  split; [reflexivity|].
  intros H. inversion H as [|x l Hx _]. exact Hx.
Qed.

(** The same pod through [delete_resource]: the failure is the response;
    and a delete that succeeds made one call, a success. *)
Lemma failures_surface_except_in_search_witness :
  exists new,
    new = [(mkRequest "http://pod/c/" "DELETE" [("Accept", ACCEPT)] None,
            flat_pod (mkRequest "http://pod/c/" "DELETE" [("Accept", ACCEPT)] None))] /\
    Forall settled_ok new.
Proof.
  destruct (proj1 (proj2 (proj2 (proj2 (proj2 (proj2 (proj2 (proj2
              (failures_surface_except_in_search (P:=reference)
                 (static flat_pod) pod))))))))
              0
              (JObject [("action", JString "delete_resource");
                        ("parameters", JObject [("uri", JString "/c/")])])
              "delete_resource" start (DeleteResult true)
              (mkWorld tt
                 [(mkRequest "http://pod/c/" "DELETE" [("Accept", ACCEPT)] None,
                   flat_pod (mkRequest "http://pod/c/" "DELETE"
                               [("Accept", ACCEPT)] None))])
              eq_refl)
    as (new & E & F).
  - discriminate.
  - vm_compute. reflexivity.
  - simpl in E. subst new. eexists. split; [reflexivity | exact F].
Defined.

(** The search over [a.txt] and [b.txt], flat and recursive. *)
Lemma searchResources_scenarios_witness :
  (exists w',
     searchResources (P:=reference) (static flat_pod) pod 1
       (JString "/c/") (JString "a") false start
     = Some (Val [mkHit (mkResource "http://pod/c/a.txt" Resource (Some "text/plain")
                           None None None) 0.8%Q], w')) /\
  (exists w',
     searchResources (P:=reference) (static tree_pod) pod 2
       (JString "/c/") (JString "a") true start
     = Some (Val [mkHit (mkResource "http://pod/c/a.txt" Container None
                           None None None) 0.8%Q;
                  mkHit (mkResource "http://pod/c/a.txt/about.md" Resource
                           (Some "text/markdown") None None None) 0.8%Q], w')).
Proof.
  pose (a_txt := mkResource "http://pod/c/a.txt" Resource (Some "text/plain")
                   None None None).
  pose (b_json := mkResource "http://pod/c/b.txt" Resource (Some "application/json")
                    None None None).
  pose (a_dir := mkResource "http://pod/c/a.txt" Container None None None None).
  pose (b_txt := mkResource "http://pod/c/b.txt" Resource (Some "text/plain")
                   None None None).
  pose (about := mkResource "http://pod/c/a.txt/about.md" Resource
                   (Some "text/markdown") None None None).
  split.
  - exists (snd (readResource (P:=reference) (static flat_pod) pod "/c/" false start)).
    refine (proj1 (proj2 (proj1 (searchResources_scenarios (P:=reference))
                            unit (static flat_pod) pod "/c/" start _
                            (match fst (readResource (P:=reference) (static flat_pod)
                                          pod "/c/" false start) with
                             | Val r => r
                             | Exn _ => mkResponseOf a_txt None None
                             end) _)
                     a_txt b_json _ _ _) 0 false _).
    + vm_compute. reflexivity.
    + vm_compute. reflexivity.
    + vm_compute. reflexivity.
    + vm_compute. reflexivity.
    + left. reflexivity.
  - exists (snd (readResource (P:=reference) (static tree_pod) pod
                   "http://pod/c/a.txt" false
                   (snd (readResource (P:=reference) (static tree_pod) pod "/c/"
                           false start)))).
    refine (proj2 (proj2 (proj1 (searchResources_scenarios (P:=reference))
                            unit (static tree_pod) pod "/c/" start _
                            (match fst (readResource (P:=reference) (static tree_pod)
                                          pod "/c/" false start) with
                             | Val r => r
                             | Exn _ => mkResponseOf a_txt None None
                             end) _)
                     a_dir b_txt _ _ _) 0
                  (match fst (readResource (P:=reference) (static tree_pod) pod
                                "http://pod/c/a.txt" false start) with
                   | Val r => r
                   | Exn _ => mkResponseOf a_txt None None
                   end) _ about "about.md" _ _ _ _ _ _ _).
    all: vm_compute; reflexivity.
Defined.

(** The walk of the tree pod: the container [a.txt], then what is under
    it. *)
Example walk_tree_pod :
  walk (P:=reference) tree_pod pod "a" 2 "/c/"
  = [mkHit (mkResource "http://pod/c/a.txt" Container None None None None) 0.8%Q;
     mkHit (mkResource "http://pod/c/a.txt/about.md" Resource
              (Some "text/markdown") None None None) 0.8%Q].
Proof. vm_compute. reflexivity. Qed.

(** A container described in JSON-LD is read as a plain resource. *)
Lemma readResource_not_turtle_witness :
  exists v,
    fst (readResource (P:=reference) (static jsonld_pod) pod "/c/" true start) = Val v /\
    type (resource v) = Resource /\
    children v = None /\
    content v = Some jsonld_value /\
    includes jsonld_body LDP_CONTAINER = true /\
    calls (snd (readResource (P:=reference) (static jsonld_pod) pod "/c/" true start))
    = [(mkRequest "http://pod/c/" "GET" [("Accept", ACCEPT)] None,
        Resolved jsonld_response)].
Proof.
  destruct (readResource_not_turtle (P:=reference) (static jsonld_pod) pod
              "/c/" true start jsonld_response tt eq_refl eq_refl)
    as (_ & _ & Hworld & Hkind & Hreturns).
  destruct Hreturns as [v Hv]; [reflexivity | |].
  - intros _. exists jsonld_value. reflexivity.
  - exists v. destruct (Hkind v Hv) as [Ht Hc].
    repeat split; trivial.
    revert Hv. vm_compute. now intros [= <-].
Defined.

Lemma tree_pod_acyclic : acyclic (P:=reference) tree_pod pod tree_rank.
Proof.
  intros u c. unfold listing, tree_rank at 2.
  unfold readResource, try_catch, bind, call_fetch, static, tree_pod.
  cbn [url net start].
  remember (normalizeUrl (P:=reference) u (podUrl pod)) as target eqn:Ht.
  destruct (String.eqb_spec target "http://pod/c/") as [->|N1].
  - vm_compute. intros [<-|[<-|[]]] T; [reflexivity | discriminate T].
  - destruct (String.eqb_spec target "http://pod/c/a.txt") as [->|N2].
    + vm_compute. intros [<-|[]] T. discriminate T.
    + simpl. intros [].
Qed.

Lemma loop_pod_cyclic : cyclic (P:=reference) loop_pod pod on_loop.
Proof.
  intros u [-> | ->].
  - exists [], (mkResource "http://pod/b/" Container None None None None), [].
    split; [vm_compute; reflexivity|]. split; [constructor|].
    split; [reflexivity|]. split; [exists EmptyString; reflexivity|].
    right. reflexivity.
  - exists [], (mkResource "http://pod/a/" Container None None None None), [].
    split; [vm_compute; reflexivity|]. split; [constructor|].
    split; [reflexivity|]. split; [exists EmptyString; reflexivity|].
    left. reflexivity.
Qed.

(** The search comes back on the tree and does not on the loop; it does
    come back on the loop without a term, and on the loop that has a
    child without a locator in its way. *)
Lemma searchResources_terminates_iff_acyclic_witness :
  (exists hits w',
     searchResources (P:=reference) (static tree_pod) pod 3
       (JString "/c/") (JString "a") true start = Some (Val hits, w')) /\
  searchResources (P:=reference) (static loop_pod) pod 1000
    (JString "http://pod/a/") (JString "a") true start = None /\
  (exists w',
     searchResources (P:=reference) (static loop_pod) pod 1000
       (JString "http://pod/a/") JUndefined true start = Some (Val [], w')) /\
  (exists w',
     searchResources (P:=reference) (static blocked_pod) pod 1000
       (JString "http://pod/a/") (JString "a") true start = Some (Val [], w')).
Proof.
  split; [|split; [|split]].
  - apply (proj1 (searchResources_terminates_iff_acyclic (P:=reference) tree_pod pod)
             tree_rank tree_pod_acyclic 3 "/c/" (JString "a") true start).
    vm_compute. lia.
  - apply (proj1 (proj2 (searchResources_terminates_iff_acyclic (P:=reference)
                           loop_pod pod))
             on_loop loop_pod_cyclic 1000 "http://pod/a/" "a" start).
    left. reflexivity.
  - apply (proj1 (proj2 (proj2 (searchResources_terminates_iff_acyclic (P:=reference)
                                  loop_pod pod)))
             999 "http://pod/a/" JUndefined true start).
    intros term H. discriminate H.
  - apply (proj2 (proj2 (proj2 (searchResources_terminates_iff_acyclic (P:=reference)
                                  blocked_pod pod)))
             999 "http://pod/a/" (JString "a") true start
             [] (mkResource "http" Resource (Some "text/plain") None None None)
             [mkResource "http://pod/b/" Container None None None None]).
    + vm_compute. reflexivity.
    + constructor.
    + reflexivity.
Defined.

End Scenarios.

(* ================================================================== *)
(** ** More facts about the string primitives *)
(* ================================================================== *)

Module StringFacts.
Import JS JSFacts.

Lemma startsWith_inv (s p : string) :
  startsWith s p = true -> exists b, s = p ++ b.
Proof.
  revert s. induction p as [|c p IH]; intros s H.
  - now exists s.
  - destruct s as [|d s]; [discriminate|]. simpl in H.
    apply andb_true_iff in H as [H1 H2].
    apply Ascii.eqb_eq in H1. subst d.
    destruct (IH s H2) as [b ->]. now exists b.
Qed.

Lemma includes_inv (s p : string) :
  includes s p = true -> exists a b, s = a ++ p ++ b.
Proof.
  induction s as [|c s IH]; intros H.
  - simpl in H. rewrite orb_false_r in H.
    destruct (startsWith_inv _ _ H) as [b E]. now exists EmptyString, b.
  - simpl in H. apply orb_true_iff in H as [H|H].
    + destruct (startsWith_inv _ _ H) as [b E]. now exists EmptyString, b.
    + destruct (IH H) as (a & b & ->). now exists (String c a), b.
Qed.

Lemma includes_iff (s p : string) :
  includes s p = true <-> exists a b, s = a ++ p ++ b.
Proof.
  split; [apply includes_inv|]. intros (a & b & ->). apply includes_mid.
Qed.

Lemma includes_refl (s : string) : includes s s = true.
Proof.
  apply includes_iff. exists EmptyString, EmptyString. simpl.
  now rewrite sapp_empty_r.
Qed.

Lemma includes_trans (s t p : string) :
  includes s t = true -> includes t p = true -> includes s p = true.
Proof.
  rewrite !includes_iff. intros (a & b & ->) (a' & b' & ->).
  exists (a ++ a'), (b' ++ b). now rewrite !sapp_assoc.
Qed.

Lemma includes_false_sub (s t p : string) :
  includes s t = true -> includes s p = false -> includes t p = false.
Proof.
  intros Hst Hsp. destruct (includes t p) eqn:E; [|reflexivity].
  now rewrite (includes_trans s t p Hst E) in Hsp.
Qed.

Lemma trimStart_suffix (s : string) : exists a, s = a ++ trimStart s.
Proof.
  induction s as [|c s [a IH]]; [now exists EmptyString|].
  simpl. destruct (is_ws c).
  - exists (String c a). simpl. now rewrite <- IH.
  - now exists EmptyString.
Qed.

Lemma trimEnd_prefix (s : string) : exists b, s = trimEnd s ++ b.
Proof.
  induction s as [|c s [b IH]]; [now exists EmptyString|].
  simpl. destruct (trimEnd s) as [|d t] eqn:E.
  - destruct (is_ws c).
    + exists (String c s). reflexivity.
    + exists s. reflexivity.
  - exists b. simpl. now rewrite IH at 1.
Qed.

Lemma includes_trim (s : string) : includes s (trim s) = true.
Proof.
  unfold trim. destruct (trimStart_suffix s) as [a Ha].
  destruct (trimEnd_prefix (trimStart s)) as [b Hb].
  apply includes_iff. exists a, b. now rewrite <- Hb.
Qed.

Lemma split_nonempty (x : ascii) (s : string) : split x s <> [].
Proof.
  induction s as [|c s IH]; [discriminate|].
  simpl. destruct (Ascii.eqb c x); [discriminate|].
  destruct (split x s); [contradiction | discriminate].
Qed.

Lemma split_In_free (x : ascii) (s l : string) :
  In l (split x s) -> free_of x l = true.
Proof.
  revert l. induction s as [|c s IH]; intros l H.
  - destruct H as [<-|[]]. reflexivity.
  - simpl in H. destruct (Ascii.eqb c x) eqn:E.
    + destruct H as [<-|H]; [reflexivity | now apply IH].
    + destruct (split x s) as [|h t] eqn:Es.
      * now destruct (split_nonempty x s).
      * destruct H as [<-|H].
        -- simpl. rewrite E. simpl. apply IH. now left.
        -- apply IH. now right.
Qed.

Lemma join_cons_char (sep : string) (c : ascii) (h : string) (t : list string) :
  join sep (String c h :: t) = String c (join sep (h :: t)).
Proof. destruct t; reflexivity. Qed.

(** [s.split(sep).join(sep)] is [s]. *)
Lemma join_split (x : ascii) (s : string) : join (str x) (split x s) = s.
Proof.
  induction s as [|c s IH]; [reflexivity|].
  simpl. destruct (Ascii.eqb_spec c x) as [->|N].
  - destruct (split x s) as [|h t] eqn:E; [now destruct (split_nonempty x s)|].
    change (join (str x) (EmptyString :: h :: t))
      with (String x (join (str x) (h :: t))).
    now rewrite IH.
  - destruct (split x s) as [|h t] eqn:E; [now destruct (split_nonempty x s)|].
    now rewrite join_cons_char, IH.
Qed.

Lemma includes_join (sep l : string) (ls : list string) :
  In l ls -> includes (join sep ls) l = true.
Proof.
  induction ls as [|a ls IH]; intros H; [contradiction|].
  destruct ls as [|b ls].
  - destruct H as [<-|[]]. apply includes_refl.
  - change (join sep (a :: b :: ls)) with (a ++ sep ++ join sep (b :: ls)).
    destruct H as [<-|H].
    + apply includes_prefix.
    + apply includes_app_r, includes_app_r. now apply IH.
Qed.

Lemma split_In_includes (x : ascii) (s l : string) :
  In l (split x s) -> includes s l = true.
Proof.
  intros H. rewrite <- (join_split x s) at 1. now apply includes_join.
Qed.

Lemma split_snoc (x : ascii) (b l : string) :
  free_of x l = true ->
  split x (b ++ String x l) = (split x b ++ [l])%list.
Proof.
  intros H. induction b as [|c b IH]; simpl.
  - now rewrite Ascii.eqb_refl, split_free.
  - destruct (Ascii.eqb c x); rewrite IH; [reflexivity|].
    destruct (split x b) as [|h t] eqn:E; [now destruct (split_nonempty x b)|].
    reflexivity.
Qed.

Lemma span_not_spec (c : ascii) (s p q : string) :
  span_not c s = (p, q) ->
  s = p ++ q /\ free_of c p = true /\
  (q = EmptyString \/ exists q', q = String c q').
Proof.
  revert p q. induction s as [|a s IH]; intros p q H.
  - injection H as <- <-. auto.
  - simpl in H. destruct (Ascii.eqb_spec a c) as [->|N].
    + injection H as <- <-. repeat split; eauto.
    + destruct (span_not c s) as [p' q'] eqn:E. injection H as <- <-.
      destruct (IH p' q' eq_refl) as (-> & F & Q).
      repeat split; trivial. simpl. rewrite F.
      apply Ascii.eqb_neq in N. now rewrite N.
Qed.

(** What the capture group holds stands in the text between the two
    delimiters, is not empty and is free of the closing one. *)
Lemma match_delimited_inv (o c : ascii) (s m : string) :
  match_delimited o c s = Some m ->
  m <> EmptyString /\ free_of c m = true /\
  includes s (str o ++ m ++ str c) = true.
Proof.
  induction s as [|a s IH]; intros H; [discriminate|].
  assert (Hrec : match_delimited o c s = Some m ->
                 m <> EmptyString /\ free_of c m = true /\
                 includes (String a s) (str o ++ m ++ str c) = true).
  { intros H'. destruct (IH H') as (N & F & I). repeat split; trivial.
    now apply includes_cons. }
  simpl in H. destruct (Ascii.eqb_spec a o) as [->|N]; [|now apply Hrec].
  destruct (span_not c s) as [p q] eqn:E.
  destruct p as [|b p]; [now apply Hrec|].
  destruct q as [|d q]; [now apply Hrec|].
  injection H as <-.
  destruct (span_not_spec c s _ _ E) as (-> & F & [Q|[q' Q]]); [discriminate|].
  injection Q as -> ->.
  repeat split; [discriminate | exact F |].
  apply includes_iff. exists EmptyString, q'. simpl.
  now rewrite sapp_assoc.
Qed.

Lemma last_char_app (a b : string) :
  b <> EmptyString -> last_char (a ++ b) = last_char b.
Proof.
  intros N. induction a as [|c a IH]; [reflexivity|].
  simpl. destruct (a ++ b) eqn:E; [|exact IH].
  destruct a; [simpl in E; contradiction | discriminate].
Qed.

Lemma last_char_free (x : ascii) (s : string) :
  free_of x s = true -> last_char s <> Some x.
Proof.
  induction s as [|c s IH]; [discriminate|].
  simpl. intros F. apply andb_true_iff in F as [Fc Fs].
  destruct s as [|d s]; [|now apply IH].
  intros [= ->]. now rewrite Ascii.eqb_refl in Fc.
Qed.

Lemma endsWith_refl (s : string) : endsWith s s = true.
Proof. apply (endsWith_app EmptyString). Qed.

End StringFacts.

(* ================================================================== *)
(** ** lib/utils.ts: what [parseResourceMetadata] keeps *)
(* ================================================================== *)

Module ScanMore.
Import JS Types Utils JSFacts StringFacts Props.

(** A line leaves the children as they were or adds one at the end. *)
Lemma scan_line_resources (u : string) (st : Scan) (line : string) :
  resources (scan_line u st line) = resources st \/
  exists r,
    resources (scan_line u st line) = (resources st ++ [r])%list /\
    closes_statement line = true /\
    uri r = currentUri
              (if includes (trim line) "<http" && includes (trim line) ">"
               then match match_delimited LT GT (trim line) with
                    | Some m => mkScan m false EmptyString (resources st)
                    | None => st
                    end
               else st) /\
    child_shaped u r.
Proof.
  unfold scan_line, closes_statement. set (t := trim line).
  set (st1 := if includes t "<http" && includes t ">" then _ else st).
  assert (R1 : resources st1 = resources st).
  { unfold st1. destruct (includes t "<http" && includes t ">"); [|reflexivity].
    destruct (match_delimited LT GT t); reflexivity. }
  set (st2 := if includes t LDP_CONTAINER then _ else st1).
  assert (R2 : resources st2 = resources st /\ currentUri st2 = currentUri st1).
  { unfold st2. destruct (includes t LDP_CONTAINER); auto. }
  set (st3 := if includes t DC_FORMAT then _ else st2).
  assert (R3 : resources st3 = resources st /\ currentUri st3 = currentUri st1).
  { unfold st3. destruct (includes t DC_FORMAT); [|exact R2].
    destruct (match_delimited DQUOTE DQUOTE t); [|exact R2]. exact R2. }
  destruct R3 as [R3 C3]. cbv zeta.
  destruct (nonempty (currentUri st3)) eqn:N; simpl andb; [|now left].
  destruct (endsWith t "." || endsWith t ";" || String.eqb t EmptyString) eqn:E;
    [|now left].
  destruct (String.eqb_spec (currentUri st3) u) as [Eq|Ne]; simpl; [now left|].
  right. eexists. split; [now rewrite R3|]. split; [reflexivity|].
  split; [exact C3|].
  unfold child_shaped. simpl. repeat split; trivial.
  - now apply nonempty_true.
  - destruct (nonempty (scanContentType st3)) eqn:Nc; [|discriminate].
    intros [= H]. rewrite H in Nc. discriminate.
Qed.

Lemma scan_lines_app (u : string) (st : Scan) (l1 l2 : list string) :
  scan_lines u st (l1 ++ l2)%list = scan_lines u (scan_lines u st l1) l2.
Proof. unfold scan_lines. apply fold_left_app. Qed.

Lemma scan_lines_shaped (u : string) (lines : list string) (st : Scan) :
  Forall (child_shaped u) (resources st) ->
  Forall (child_shaped u) (resources (scan_lines u st lines)).
Proof.
  revert st. induction lines as [|l lines IH]; intros st H; [exact H|].
  apply (IH (scan_line u st l)).
  destruct (scan_line_resources u st l) as [-> | (r & -> & _ & _ & Hr)]; [exact H|].
  apply Forall_app. split; [exact H | now constructor].
Qed.

(** X1. The children never include the container itself or an empty
    locator; a child carries a declared type that is absent or not empty,
    and no date, size or permissions. *)
Theorem parseResourceMetadata_children_shaped (turtleContent containerUrl : string) :
  Forall (child_shaped containerUrl)
    (parseResourceMetadata turtleContent containerUrl).
Proof.
  unfold parseResourceMetadata. apply scan_lines_shaped. constructor.
Qed.

Lemma scan_lines_length (u : string) (lines : list string) (st : Scan) :
  length (resources (scan_lines u st lines))
  <= length (resources st) + length (filter closes_statement lines).
Proof.
  revert st. induction lines as [|l lines IH]; intros st; [simpl; lia|].
  change (scan_lines u st (l :: lines)) with (scan_lines u (scan_line u st l) lines).
  specialize (IH (scan_line u st l)). simpl filter.
  destruct (scan_line_resources u st l) as [E | (r & E & C & _)]; rewrite E in IH.
  - destruct (closes_statement l); simpl; lia.
  - rewrite C. rewrite length_app in IH. simpl in *. lia.
Qed.

(** X2. There are at most as many children as there are lines that close
    a statement: lines that end with a full stop or a semicolon, or are
    blank. *)
Theorem parseResourceMetadata_length (turtleContent containerUrl : string) :
  length (parseResourceMetadata turtleContent containerUrl)
  <= length (filter closes_statement (split LF turtleContent)).
Proof.
  unfold parseResourceMetadata.
  apply (scan_lines_length containerUrl (split LF turtleContent)
           (mkScan EmptyString false EmptyString [])).
Qed.

(** X3. A last line that does not close its statement is dropped: the
    children are those of the text before it. *)
Theorem parseResourceMetadata_unterminated_dropped
    (turtleContent line containerUrl : string) :
  free_of LF line = true -> closes_statement line = false ->
  parseResourceMetadata (turtleContent ++ String LF line) containerUrl
  = parseResourceMetadata turtleContent containerUrl.
Proof.
  intros Hfree Hopen. unfold parseResourceMetadata.
  rewrite (split_snoc LF turtleContent line Hfree), scan_lines_app.
  change (scan_lines containerUrl ?st [line]) with (scan_line containerUrl st line).
  destruct (scan_line_resources containerUrl
              (scan_lines containerUrl (mkScan EmptyString false EmptyString [])
                 (split LF turtleContent)) line)
    as [E | (r & _ & C & _)]; [exact E | congruence].
Qed.

(** A line without [<http] starts no subject. *)
Lemma scan_line_no_subject (u : string) (st : Scan) (line : string) :
  includes (trim line) "<http" = false -> currentUri st = EmptyString ->
  currentUri (scan_line u st line) = EmptyString /\
  resources (scan_line u st line) = resources st.
Proof.
  intros H C. unfold scan_line. rewrite H. simpl andb. cbv match zeta.
  destruct (includes (trim line) LDP_CONTAINER);
    destruct (includes (trim line) DC_FORMAT);
    try destruct (match_delimited DQUOTE DQUOTE (trim line));
    simpl; rewrite C; simpl; auto.
Qed.

(** X4. A text in which [<http] does not occur, the empty text among
    them, has no children. *)
Theorem parseResourceMetadata_no_subject (turtleContent containerUrl : string) :
  includes turtleContent "<http" = false ->
  parseResourceMetadata turtleContent containerUrl = [].
Proof.
  intros H. unfold parseResourceMetadata.
  assert (Hlines : forall l, In l (split LF turtleContent) ->
                     includes (trim l) "<http" = false).
  { intros l Hin. apply (includes_false_sub turtleContent); [|exact H].
    apply (includes_trans _ l); [now apply (split_In_includes LF) | apply includes_trim]. }
  assert (Hscan : forall lines st,
            (forall l, In l lines -> includes (trim l) "<http" = false) ->
            currentUri st = EmptyString ->
            resources (scan_lines containerUrl st lines) = resources st).
  { induction lines as [|l lines IH]; intros st Hl C; [reflexivity|].
    destruct (scan_line_no_subject containerUrl st l) as [C' R'];
      [apply Hl; now left | exact C |].
    change (scan_lines containerUrl st (l :: lines))
      with (scan_lines containerUrl (scan_line containerUrl st l) lines).
    rewrite IH; [exact R' | intros l' Hin; apply Hl; now right | exact C']. }
  now rewrite Hscan.
Qed.

Lemma scan_line_sourced (text u : string) (st : Scan) (line : string) :
  includes text line = true ->
  scan_sourced text st -> scan_sourced text (scan_line u st line).
Proof.
  intros Hline Hst.
  assert (Ht : includes text (trim line) = true).
  { apply (includes_trans _ line); [exact Hline | apply includes_trim]. }
  unfold scan_line. set (t := trim line) in *.
  set (st1 := if includes t "<http" && includes t ">" then _ else st).
  assert (H1 : scan_sourced text st1).
  { unfold st1. destruct (includes t "<http" && includes t ">"); [|exact Hst].
    destruct (match_delimited LT GT t) as [m|] eqn:M; [|exact Hst].
    destruct (match_delimited_inv LT GT t m M) as (N & F & I).
    destruct Hst as (_ & _ & _ & Hres).
    repeat split; simpl; auto.
    - right. split; [|exact F]. unfold bracketed_in.
      now apply (includes_trans _ t).
    - discriminate. }
  set (st2 := if includes t LDP_CONTAINER then _ else st1).
  assert (H2 : scan_sourced text st2).
  { unfold st2. destruct (includes t LDP_CONTAINER) eqn:I; [|exact H1].
    destruct H1 as (A & _ & C & D). repeat split; simpl; auto.
    intros _. now apply (includes_trans _ t). }
  set (st3 := if includes t DC_FORMAT then _ else st2).
  assert (H3 : scan_sourced text st3).
  { unfold st3. destruct (includes t DC_FORMAT) eqn:I; [|exact H2].
    destruct (match_delimited DQUOTE DQUOTE t) as [m|] eqn:M; [|exact H2].
    destruct (match_delimited_inv DQUOTE DQUOTE t m M) as (N & F & I').
    destruct H2 as (A & B & _ & D). repeat split; simpl; auto.
    right. split; now apply (includes_trans _ t). }
  cbv zeta.
  destruct H3 as (A & B & C & D).
  destruct (nonempty (currentUri st3) &&
            (endsWith t "." || endsWith t ";" || String.eqb t EmptyString)) eqn:E;
    [|repeat split; assumption].
  apply andb_true_iff in E as [N _]. apply nonempty_true in N.
  destruct A as [A|[A1 A2]]; [contradiction|].
  repeat split; simpl; auto.
  destruct (negb (String.eqb (currentUri st3) u) && nonempty (currentUri st3));
    [|exact D].
  apply Forall_app. split; [exact D|]. constructor; [|constructor].
  unfold child_sourced. simpl.
  split; [exact A1|]. split; [exact A2|]. split.
  - destruct (isContainer st3); [auto | discriminate].
  - intros t0 Hct.
    destruct (nonempty (scanContentType st3)) eqn:Nc; [|discriminate].
    injection Hct as <-. apply nonempty_true in Nc. destruct C as [C|C]; tauto.
Qed.

(** X5. Whatever a child says stands in the text: its locator between
    angle brackets, the container marker if it is typed as a container,
    its declared type between double quotes next to the format
    property. *)
Theorem parseResourceMetadata_children_sourced (turtleContent containerUrl : string) :
  Forall (child_sourced turtleContent)
    (parseResourceMetadata turtleContent containerUrl).
Proof.
  unfold parseResourceMetadata.
  assert (Hscan : forall lines st,
            (forall l, In l lines -> includes turtleContent l = true) ->
            scan_sourced turtleContent st ->
            scan_sourced turtleContent (scan_lines containerUrl st lines)).
  { induction lines as [|l lines IH]; intros st Hl Hst; [exact Hst|].
    apply (IH (scan_line containerUrl st l)).
    - intros l' Hin. apply Hl. now right.
    - apply scan_line_sourced; [apply Hl; now left | exact Hst]. }
  apply Hscan.
  - intros l. apply split_In_includes.
  - repeat split; simpl; auto. discriminate.
Qed.

End ScanMore.

(* ================================================================== *)
(** ** lib/utils.ts: filenames and parents *)
(* ================================================================== *)

Module PathFacts.
Import JS Types Utils UtilsMore JSFacts StringFacts Props.

Lemma last_part_removelast (ls : list string) :
  ls <> [] ->
  exists l, last_part ls = Some l /\ ls = (removelast ls ++ [l])%list.
Proof.
  induction ls as [|a ls IH]; intros N; [contradiction|].
  destruct ls as [|b ls].
  - now exists a.
  - destruct IH as (l & E & R); [discriminate|].
    exists l. split; [exact E|].
    change (removelast (a :: b :: ls)) with (a :: removelast (b :: ls)).
    simpl app. f_equal. exact R.
Qed.

Lemma join_snoc (sep : string) (init : list string) (l : string) :
  init <> [] -> join sep (init ++ [l]) = join sep init ++ sep ++ l.
Proof.
  induction init as [|a init IH]; intros N; [contradiction|].
  destruct init as [|b init]; [reflexivity|].
  change (join sep ((a :: b :: init) ++ [l]))
    with (a ++ sep ++ join sep ((b :: init) ++ [l])).
  rewrite IH by discriminate.
  change (join sep (a :: b :: init)) with (a ++ sep ++ join sep (b :: init)).
  now rewrite !sapp_assoc.
Qed.

(** A text with a separator in it is what stands before its last
    separator, the separator, and a last part free of separators. *)
Lemma split_last_part (x : ascii) (s : string) :
  exists l,
    last_part (split x s) = Some l /\ free_of x l = true /\
    (free_of x s = true -> l = s) /\
    (free_of x s = false ->
     s = join (str x) (removelast (split x s)) ++ str x ++ l).
Proof.
  destruct (last_part_removelast (split x s) (split_nonempty x s)) as (l & E & R).
  exists l. split; [exact E|]. split.
  - apply (split_In_free x s). rewrite R. apply in_or_app. right. now left.
  - split.
    + intros F. rewrite (split_free x s F) in E. now injection E as <-.
    + intros F.
      destruct (removelast (split x s)) as [|a init] eqn:I.
      * simpl in R. pose proof (join_split x s) as J. rewrite R in J.
        simpl in J. subst l.
        assert (free_of x s = true).
        { apply (split_In_free x s). rewrite R. now left. }
        congruence.
      * rewrite <- (join_split x s) at 1. rewrite R.
        apply join_snoc. discriminate.
Qed.

(** The last of the parts of a text split at the delimiter. *)
Lemma last_part_facts (s : string) :
  exists l,
    last_part (split "/" s) = Some l /\
    free_of "/" l = true /\
    endsWith s l = true /\
    (l = EmptyString <-> s = EmptyString \/ endsWith s "/" = true).
Proof.
  destruct (split_last_part "/" s) as (l & E & F & Hfree & Hsep).
  exists l. split; [exact E|]. split; [exact F|].
  destruct (free_of "/" s) eqn:Fp.
  - rewrite (Hfree eq_refl). split; [apply endsWith_refl|].
    split; [now left|].
    intros [H|H]; [exact H|].
    apply (endsWith_last s "/"%char) in H.
    now destruct (last_char_free "/"%char s Fp).
  - specialize (Hsep eq_refl). split.
    + rewrite Hsep at 1. apply endsWith_app_r, endsWith_app_r, endsWith_refl.
    + split.
      * intros ->. right. rewrite Hsep, sapp_empty_r. apply endsWith_app.
      * intros [H|H]; [rewrite H in Fp; discriminate|].
        rewrite Hsep in H.
        apply (endsWith_last _ "/"%char) in H.
        destruct l as [|d l]; [reflexivity|].
        rewrite last_char_app in H by discriminate.
        change (last_char (str "/" ++ String d l)) with (last_char (String d l)) in H.
        now destruct (last_char_free "/"%char (String d l) F).
Qed.

Section WithPlatform.
Context {P : Platform}.

(** X6. On a locator that parses, the filename is the part of the path
    after its last delimiter: it holds no delimiter, the path ends with it,
    and it is empty exactly when the path is empty or ends with a
    delimiter.  On a locator that does not parse the function throws. *)
Theorem getFilenameFromUrl_last_segment (url : string) :
  (URL_parse url = None -> exists e, getFilenameFromUrl url = Exn e) /\
  (forall o,
     URL_parse url = Some o ->
     exists filename,
       getFilenameFromUrl url = Val filename /\
       free_of "/" filename = true /\
       endsWith (pathname o) filename = true /\
       (filename = EmptyString <->
        pathname o = EmptyString \/ endsWith (pathname o) "/" = true)).
Proof.
  unfold getFilenameFromUrl. split.
  - intros ->. eauto.
  - intros o ->.
    destruct (last_part_facts (pathname o)) as (l & E & F & Hends & Hempty).
    rewrite E. exists l. auto.
Qed.


End WithPlatform.

End PathFacts.

(* ================================================================== *)
(** ** lib/client.ts: the calls the client makes *)
(* ================================================================== *)

Module CallFacts.
Import JS Types Utils Client JSFacts StringFacts Spec Props ClientFacts.

Section WithTransport.
Context {P : Platform} {W : Type}.
Variable fetchFn : FetchRequest -> W -> FetchResult * W.
Variable config : SolidPodConfig.

Lemma makes_ret {A} (Q : FetchRequest -> Prop) (a : A) : makes (W:=W) 0 Q (ret a).
Proof. intros w. exists []. simpl. rewrite app_nil_r. auto. Qed.

Lemma makes_throw {A} (Q : FetchRequest -> Prop) (e : Thrown) :
  makes (W:=W) (A:=A) 0 Q (throw e).
Proof. intros w. exists []. simpl. rewrite app_nil_r. auto. Qed.

Lemma makes_lift {A} (Q : FetchRequest -> Prop) (t : Try A) :
  makes (W:=W) 0 Q (lift t).
Proof. intros w. exists []. simpl. rewrite app_nil_r. auto. Qed.

Lemma makes_call (Q : FetchRequest -> Prop) (req : FetchRequest) :
  Q req -> makes 1 Q (call_fetch fetchFn req).
Proof.
  intros HQ w. unfold call_fetch.
  destruct (fetchFn req (net w)) as [res n1].
  exists [(req, res)]. split; [destruct res; reflexivity|].
  split; [simpl; lia | now constructor].
Qed.

Lemma makes_bind {A B} (n1 n2 : nat) (Q : FetchRequest -> Prop)
    (m : M W A) (k : A -> M W B) :
  makes n1 Q m -> (forall a, makes n2 Q (k a)) -> makes (n1 + n2) Q (bind m k).
Proof.
  intros Hm Hk w. unfold bind.
  destruct (Hm w) as (new1 & E1 & L1 & F1).
  destruct (m w) as [[a|e] w1]; simpl in *.
  - destruct (Hk a w1) as (new2 & E2 & L2 & F2).
    exists (new1 ++ new2)%list. rewrite E2, E1, app_assoc.
    split; [reflexivity|]. split; [rewrite length_app; lia|].
    apply Forall_app. now split.
  - exists new1. split; [exact E1|]. split; [lia | exact F1].
Qed.

Lemma makes_try_catch {A} (n1 n2 : nat) (Q : FetchRequest -> Prop)
    (m : M W A) (h : Thrown -> M W A) :
  makes n1 Q m -> (forall e, makes n2 Q (h e)) -> makes (n1 + n2) Q (try_catch m h).
Proof.
  intros Hm Hh w. unfold try_catch.
  destruct (Hm w) as (new1 & E1 & L1 & F1).
  destruct (m w) as [[a|e] w1]; simpl in *.
  - exists new1. split; [exact E1|]. split; [lia | exact F1].
  - destruct (Hh e w1) as (new2 & E2 & L2 & F2).
    exists (new1 ++ new2)%list. rewrite E2, E1, app_assoc.
    split; [reflexivity|]. split; [rewrite length_app; lia|].
    apply Forall_app. now split.
Qed.

Lemma makes_weaken {A} (n n' : nat) (Q Q' : FetchRequest -> Prop) (m : M W A) :
  n <= n' -> (forall req, Q req -> Q' req) -> makes n Q m -> makes n' Q' m.
Proof.
  intros Hn HQ Hm w. destruct (Hm w) as (new & E & L & F).
  exists new. split; [exact E|]. split; [lia|].
  eapply Forall_impl; [|exact F]. intros c. apply HQ.
Qed.

Lemma makes_if {A} (n : nat) (Q : FetchRequest -> Prop) (b : bool) (m1 m2 : M W A) :
  makes n Q m1 -> makes n Q m2 -> makes n Q (if b then m1 else m2).
Proof. now destruct b. Qed.

Lemma makes_listContainerContents (u : string) :
  makes 1 (fun req => req = mkRequest u "GET" (getAuthHeaders config) None)
    (listContainerContents fetchFn config u).
Proof.
  unfold listContainerContents.
  apply (makes_try_catch 1 0); [|intros; apply makes_throw].
  apply (makes_bind 1 0); [now apply makes_call|].
  intros r. apply makes_if; [apply makes_throw|].
  apply (makes_bind 0 0); [apply makes_lift | intros; apply makes_ret].
Qed.

(** A computation that starts with a guarded call. *)
Lemma starts_with_call_guarded {A} (req : FetchRequest) (n : nat)
    (Q : FetchRequest -> Prop) (k : Response -> M W A) (f : Thrown -> Thrown) :
  (forall r, makes n Q (k r)) ->
  starts_with_call fetchFn req n Q
    (try_catch (bind (call_fetch fetchFn req) k) (fun error => throw (f error))).
Proof.
  intros Hk w. unfold try_catch, bind, call_fetch.
  destruct (fetchFn req (net w)) as [[r|x] n1]; cbn [fst snd]; cbv beta match.
  - destruct (Hk r (mkWorld n1 (calls w ++ [(req, Resolved r)])%list))
      as (new & E & L & F).
    exists new. cbn [calls] in E.
    destruct (k r (mkWorld n1 (calls w ++ [(req, Resolved r)])%list))
      as [[a|e] w2]; cbn [snd] in E; unfold throw; cbn [snd];
      rewrite E, <- app_assoc; (split; [reflexivity|]); split; assumption.
  - exists []. unfold throw. cbn [snd calls].
    split; [reflexivity|]. split; [simpl; lia | constructor].
Qed.

Lemma starts_with_call_then {A B} (req : FetchRequest) (n1 n2 : nat)
    (Q : FetchRequest -> Prop) (m : M W A) (k : A -> M W B) :
  starts_with_call fetchFn req n1 Q m ->
  (forall a, makes n2 Q (k a)) ->
  starts_with_call fetchFn req (n1 + n2) Q (bind m k).
Proof.
  intros Hm Hk w. unfold bind.
  destruct (Hm w) as (new1 & E1 & L1 & F1).
  destruct (m w) as [[a|e] w1]; cbn [snd] in E1.
  - destruct (Hk a w1) as (new2 & E2 & L2 & F2).
    exists (new1 ++ new2)%list. rewrite E2, E1, <- app_assoc.
    split; [reflexivity|]. split; [rewrite length_app; lia|].
    apply Forall_app. now split.
  - exists new1. cbn [snd]. split; [exact E1|]. split; [lia | exact F1].
Qed.

Lemma starts_with_call_makes {A} (req : FetchRequest) (n : nat)
    (Q : FetchRequest -> Prop) (m : M W A) :
  Q req -> starts_with_call fetchFn req n Q m -> makes (S n) Q m.
Proof.
  intros HQ Hm w. destruct (Hm w) as (new & E & L & F).
  exists ((req, fst (fetchFn req (net w))) :: new). split; [exact E|].
  split; [simpl; lia|]. now constructor.
Qed.

(** A read starts with the GET of the locator and makes at most one call
    more, the same GET, for the listing. *)
Lemma starts_readResource (uri : string) (includeContent : bool) :
  starts_with_call fetchFn
    (mkRequest (normalizeUrl uri (podUrl config)) "GET" (getAuthHeaders config) None)
    1
    (fun req => req = mkRequest (normalizeUrl uri (podUrl config)) "GET"
                        (getAuthHeaders config) None)
    (readResource fetchFn config uri includeContent).
Proof.
  unfold readResource. set (Q := fun req => req = _).
  apply starts_with_call_guarded.
  intros r. apply makes_if; [apply (makes_weaken 0 1 Q Q); auto; apply makes_throw|].
  apply (makes_bind 0 1).
  { apply makes_if; [|apply makes_ret].
    apply (makes_bind 0 0); [|intros; apply makes_ret].
    unfold isContainer.
    apply (makes_bind 0 0); [apply makes_lift | intros; apply makes_ret]. }
  intros [isC reads]. apply (makes_bind 0 1).
  { unfold getPermissions. apply (makes_try_catch 0 0);
      [apply makes_ret | intros; apply makes_ret]. }
  intros perms. apply (makes_bind 0 1).
  { apply makes_if; [|apply makes_ret].
    apply (makes_bind 0 0); [apply makes_lift | intros; apply makes_ret]. }
  intros content. apply (makes_bind 1 0); [|intros; apply makes_ret].
  apply makes_if; [|apply (makes_weaken 0 1 Q Q); auto; apply makes_ret].
  apply (makes_bind 1 0); [apply makes_listContainerContents | intros; apply makes_ret].
Qed.

Lemma makes_readResource (uri : string) (includeContent : bool) :
  makes 2
    (fun req => req = mkRequest (normalizeUrl uri (podUrl config)) "GET"
                        (getAuthHeaders config) None)
    (readResource fetchFn config uri includeContent).
Proof.
  eapply starts_with_call_makes; [|apply starts_readResource]. reflexivity.
Qed.

Lemma get_set_header_other (k k' v : string) (hs : list (string * string)) :
  k <> k' -> get_header k (set_header k' v hs) = get_header k hs.
Proof.
  intros Hk. induction hs as [|[k0 v0] hs IH]; simpl.
  - now rewrite (string_eqb_neq k k' Hk).
  - destruct (String.eqb k' k0) eqn:E; simpl.
    + apply String.eqb_eq in E. subst k0.
      now rewrite (string_eqb_neq k k' Hk).
    + destruct (String.eqb k k0); [reflexivity | exact IH].
Qed.

Lemma getAuthHeaders_credentials :
  get_header "Authorization" (getAuthHeaders config) = credentials config.
Proof.
  unfold getAuthHeaders, credentials.
  destruct (auth config) as [[[] [t|]]|]; simpl; try reflexivity;
    destruct (nonempty t); reflexivity.
Qed.

Lemma carries_auth_get (u m : string) :
  carries_auth config (mkRequest u m (getAuthHeaders config) None).
Proof. split; [apply getAuthHeaders_accept | apply getAuthHeaders_credentials]. Qed.

Lemma carries_auth_payload (u : string) (content : JSValue) (contentType : string) :
  carries_auth config
    (mkRequest u "PUT" (snd (write_payload config content contentType))
       (fst (write_payload config content contentType))).
Proof.
  assert (H : forall v, carries_auth config
                (mkRequest u "PUT"
                   (set_header "Content-Type" v (getAuthHeaders config)) None)).
  { intros v. split; simpl; rewrite get_set_header_other by discriminate;
      [apply getAuthHeaders_accept | apply getAuthHeaders_credentials]. }
  unfold write_payload. destruct content; simpl; try apply (H contentType);
    split; simpl; rewrite !get_set_header_other by discriminate;
    solve [apply getAuthHeaders_accept | apply getAuthHeaders_credentials].
Qed.

(** X8. Every operation starts with one call on its normalized locator,
    whatever the answer: the GET of a read, the DELETE of a deletion, the
    PUT of a write or of a creation.  A read makes at most one call more,
    the same GET; a deletion none; a write and a creation at most two
    more, both the GET of the read-back.  The read-back goes to the
    locator normalized once more: the same locator when it parses as a
    URL, and otherwise the locator with the base of the pod put before it
    a second time.  Each of these requests asks for the three accepted
    types and carries the credentials of the configuration: the bearer or
    DPoP token when there is one that is not empty, and no Authorization
    header for the cookie type or without a token. *)
Theorem operations_call_in_order
    (uri : string) (includeContent : bool) (content : JSValue) (contentType : string) :
  let target := normalizeUrl uri (podUrl config) in
  let again := normalizeUrl target (podUrl config) in
  let get (u : string) := mkRequest u "GET" (getAuthHeaders config) None in
  let remove := mkRequest target "DELETE" (getAuthHeaders config) None in
  let put := mkRequest target "PUT"
               (snd (write_payload config content contentType))
               (fst (write_payload config content contentType)) in
  let create := mkRequest target "PUT"
                  (set_header "Content-Type" "text/turtle"
                     (set_header "Link" LINK_BASIC_CONTAINER (getAuthHeaders config)))
                  None in
  starts_with_call fetchFn (get target) 1 (fun req => req = get target)
    (readResource fetchFn config uri includeContent) /\
  starts_with_call fetchFn remove 0 (fun _ => False)
    (deleteResource fetchFn config uri) /\
  starts_with_call fetchFn put 2 (fun req => req = get again)
    (writeResource fetchFn config uri content contentType) /\
  starts_with_call fetchFn create 2 (fun req => req = get again)
    (createContainer fetchFn config uri) /\
  (carries_auth config (get target) /\ carries_auth config (get again) /\
   carries_auth config remove /\ carries_auth config put /\
   carries_auth config create) /\
  (isValidUrl target = true -> again = target).
Proof.
  intros target again get remove put create.
  split; [apply starts_readResource|]. split; [|split; [|split; [|split]]].
  - unfold deleteResource. fold target. fold remove.
    apply starts_with_call_guarded.
    intros r. apply makes_if; [apply makes_throw | apply makes_ret].
  - unfold writeResource. fold target. unfold put.
    destruct (write_payload config content contentType) as [b h]. cbn [fst snd].
    eapply (starts_with_call_then _ 0 2).
    + apply starts_with_call_guarded.
      intros r. apply makes_if; [apply makes_throw | apply makes_ret].
    + intros _. apply makes_readResource.
  - unfold createContainer. fold target. fold create.
    eapply (starts_with_call_then _ 0 2).
    + apply starts_with_call_guarded.
      intros r. apply makes_if; [apply makes_throw | apply makes_ret].
    + intros _. apply makes_readResource.
  - split; [apply carries_auth_get|]. split; [apply carries_auth_get|].
    split; [apply carries_auth_get|]. split; [apply carries_auth_payload|].
    split; simpl; rewrite !get_set_header_other by discriminate;
      [apply getAuthHeaders_accept | apply getAuthHeaders_credentials].
  - unfold again, isValidUrl, normalizeUrl.
    destruct (URL_parse target); [reflexivity | discriminate].
Qed.

End WithTransport.

End CallFacts.

(* ================================================================== *)
(** ** lib/client.ts: outcomes of the operations *)
(* ================================================================== *)

Module ClientMore.
Import JS Types Utils Client JSFacts StringFacts Spec Props.
Import ClientFacts ContainerFacts CallFacts ScanMore.

Section WithTransport.
Context {P : Platform} {W : Type}.
Variable fetchFn : FetchRequest -> W -> FetchResult * W.
Variable config : SolidPodConfig.

Lemma rethrow_inv {A} (m : M W A) (f : Thrown -> Thrown) (w : World W) (e : Thrown) :
  fst (try_catch m (fun error => throw (f error)) w) = Exn e -> exists e0, e = f e0.
Proof.
  unfold try_catch, throw. destruct (m w) as [[a|e0] w1]; simpl; [discriminate|].
  intros [= <-]. eauto.
Qed.

Lemma readResource_throws (uri : string) (includeContent : bool) (w : World W)
    (e : Thrown) :
  fst (readResource fetchFn config uri includeContent w) = Exn e ->
  exists m, e = ErrorObj ("Error reading resource "
                          ++ normalizeUrl uri (podUrl config) ++ ": " ++ m).
Proof.
  unfold readResource. intros H. apply rethrow_inv in H.
  destruct H as [e0 ->]. eauto.
Qed.

(** X9. Whatever an operation throws is an error whose message names the
    operation and the locator.  A write or a creation that fails says
    either that the writing (the creating) failed or, when the PUT went
    through, that the reading back did. *)
Theorem failures_name_the_operation
    (uri : string) (includeContent : bool) (content : JSValue) (contentType : string)
    (w : World W) (e : Thrown) :
  let target := normalizeUrl uri (podUrl config) in
  let again := normalizeUrl target (podUrl config) in
  (fst (readResource fetchFn config uri includeContent w) = Exn e ->
   exists m, e = ErrorObj ("Error reading resource " ++ target ++ ": " ++ m)) /\
  (fst (deleteResource fetchFn config uri w) = Exn e ->
   exists m, e = ErrorObj ("Error deleting resource " ++ target ++ ": " ++ m)) /\
  (fst (writeResource fetchFn config uri content contentType w) = Exn e ->
   exists m, e = ErrorObj ("Error writing resource " ++ target ++ ": " ++ m) \/
             e = ErrorObj ("Error reading resource " ++ again ++ ": " ++ m)) /\
  (fst (createContainer fetchFn config uri w) = Exn e ->
   exists m, e = ErrorObj ("Error creating container " ++ target ++ ": " ++ m) \/
             e = ErrorObj ("Error reading resource " ++ again ++ ": " ++ m)).
Proof.
  intros target again. split; [apply readResource_throws|]. split; [|split].
  - unfold deleteResource. intros H. apply rethrow_inv in H.
    destruct H as [e0 ->]. eauto.
  - unfold writeResource, bind. fold target.
    destruct (write_payload config content contentType) as [b h].
    match goal with |- context [try_catch ?m ?h w] =>
      pose proof (rethrow_inv m
        (fun error => ErrorObj ("Error writing resource " ++ target ++ ": "
                                ++ error_message error)) w) as R;
      destruct (try_catch m h w) as [[a|e0] w1] end.
    + cbn [fst]. intros H. destruct (readResource_throws _ _ _ _ H) as [m ->].
      exists m. now right.
    + cbn [fst]. intros [= <-]. destruct (R e0 eq_refl) as [e1 ->].
      exists (error_message e1). now left.
  - unfold createContainer, bind. fold target.
    match goal with |- context [try_catch ?m ?h w] =>
      pose proof (rethrow_inv m
        (fun error => ErrorObj ("Error creating container " ++ target ++ ": "
                                ++ error_message error)) w) as R;
      destruct (try_catch m h w) as [[a|e0] w1] end.
    + cbn [fst]. intros H. destruct (readResource_throws _ _ _ _ H) as [m ->].
      exists m. now right.
    + cbn [fst]. intros [= <-]. destruct (R e0 eq_refl) as [e1 ->].
      exists (error_message e1). now left.
Qed.

(** X10. A first call that is rejected, or answered outside the 2xx range,
    ends the operation: it throws an error that names the operation, the
    locator and the reason (the message of the rejection, or the status
    code and text), and no other call is made; after a failed PUT nothing
    is read back. *)
Theorem first_call_failure_stops
    (uri : string) (includeContent : bool) (content : JSValue) (contentType : string)
    (w : World W) :
  let target := normalizeUrl uri (podUrl config) in
  stopped_by fetchFn w (mkRequest target "GET" (getAuthHeaders config) None)
    "Error reading resource " "read resource"
    (readResource fetchFn config uri includeContent w) /\
  stopped_by fetchFn w
    (mkRequest target "PUT" (snd (write_payload config content contentType))
       (fst (write_payload config content contentType)))
    "Error writing resource " "write resource"
    (writeResource fetchFn config uri content contentType w) /\
  stopped_by fetchFn w (mkRequest target "DELETE" (getAuthHeaders config) None)
    "Error deleting resource " "delete resource"
    (deleteResource fetchFn config uri w) /\
  stopped_by fetchFn w
    (mkRequest target "PUT"
       (set_header "Content-Type" "text/turtle"
          (set_header "Link" LINK_BASIC_CONTAINER (getAuthHeaders config)))
       None)
    "Error creating container " "create container"
    (createContainer fetchFn config uri w).
Proof.
  intros target. unfold stopped_by, failure_of.
  split; [|split; [|split]]; intros m.
  - unfold readResource, try_catch, bind, call_fetch. fold target.
    destruct (fetchFn _ (net w)) as [[r|x] n1]; cbn [fst snd]; cbv beta match zeta.
    + destruct (ok r); [discriminate|]. intros [= <-].
      cbv beta match zeta delta [negb throw]. reflexivity.
    + intros [= <-]. reflexivity.
  - unfold writeResource, try_catch, bind, call_fetch. fold target.
    destruct (write_payload config content contentType) as [b h].
    simpl fst; simpl snd.
    destruct (fetchFn _ (net w)) as [[r|x] n1]; cbn [fst snd]; cbv beta match zeta.
    + destruct (ok r); [discriminate|]. intros [= <-].
      cbv beta match zeta delta [negb throw]. reflexivity.
    + intros [= <-]. reflexivity.
  - unfold deleteResource, try_catch, bind, call_fetch. fold target.
    destruct (fetchFn _ (net w)) as [[r|x] n1]; cbn [fst snd]; cbv beta match zeta.
    + destruct (ok r); [discriminate|]. intros [= <-].
      cbv beta match zeta delta [negb throw]. reflexivity.
    + intros [= <-]. reflexivity.
  - unfold createContainer, try_catch, bind, call_fetch. fold target.
    destruct (fetchFn _ (net w)) as [[r|x] n1]; cbn [fst snd]; cbv beta match zeta.
    + destruct (ok r); [discriminate|]. intros [= <-].
      cbv beta match zeta delta [negb throw]. reflexivity.
    + intros [= <-]. reflexivity.
Qed.

(** X11. After a PUT that is answered in the 2xx range a write is the read,
    with its content, of the locator it wrote: it returns what that read
    returns and fails as that read fails.  The read-back normalizes the
    locator once more, which leaves a locator that parses as it is. *)
Theorem writeResource_put_then_read
    (uri : string) (content : JSValue) (contentType : string)
    (w : World W) (r : Response) (n1 : W) :
  let target := normalizeUrl uri (podUrl config) in
  let put := mkRequest target "PUT" (snd (write_payload config content contentType))
               (fst (write_payload config content contentType)) in
  fetchFn put (net w) = (Resolved r, n1) -> ok r = true ->
  writeResource fetchFn config uri content contentType w
  = readResource fetchFn config target true
      (mkWorld n1 (calls w ++ [(put, Resolved r)])%list) /\
  (isValidUrl target = true -> normalizeUrl target (podUrl config) = target).
Proof.
  intros target put F Hok. split.
  - unfold writeResource, try_catch, bind. fold target. revert F. unfold put.
    destruct (write_payload config content contentType) as [b h].
    simpl fst; simpl snd. intros F.
    rewrite (call_fetch_resolved fetchFn _ w r n1 F). cbv beta match.
    rewrite Hok. reflexivity.
  - unfold isValidUrl, normalizeUrl.
    destruct (URL_parse target); [reflexivity | discriminate].
Qed.

(** X12. The first call of a creation is a PUT of the locator without a
    body, which declares the basic container type in its Link header and
    Turtle as its Content-Type; after a 2xx answer the creation is the
    read, with its content, of that locator. *)
Theorem createContainer_put_then_read (uri : string) (w : World W) :
  let target := normalizeUrl uri (podUrl config) in
  exists put res rest,
    calls (snd (createContainer fetchFn config uri w))
      = (calls w ++ (put, res) :: rest)%list /\
    fst (fetchFn put (net w)) = res /\
    url put = target /\ method put = "PUT" /\ body put = None /\
    get_header "Link" (headers put) = Some LINK_BASIC_CONTAINER /\
    get_header "Content-Type" (headers put) = Some "text/turtle" /\
    (forall r, res = Resolved r -> ok r = true ->
       createContainer fetchFn config uri w
       = readResource fetchFn config target true
           (mkWorld (snd (fetchFn put (net w)))
              (calls w ++ [(put, Resolved r)])%list)).
Proof.
  intros target.
  set (put := mkRequest target "PUT"
                (set_header "Content-Type" "text/turtle"
                   (set_header "Link" LINK_BASIC_CONTAINER (getAuthHeaders config)))
                None).
  exists put, (fst (fetchFn put (net w))).
  assert (Hh : get_header "Link" (headers put) = Some LINK_BASIC_CONTAINER /\
               get_header "Content-Type" (headers put) = Some "text/turtle").
  { split; simpl.
    - rewrite get_set_header_other by discriminate. apply get_set_header.
    - apply get_set_header. }
  unfold createContainer, try_catch, bind, call_fetch. fold target. fold put.
  destruct (fetchFn put (net w)) as [[r|x] n1] eqn:F; cbv beta match zeta;
    simpl fst; simpl snd.
  - destruct (ok r) eqn:Hok; cbv beta match delta [negb ret throw].
    + destruct (surfaces_readResource fetchFn config target true
                  (mkWorld n1 (calls w ++ [(put, Resolved r)])%list))
        as (new & E & _).
      exists new. rewrite E. simpl calls. rewrite <- app_assoc.
      split; [reflexivity|]. split; [reflexivity|].
      split; [reflexivity|]. split; [reflexivity|]. split; [reflexivity|].
      split; [apply Hh|]. split; [apply Hh|].
      intros r0 [= <-] _. reflexivity.
    + exists []. simpl calls.
      split; [reflexivity|]. split; [reflexivity|].
      split; [reflexivity|]. split; [reflexivity|]. split; [reflexivity|].
      split; [apply Hh|]. split; [apply Hh|].
      intros r0 [= <-] Hok'. congruence.
  - exists []. simpl calls.
    split; [reflexivity|]. split; [reflexivity|].
    split; [reflexivity|]. split; [reflexivity|]. split; [reflexivity|].
    split; [apply Hh|]. split; [apply Hh|].
    intros r0 [=].
Qed.

Lemma listContainerContents_value_inv (u : string) (w0 w1 : World W)
    (cs : list SolidResource) :
  listContainerContents fetchFn config u w0 = (Val cs, w1) ->
  (exists payload, cs = parseResourceMetadata payload u) /\
  length (calls w1) = S (length (calls w0)).
Proof.
  unfold listContainerContents, try_catch, bind, call_fetch.
  destruct (fetchFn _ (net w0)) as [[r|x] n1]; cbv beta match zeta;
    [|unfold throw; discriminate].
  destruct (ok r); cbv beta match delta [negb]; [|unfold throw; discriminate].
  unfold lift, ret, throw.
  destruct (text r 0) as [payload|x]; [|discriminate].
  intros [= <- <-]. split; [eauto|].
  cbn [calls]. rewrite length_app. simpl. lia.
Qed.

(** X13. What a read returns describes the locator it read: the locator
    after normalization, the declared type, date and length of the
    response (the first two empty when the header is missing, the length
    as [parseInt] reads it, the nearest double), and the
    placeholder for the permissions, which grants reading, writing and
    appending but not control whatever the pod would allow.  The content
    is there exactly when it was asked for, the children exactly when the
    resource is typed as a container, and the container is not among
    them.  A read that returns has made one call, or two for a
    container. *)
Theorem readResource_descriptor
    (uri : string) (includeContent : bool) (w w' : World W)
    (v : SolidResourceResponse) :
  let target := normalizeUrl uri (podUrl config) in
  let req := mkRequest target "GET" (getAuthHeaders config) None in
  readResource fetchFn config uri includeContent w = (Val v, w') ->
  exists r,
    fst (fetchFn req (net w)) = Resolved r /\
    Types.uri (resource v) = target /\
    contentType (resource v) = Some (or_empty (headers_get r "Content-Type")) /\
    modified (resource v) = Some (or_empty (headers_get r "Last-Modified")) /\
    size (resource v)
    = match headers_get r "Content-Length" with
      | Some l => if nonempty l then Some (parseInt10 l) else None
      | None => None
      end /\
    permissions (resource v) = Some PLACEHOLDER /\
    (content v = None <-> includeContent = false) /\
    (children v = None <-> type (resource v) = Resource) /\
    (forall cs, children v = Some cs -> Forall (child_shaped target) cs) /\
    length (calls w')
    = length (calls w) + match type (resource v) with
                         | Container => 2
                         | Resource => 1
                         end.
Proof.
  intros target req.
  unfold readResource, try_catch, bind. fold target. fold req.
  unfold call_fetch at 1.
  destruct (fetchFn req (net w)) as [[r|x] n1] eqn:F; cbv beta match zeta;
    [|unfold throw; discriminate].
  destruct (ok r) eqn:Hok; cbv beta match delta [negb];
    [|unfold throw; discriminate].
  set (declared := or_empty (headers_get r "Content-Type")).
  unfold getPermissions, try_catch, isContainer, bind, lift, ret, throw.
  assert (Hlen : length (calls w ++ [(req, Resolved r)])%list = length (calls w) + 1).
  { rewrite length_app. reflexivity. }
  assert (Hshaped : forall payload,
            Forall (child_shaped target) (parseResourceMetadata payload target)).
  { intros payload. unfold parseResourceMetadata.
    apply scan_lines_shaped. constructor. }
  assert (Done : forall (t : ResourceType) (c : option JSValue)
                   (cs : option (list SolidResource)) (w1 : World W),
            (c = None <-> includeContent = false) ->
            (cs = None <-> t = Resource) ->
            (forall l, cs = Some l -> Forall (child_shaped target) l) ->
            length (calls w1)
            = length (calls w) + match t with Container => 2 | Resource => 1 end ->
            forall v0 w0,
              (Val (mkResponseOf
                      (mkResource target t (Some declared)
                         (Some (or_empty (headers_get r "Last-Modified")))
                         match headers_get r "Content-Length" with
                         | Some l => if nonempty l then Some (parseInt10 l) else None
                         | None => None
                         end (Some (mkPermissions true true true false)))
                      c cs), w1) = (Val v0, w0) ->
              exists r0,
                Resolved r = Resolved r0 /\
                Types.uri (resource v0) = target /\
                contentType (resource v0)
                = Some (or_empty (headers_get r0 "Content-Type")) /\
                modified (resource v0)
                = Some (or_empty (headers_get r0 "Last-Modified")) /\
                size (resource v0)
                = match headers_get r0 "Content-Length" with
                  | Some l => if nonempty l then Some (parseInt10 l) else None
                  | None => None
                  end /\
                permissions (resource v0) = Some PLACEHOLDER /\
                (content v0 = None <-> includeContent = false) /\
                (children v0 = None <-> type (resource v0) = Resource) /\
                (forall l, children v0 = Some l -> Forall (child_shaped target) l) /\
                length (calls w0)
                = length (calls w) + match type (resource v0) with
                                     | Container => 2
                                     | Resource => 1
                                     end).
  { intros t c cs w1 Hc Hcs Hl Hn v0 w0 [= <- <-]. exists r.
    cbn [resource content children Types.uri contentType modified size
         permissions type].
    split; [reflexivity|]. split; [reflexivity|]. split; [reflexivity|].
    split; [reflexivity|]. split; [reflexivity|]. split; [reflexivity|].
    split; [exact Hc|]. split; [exact Hcs|]. split; [exact Hl | exact Hn]. }
  cbn [fst].
  destruct (includes declared "text/turtle").
  - destruct (text r 0) as [payload|x]; [|discriminate].
    cbv beta match.
    destruct includeContent.
    + destruct (decode_content r declared 1) as [c|x]; [|discriminate].
      cbv beta match.
      destruct (includes payload LDP_CONTAINER).
      * destruct (listContainerContents fetchFn config target _) as [[cs|x] w1] eqn:L;
          [|discriminate].
        destruct (listContainerContents_value_inv _ _ _ _ L) as ([p ->] & Hn).
        apply Done.
        -- split; discriminate.
        -- split; discriminate.
        -- intros l [= <-]. apply Hshaped.
        -- rewrite Hn. cbn [calls]. rewrite Hlen. lia.
      * apply Done.
        -- split; discriminate.
        -- split; reflexivity.
        -- discriminate.
        -- cbn [calls]. exact Hlen.
    + cbv beta match.
      destruct (includes payload LDP_CONTAINER).
      * destruct (listContainerContents fetchFn config target _) as [[cs|x] w1] eqn:L;
          [|discriminate].
        destruct (listContainerContents_value_inv _ _ _ _ L) as ([p ->] & Hn).
        apply Done.
        -- split; reflexivity.
        -- split; discriminate.
        -- intros l [= <-]. apply Hshaped.
        -- rewrite Hn. cbn [calls]. rewrite Hlen. lia.
      * apply Done.
        -- split; reflexivity.
        -- split; reflexivity.
        -- discriminate.
        -- cbn [calls]. exact Hlen.
  - cbv beta match.
    destruct includeContent.
    + destruct (decode_content r declared 0) as [c|x]; [|discriminate].
      cbv beta match. apply Done.
      * split; discriminate.
      * split; reflexivity.
      * discriminate.
      * cbn [calls]. exact Hlen.
    + cbv beta match. apply Done.
      * split; reflexivity.
      * split; reflexivity.
      * discriminate.
      * cbn [calls]. exact Hlen.
Qed.

(** X14. A write whose PUT is answered in the 2xx range and whose
    read-back is answered with a type other than Turtle makes exactly the
    two calls, the PUT and the GET.  What it returns is typed as a plain
    resource without children, and its content is the body the pod served
    on the read-back, decoded by the type the pod declared: not the
    content that was passed in. *)
Theorem writeResource_returns_read_back
    (uri : string) (content : JSValue) (contentType : string)
    (w : World W) (r r2 : Response) (n1 n2 : W) (c : JSValue) :
  let target := normalizeUrl uri (podUrl config) in
  let put := mkRequest target "PUT" (snd (write_payload config content contentType))
               (fst (write_payload config content contentType)) in
  let get := mkRequest (normalizeUrl target (podUrl config)) "GET"
               (getAuthHeaders config) None in
  let declared := or_empty (headers_get r2 "Content-Type") in
  fetchFn put (net w) = (Resolved r, n1) -> ok r = true ->
  fetchFn get n1 = (Resolved r2, n2) -> ok r2 = true ->
  includes declared "text/turtle" = false ->
  decode_content r2 declared 0 = Val c ->
  exists v,
    writeResource fetchFn config uri content contentType w
    = (Val v, mkWorld n2 (calls w ++ [(put, Resolved r); (get, Resolved r2)])%list) /\
    Client.content v = Some c /\
    type (resource v) = Resource /\
    children v = None /\
    Types.uri (resource v) = url get.
Proof.
  intros target put get declared F Hok F2 Hok2 Plain Dec.
  unfold writeResource, try_catch, bind. fold target. revert F. unfold put.
  destruct (write_payload config content contentType) as [b h].
  cbn [fst snd]. intros F.
  rewrite (call_fetch_resolved fetchFn _ w r n1 F). cbv beta match.
  rewrite Hok. cbv beta match delta [negb ret].
  unfold readResource, try_catch, bind. fold get.
  rewrite (call_fetch_resolved fetchFn get (mkWorld n1 _) r2 n2 F2). cbv beta match.
  rewrite Hok2. cbv beta match delta [negb]. fold declared. rewrite Plain.
  unfold ret, getPermissions, try_catch, ret, lift. cbv beta match.
  rewrite Dec. cbv beta match. eexists. split.
  - cbn [calls]. rewrite <- app_assoc. reflexivity.
  - cbn [resource Client.content children type Types.uri url].
    split; [reflexivity|]. split; [reflexivity|]. split; reflexivity.
Qed.

(** X15. Over a response whose body can be read once, as the Fetch
    standard has it, a write or a creation whose read-back is answered
    with Turtle fails although its PUT went through: both calls are made,
    the resource is stored, and the caller is told that reading it
    failed. *)
Theorem turtle_read_back_fails_after_put
    (uri : string) (content : JSValue) (contentType : string)
    (w : World W) (r r2 : Response) (n1 n2 : W) :
  let target := normalizeUrl uri (podUrl config) in
  let again := normalizeUrl target (podUrl config) in
  let write := mkRequest target "PUT" (snd (write_payload config content contentType))
                 (fst (write_payload config content contentType)) in
  let create := mkRequest target "PUT"
                  (set_header "Content-Type" "text/turtle"
                     (set_header "Link" LINK_BASIC_CONTAINER (getAuthHeaders config)))
                  None in
  let get := mkRequest again "GET" (getAuthHeaders config) None in
  ok r = true ->
  fetchFn get n1 = (Resolved r2, n2) ->
  includes (or_empty (headers_get r2 "Content-Type")) "text/turtle" = true ->
  single_use r2 ->
  (fetchFn write (net w) = (Resolved r, n1) ->
   exists m,
     writeResource fetchFn config uri content contentType w
     = (Exn (ErrorObj ("Error reading resource " ++ again ++ ": " ++ m)),
        mkWorld n2 (calls w ++ [(write, Resolved r); (get, Resolved r2)])%list)) /\
  (fetchFn create (net w) = (Resolved r, n1) ->
   exists m,
     createContainer fetchFn config uri w
     = (Exn (ErrorObj ("Error reading resource " ++ again ++ ": " ++ m)),
        mkWorld n2 (calls w ++ [(create, Resolved r); (get, Resolved r2)])%list)).
Proof.
  intros target again write create get Hok F2 Turtle Once.
  assert (Hread : forall w0, net w0 = n1 ->
            exists m,
              readResource fetchFn config target true w0
              = (Exn (ErrorObj ("Error reading resource " ++ again ++ ": " ++ m)),
                 mkWorld n2 (calls w0 ++ [(get, Resolved r2)])%list)).
  { intros w0 Hn. rewrite <- Hn in F2.
    destruct (readResource_turtle_body_used fetchFn config target w0 r2 n2
                F2 Turtle Once) as [e He].
    assert (Hf : fst (readResource fetchFn config target true w0) = Exn e)
      by now rewrite He.
    destruct (readResource_throws _ _ _ _ Hf) as [m ->].
    exists m. exact He. }
  split; intros F.
  - unfold writeResource, try_catch, bind. fold target. revert F. unfold write.
    destruct (write_payload config content contentType) as [b h].
    cbn [fst snd]. intros F.
    rewrite (call_fetch_resolved fetchFn _ w r n1 F). cbv beta match.
    rewrite Hok. cbv beta match delta [negb ret].
    destruct (Hread (mkWorld n1 (calls w ++ [(mkRequest target "PUT" h b, Resolved r)])%list)
                eq_refl) as [m Hm].
    exists m. rewrite Hm. cbn [calls]. now rewrite <- app_assoc.
  - unfold createContainer, try_catch, bind. fold target. fold create.
    rewrite (call_fetch_resolved fetchFn _ w r n1 F). cbv beta match.
    rewrite Hok. cbv beta match delta [negb ret].
    destruct (Hread (mkWorld n1 (calls w ++ [(create, Resolved r)])%list)
                eq_refl) as [m Hm].
    exists m. rewrite Hm. cbn [calls]. now rewrite <- app_assoc.
Qed.

End WithTransport.

End ClientMore.

(* ================================================================== *)
(** ** lib/server.ts: the search *)
(* ================================================================== *)

Module SearchMore.
Import JS Types Utils Client Server JSFacts StringFacts Spec Props.
Import ClientFacts DispatchFacts SearchFacts.

Section WithTransport.
Context {P : Platform} {W : Type}.
Variable fetchFn : FetchRequest -> W -> FetchResult * W.
Variable config : SolidPodConfig.

(** A search that answers with hits has read the container and walked its
    children. *)
Lemma searchResources_inv (fuel : nat) (containerUri searchTerm : JSValue)
    (recursive : bool) (w w' : World W) (hits : list SearchHit) :
  searchResources fetchFn config (S fuel) containerUri searchTerm recursive w
  = Some (Val hits, w') ->
  hits = [] \/
  exists u result w1 cs term,
    arg_uri containerUri = Val u /\
    readResource fetchFn config u false w = (Val result, w1) /\
    children result = Some cs /\
    searchTerm = JString term /\
    search_children
      (fun u' => searchResources fetchFn config fuel (JString u') searchTerm recursive)
      (toLowerCase term) recursive cs [] w1 = Some (Val hits, w').
Proof.
  simpl. unfold try_catchF, bindF, liftT, liftM, retF.
  destruct (arg_uri containerUri) as [u|e]; [|intros [= <- _]; now left].
  destruct (readResource fetchFn config u false w) as [[result|e] w1] eqn:R;
    [|intros [= <- _]; now left].
  destruct (children result) as [[|c cs]|] eqn:C; try (intros [= <- _]; now left).
  destruct (arg_lower searchTerm) as [lower|e] eqn:L; [|intros [= <- _]; now left].
  destruct searchTerm as [| |b|n|term|l|l|s]; try discriminate L.
  injection L as <-.
  match goal with
  | |- match ?m with _ => _ end = _ -> _ => destruct m as [[[h|x] w2]|] eqn:S
  end; [|intros [= <- _]; now left | discriminate].
  intros [= <- <-]. right. exists u, result, w1, (c :: cs), term. auto.
Qed.

Lemma search_children_sound (recurse : string -> MF (W:=W) (list SearchHit))
    (term : string) (recursive : bool) (cs : list SolidResource) :
  (forall u w hits w', recurse u w = Some (Val hits, w') ->
     Forall (sound_hit (JString term)) hits) ->
  forall acc w hits w',
    Forall (sound_hit (JString term)) acc ->
    search_children recurse (toLowerCase term) recursive cs acc w
    = Some (Val hits, w') ->
    Forall (sound_hit (JString term)) hits.
Proof.
  intros Hrec. induction cs as [|c cs IH]; intros acc w hits w' Hacc.
  - rewrite search_children_nil. now intros [= <- _].
  - rewrite search_children_cons.
    destruct (getFilenameFromUrl (uri c)) as [filename|e] eqn:F; [|discriminate].
    cbv beta zeta.
    assert (Hfound : Forall (sound_hit (JString term))
              (if includes (toLowerCase filename) (toLowerCase term)
               then (acc ++ [mkHit c RELEVANCE])%list else acc)).
    { destruct (includes (toLowerCase filename) (toLowerCase term)) eqn:M;
        [|exact Hacc].
      apply Forall_app. split; [exact Hacc|]. constructor; [|constructor].
      split; [reflexivity|]. exists term. split; [reflexivity|].
      exists filename. auto. }
    destruct (recursive && is_container c).
    + destruct (recurse (uri c) w) as [[[sub|e] w1]|] eqn:R; try discriminate.
      apply IH. apply Forall_app. split; [exact Hfound|].
      exact (Hrec _ _ _ _ R).
    + apply IH. exact Hfound.
Qed.

(** X16. Every hit of a search carries the relevance 0.8 and the file name
    of its locator contains the search term, case ignored; so a search
    with a term that is not a string has no hits.  This holds at any depth
    of the recursion and whatever the pod answers. *)
Theorem searchResources_hits_match (fuel : nat) (containerUri searchTerm : JSValue)
    (recursive : bool) (w w' : World W) (hits : list SearchHit) :
  searchResources fetchFn config fuel containerUri searchTerm recursive w
  = Some (Val hits, w') ->
  Forall (sound_hit searchTerm) hits.
Proof.
  revert containerUri w w' hits.
  induction fuel as [|fuel IH]; intros containerUri w w' hits; [discriminate|].
  intros H. apply searchResources_inv in H.
  destruct H as [-> | (u & result & w1 & cs & term & _ & _ & _ & -> & S)];
    [constructor|].
  eapply search_children_sound; [|constructor|exact S].
  intros u' w0 hits0 w0' R. exact (IH _ _ _ _ R).
Qed.

Lemma search_children_ext (rec1 rec2 : string -> MF (W:=W) (list SearchHit))
    (lower : string) (recursive : bool) (cs : list SolidResource) :
  (forall u w, rec1 u w = rec2 u w) ->
  forall acc w,
    search_children rec1 lower recursive cs acc w
    = search_children rec2 lower recursive cs acc w.
Proof.
  intros Hrec. induction cs as [|c cs IH]; intros acc w; [reflexivity|].
  rewrite !search_children_cons.
  destruct (getFilenameFromUrl (uri c)) as [filename|e]; [|reflexivity].
  cbv beta zeta. destruct (recursive && is_container c); [|apply IH].
  rewrite Hrec. destruct (rec2 (uri c) w) as [[[sub|e] w1]|]; try reflexivity.
  apply IH.
Qed.

(** X17. The search does not tell the case of its term: two terms with the
    same lower-case form get the same answer, after the same calls. *)
Theorem searchResources_ignores_case (fuel : nat) (containerUri : JSValue)
    (term1 term2 : string) (recursive : bool) (w : World W) :
  toLowerCase term1 = toLowerCase term2 ->
  searchResources fetchFn config fuel containerUri (JString term1) recursive w
  = searchResources fetchFn config fuel containerUri (JString term2) recursive w.
Proof.
  intros Hlow. revert containerUri w.
  induction fuel as [|fuel IH]; intros containerUri w; [reflexivity|].
  simpl. unfold try_catchF, bindF, liftT, liftM, retF.
  destruct (arg_uri containerUri) as [u|e]; [|reflexivity].
  destruct (readResource fetchFn config u false w) as [[result|e] w1];
    [|reflexivity].
  destruct (children result) as [[|c cs]|]; try reflexivity.
  rewrite Hlow.
  rewrite (search_children_ext
             (fun u' => searchResources fetchFn config fuel (JString u')
                          (JString term1) recursive)
             (fun u' => searchResources fetchFn config fuel (JString u')
                          (JString term2) recursive)
             (toLowerCase term2) recursive (c :: cs)
             (fun u' w0 => IH (JString u') w0)).
  reflexivity.
Qed.

(** X18. A search that is not recursive always settles, on the first level
    of fuel, and never throws; its calls are those of the one read of the
    container, without content, and none when the container argument is
    not a locator.  Whether the pod links back on itself does not
    matter. *)
Theorem search_flat_reads_once (fuel : nat) (containerUri searchTerm : JSValue)
    (w : World W) :
  exists hits,
    searchResources fetchFn config (S fuel) containerUri searchTerm false w
    = Some (Val hits,
            match arg_uri containerUri with
            | Val u => snd (readResource fetchFn config u false w)
            | Exn _ => w
            end).
Proof.
  simpl. unfold try_catchF, bindF, liftT, liftM, retF.
  destruct (arg_uri containerUri) as [u|e]; [|eexists; reflexivity].
  destruct (readResource fetchFn config u false w) as [[result|e] w1];
    [|eexists; reflexivity].
  destruct (children result) as [[|c cs]|]; try (eexists; reflexivity).
  destruct (arg_lower searchTerm) as [lower|e]; [|eexists; reflexivity].
  destruct (search_children_flat
              (fun u' => searchResources fetchFn config fuel (JString u')
                           searchTerm false)
              lower (c :: cs) [] w1) as [[hits|e] ->]; eexists; reflexivity.
Qed.

Lemma includes_empty (s : string) : includes s EmptyString = true.
Proof. destruct s; reflexivity. Qed.

Lemma search_children_all (recurse : string -> MF (W:=W) (list SearchHit))
    (cs : list SolidResource) (acc : list SearchHit) (w : World W) :
  Forall (fun c => isValidUrl (uri c) = true) cs ->
  search_children recurse EmptyString false cs acc w
  = Some (Val (acc ++ map (fun c => mkHit c RELEVANCE) cs)%list, w).
Proof.
  intros H. revert acc. induction H as [|c cs Hc _ IH]; intros acc.
  - rewrite search_children_nil, app_nil_r. reflexivity.
  - rewrite search_children_cons.
    unfold isValidUrl in Hc. unfold getFilenameFromUrl.
    destruct (URL_parse (uri c)) as [o|]; [|discriminate].
    assert (E : exists filename,
              match last_part (split "/" (pathname o)) with
              | Some p => Val p
              | None => Val EmptyString
              end = Val (A:=string) filename).
    { destruct (last_part (split "/" (pathname o))); eauto. }
    destruct E as [filename ->]. cbv beta zeta match.
    rewrite includes_empty. simpl andb. cbv match.
    rewrite IH. simpl map. now rewrite <- app_assoc.
Qed.

(** X19. With the empty term a search that is not recursive returns every
    child of the container, in the order of the listing, each with the
    relevance 0.8, provided the locator of every child parses. *)
Theorem search_empty_term_lists_children
    (fuel : nat) (u : string) (w w1 : World W) (result : SolidResourceResponse)
    (cs : list SolidResource) :
  readResource fetchFn config u false w = (Val result, w1) ->
  children result = Some cs ->
  Forall (fun c => isValidUrl (uri c) = true) cs ->
  searchResources fetchFn config (S fuel) (JString u) (JString EmptyString) false w
  = Some (Val (map (fun c => mkHit c RELEVANCE) cs), w1).
Proof.
  intros R C Hcs. rewrite searchResources_step, R, C.
  destruct cs as [|c cs]; [reflexivity|].
  change (arg_lower (JString EmptyString)) with (Val (A:=string) EmptyString).
  cbv match. rewrite (search_children_all _ (c :: cs) [] w1 Hcs). reflexivity.
Qed.

Lemma search_children_unparsed (recurse : string -> MF (W:=W) (list SearchHit))
    (lower : string) (recursive : bool) (cs : list SolidResource) (c : SolidResource) :
  In c cs -> isValidUrl (uri c) = false ->
  forall acc w hits w',
    search_children recurse lower recursive cs acc w <> Some (Val hits, w').
Proof.
  intros Hin Hbad. induction cs as [|c0 cs IH]; [contradiction|].
  intros acc w hits w'. rewrite search_children_cons.
  destruct Hin as [-> | Hin].
  - unfold isValidUrl in Hbad. unfold getFilenameFromUrl.
    destruct (URL_parse (uri c)); discriminate.
  - destruct (getFilenameFromUrl (uri c0)) as [filename|e]; [|discriminate].
    cbv beta zeta. destruct (recursive && is_container c0); [|now apply IH].
    destruct (recurse (uri c0) w) as [[[sub|e] w1]|]; try discriminate.
    now apply IH.
Qed.

(** X20. One child whose locator does not parse empties the result for its
    container: the search answers with no hits at all, also for the
    children that match, and reports no error.  When the search is not
    recursive the answer comes after the one read. *)
Theorem search_unparsed_child_empties
    (fuel : nat) (u : string) (searchTerm : JSValue) (recursive : bool)
    (w w1 : World W) (result : SolidResourceResponse)
    (cs : list SolidResource) (c : SolidResource) :
  readResource fetchFn config u false w = (Val result, w1) ->
  children result = Some cs ->
  In c cs -> isValidUrl (uri c) = false ->
  (forall res,
     searchResources fetchFn config (S fuel) (JString u) searchTerm recursive w
     = Some res -> fst res = Val []) /\
  (recursive = false ->
   searchResources fetchFn config (S fuel) (JString u) searchTerm recursive w
   = Some (Val [], w1)).
Proof.
  intros R C Hin Hbad.
  assert (Hall : forall res,
     searchResources fetchFn config (S fuel) (JString u) searchTerm recursive w
     = Some res -> fst res = Val []).
  { intros res. rewrite searchResources_step, R, C.
    destruct cs as [|c0 cs]; [contradiction|].
    destruct (arg_lower searchTerm) as [lower|e]; [|now intros [= <-]].
    pose proof (search_children_unparsed
                  (fun u' => searchResources fetchFn config fuel (JString u')
                               searchTerm recursive)
                  lower recursive (c0 :: cs) c Hin Hbad [] w1) as N.
    destruct (search_children _ lower recursive (c0 :: cs) [] w1)
      as [[[hits|e] w2]|]; [|now intros [= <-] | discriminate].
    now contradiction (N hits w2). }
  split; [exact Hall|].
  intros ->. rewrite searchResources_step, R, C.
  destruct cs as [|c0 cs]; [contradiction|].
  destruct (arg_lower searchTerm) as [lower|e]; [|reflexivity].
  destruct (search_children_flat
              (fun u' => searchResources fetchFn config fuel (JString u')
                           searchTerm false)
              lower (c0 :: cs) [] w1) as [t Ht].
  rewrite Ht. destruct t as [hits|e]; [|reflexivity].
  exfalso. exact (search_children_unparsed _ lower false (c0 :: cs) c
                    Hin Hbad [] w1 hits w1 Ht).
Qed.

End WithTransport.

End SearchMore.

(* ================================================================== *)
(** ** lib/server.ts: the tools behind the dispatcher *)
(* ================================================================== *)

Module ToolFacts.
Import JS Types Utils Client Server Service JSFacts StringFacts Spec Props.
Import ClientFacts DispatchFacts SearchFacts CallFacts ClientMore.

Section WithTransport.
Context {P : Platform} {W : Type}.
Variable fetchFn : FetchRequest -> W -> FetchResult * W.
Variable config : SolidPodConfig.

(** The answer to a request that names a registered tool is the outcome
    of the executor of the tool, wrapped. *)
Lemma handleRequest_tool (fuel : nat) (request parameters : JSValue) (a : string)
    (tool : SolidMCPTool) (w : World W) :
  calls_tool request a parameters ->
  find_tool fetchFn config a = Some tool ->
  handleRequest fetchFn config fuel request w =
  match execute tool fuel parameters w with
  | Some (Val v, w') => Some (Val (Success v), w')
  | Some (Exn e, w') => Some (Val (Failure (error_message e)), w')
  | None => None
  end.
Proof.
  intros (Ha & Hp & Hobj) Hfind.
  assert (Hne : a <> EmptyString).
  { intros ->. discriminate Hfind. }
  rewrite handleRequest_wraps.
  now rewrite (dispatch_executes fetchFn config fuel request parameters a tool w
                 Ha Hne Hp Hobj Hfind).
Qed.

Lemma deleteResource_eval (uri : string) (w : World W) :
  let req := mkRequest (normalizeUrl uri (podUrl config)) "DELETE"
               (getAuthHeaders config) None in
  let res := fst (fetchFn req (net w)) in
  deleteResource fetchFn config uri w
  = (match failure_of "delete resource" res with
     | None => Val true
     | Some m => Exn (ErrorObj ("Error deleting resource " ++ url req ++ ": " ++ m))
     end,
     mkWorld (snd (fetchFn req (net w))) (calls w ++ [(req, res)])%list).
Proof.
  intros req res. unfold res, failure_of.
  unfold deleteResource, try_catch, bind, call_fetch. fold req.
  destruct (fetchFn req (net w)) as [[r|x] n1]; cbn [fst snd]; cbv beta match zeta.
  - destruct (ok r); cbv beta match zeta delta [negb throw ret]; reflexivity.
  - reflexivity.
Qed.

(** X21. A deletion through the dispatcher makes exactly one call, the
    DELETE of the normalized locator.  It answers success with [true] when
    the call is answered in the 2xx range, and otherwise an error whose
    message names the locator and the failure; for an answer outside the
    2xx range the message contains the status code. *)
Theorem delete_resource_outcome (fuel : nat) (request parameters : JSValue)
    (u : string) (w : World W) :
  calls_tool request "delete_resource" parameters ->
  get_prop parameters "uri" = Val (JString u) ->
  let req := mkRequest (normalizeUrl u (podUrl config)) "DELETE"
               (getAuthHeaders config) None in
  let res := fst (fetchFn req (net w)) in
  handleRequest fetchFn config fuel request w
  = Some (Val (match failure_of "delete resource" res with
               | None => Success (DeleteResult true)
               | Some m =>
                   Failure ("Error deleting resource " ++ url req ++ ": " ++ m)
               end),
          mkWorld (snd (fetchFn req (net w))) (calls w ++ [(req, res)])%list) /\
  (forall r m, res = Resolved r -> failure_of "delete resource" res = Some m ->
     includes m (Z_to_string (status r)) = true).
Proof.
  intros Hcall Huri req res. split.
  - rewrite (handleRequest_tool fuel request parameters "delete_resource" _ w
               Hcall eq_refl).
    cbn [execute]. unfold param, bindF, liftT, liftM, retF.
    rewrite Huri. change (arg_uri (JString u)) with (Val (A:=string) u).
    cbv beta match. rewrite deleteResource_eval. fold req. fold res.
    destruct (failure_of "delete resource" res); reflexivity.
  - intros r m -> . unfold failure_of.
    destruct (ok r); [discriminate|]. intros [= <-].
    unfold status_line.
    change ("Failed to " ++ "delete resource" ++ ": "
            ++ Z_to_string (status r) ++ " " ++ statusText r)
      with ("Failed to delete resource: "
            ++ Z_to_string (status r) ++ " " ++ statusText r).
    exact (includes_mid "Failed to delete resource: " (Z_to_string (status r))
             (" " ++ statusText r)).
Qed.

(** X22. The kind of a successful result is fixed by the action: a
    resource with what was read for [read_resource] and [write_resource],
    the listing for [list_container], the container for
    [create_container], the hits for [search]; for [delete_resource] it is
    the truth value [true], never [false]: a deletion that did not happen
    is an error. *)
Theorem handleRequest_result_kind (fuel : nat) (request : JSValue)
    (w w' : World W) (v : ToolResult) :
  handleRequest fetchFn config fuel request w = Some (Val (Success v), w') ->
  exists a,
    get_prop request "action" = Val (JString a) /\
    match v with
    | ResourceResult _ => a = "read_resource" \/ a = "write_resource"
    | DeleteResult success => a = "delete_resource" /\ success = true
    | ListResult _ _ => a = "list_container"
    | ContainerResult _ => a = "create_container"
    | SearchResults _ => a = "search"
    end.
Proof.
  intros H. apply handleRequest_success_inv in H.
  apply dispatch_value_inv in H.
  destruct H as (a & parameters & tool & Ha & _ & _ & _ & Hf & Hx).
  exists a. split; [exact Ha|].
  unfold find_tool in Hf. apply find_some in Hf as [Hin Hname].
  apply String.eqb_eq in Hname. simpl in Hin.
  destruct Hin as [<-|[<-|[<-|[<-|[<-|[<-|[]]]]]]]; cbn [name] in Hname; subst a;
    revert Hx; cbn [execute]; unfold param, bindF, liftT, liftM, retF.
  1-5: destruct (get_prop parameters "uri") as [u|e]; [|discriminate].
  1: destruct (get_prop parameters "include_content") as [ic|e]; [|discriminate].
  2: destruct (get_prop parameters "content") as [ct|e]; [|discriminate];
     destruct (get_prop parameters "content_type") as [cty|e]; [|discriminate].
  1-5: destruct (arg_uri u) as [us|e]; [|discriminate].
  - destruct (readResource fetchFn config us (arg_include_content ic) w)
      as [[r|e] w1]; [|discriminate].
    intros [= <- _]. now left.
  - destruct (writeResource fetchFn config us ct (arg_content_type cty) w)
      as [[r|e] w1]; [|discriminate].
    intros [= <- _]. now right.
  - destruct (deleteResource fetchFn config us w) as [[b|e] w1] eqn:D;
      [|discriminate].
    intros [= <- _]. split; [reflexivity|].
    now destruct (deleteResource_value_inv fetchFn config us w w1 b D).
  - destruct (readResource fetchFn config us false w) as [[r|e] w1]; [|discriminate].
    intros [= <- _]. reflexivity.
  - destruct (createContainer fetchFn config us w) as [[r|e] w1]; [|discriminate].
    intros [= <- _]. reflexivity.
  - destruct (get_prop parameters "container_uri") as [cu|e]; [|discriminate].
    destruct (get_prop parameters "search_term") as [st|e]; [|discriminate].
    destruct (get_prop parameters "recursive") as [rc|e]; [|discriminate].
    destruct (searchResources fetchFn config fuel cu st (truthy rc) w)
      as [[[r|e] w1]|]; try discriminate.
    intros [= <- _]. reflexivity.
Qed.

(** X23. [list_container] is the read of the locator without its content:
    it answers with the descriptor and the children of that read, and with
    the error of that read.  It does not check that the locator is a
    container: for a plain resource it answers success with no
    children. *)
Theorem list_container_is_read (fuel : nat) (request parameters : JSValue)
    (u : string) (w : World W) :
  calls_tool request "list_container" parameters ->
  get_prop parameters "uri" = Val (JString u) ->
  handleRequest fetchFn config fuel request w
  = Some (match readResource fetchFn config u false w with
          | (Val v, w') =>
              (Val (Success (ListResult (resource v)
                               match children v with
                               | Some cs => cs
                               | None => []
                               end)), w')
          | (Exn e, w') => (Val (Failure (error_message e)), w')
          end) /\
  (forall v w',
     readResource fetchFn config u false w = (Val v, w') ->
     type (resource v) = Resource ->
     handleRequest fetchFn config fuel request w
     = Some (Val (Success (ListResult (resource v) [])), w')).
Proof.
  intros Hcall Huri.
  assert (E : handleRequest fetchFn config fuel request w
              = Some (match readResource fetchFn config u false w with
                      | (Val v, w') =>
                          (Val (Success (ListResult (resource v)
                                           match children v with
                                           | Some cs => cs
                                           | None => []
                                           end)), w')
                      | (Exn e, w') => (Val (Failure (error_message e)), w')
                      end)).
  { rewrite (handleRequest_tool fuel request parameters "list_container" _ w
               Hcall eq_refl).
    cbn [execute]. unfold param, bindF, liftT, liftM, retF.
    rewrite Huri. change (arg_uri (JString u)) with (Val (A:=string) u).
    cbv beta match.
    destruct (readResource fetchFn config u false w) as [[v|e] w1]; reflexivity. }
  split; [exact E|].
  intros v w' R T. rewrite E, R.
  destruct (readResource_value_inv fetchFn config u false w w' v R)
    as (r & n1 & _ & _ & _ & _ & Hc).
  rewrite T in Hc. now rewrite Hc.
Qed.

Lemma arg_include_content_spec (ic : JSValue) :
  arg_include_content ic = true <-> ic = JUndefined \/ truthy ic = true.
Proof.
  destruct ic; simpl; split; auto; intros [H|H]; auto; discriminate.
Qed.

(** X24. [read_resource] returns the content unless [include_content] is
    given and falsy: a request without the field gets the content, and so
    does one with any truthy value, the string [false] among them; one
    with [false], [null], [0] or the empty string does not. *)
Theorem read_resource_content_flag (fuel : nat) (request parameters : JSValue)
    (u : string) (ic : JSValue) (w w' : World W) (v : SolidResourceResponse) :
  calls_tool request "read_resource" parameters ->
  get_prop parameters "uri" = Val (JString u) ->
  get_prop parameters "include_content" = Val ic ->
  handleRequest fetchFn config fuel request w
  = Some (Val (Success (ResourceResult v)), w') ->
  (content v <> None <-> ic = JUndefined \/ truthy ic = true).
Proof.
  intros Hcall Huri Hic.
  rewrite (handleRequest_tool fuel request parameters "read_resource" _ w
             Hcall eq_refl).
  cbn [execute]. unfold param, bindF, liftT, liftM, retF.
  rewrite Huri, Hic. change (arg_uri (JString u)) with (Val (A:=string) u).
  cbv beta match.
  destruct (readResource fetchFn config u (arg_include_content ic) w)
    as [[v0|e] w1] eqn:R; [|discriminate].
  intros [= -> ->].
  destruct (readResource_value_inv fetchFn config u _ w w' v R)
    as (r & n1 & _ & _ & _ & Hc & _).
  rewrite <- arg_include_content_spec.
  destruct (arg_include_content ic).
  - destruct Hc as (c & _ & ->). split; [reflexivity | discriminate].
  - rewrite Hc. split; [now intros N | discriminate].
Qed.

Lemma writeResource_first_call
    (uri : string) (content : JSValue) (contentType : string) (w : World W) :
  exists res rest,
    calls (snd (writeResource fetchFn config uri content contentType w))
    = (calls w
       ++ (mkRequest (normalizeUrl uri (podUrl config)) "PUT"
             (snd (write_payload config content contentType))
             (fst (write_payload config content contentType)), res) :: rest)%list.
Proof.
  unfold writeResource, bind, try_catch.
  destruct (write_payload config content contentType) as [b h]. cbn [fst snd].
  unfold call_fetch.
  destruct (fetchFn _ (net w)) as [[r|e] n1].
  - destruct (ok r); cbv beta iota zeta delta [negb ret throw].
    + destruct (surfaces_readResource fetchFn config
                  (normalizeUrl uri (podUrl config)) true
                  (mkWorld n1 (calls w ++ [(mkRequest (normalizeUrl uri (podUrl config))
                                              "PUT" h b, Resolved r)])%list))
        as (new & E & _).
      exists (Resolved r), new. rewrite E. cbn [calls]. now rewrite <- app_assoc.
    + exists (Resolved r), []. reflexivity.
  - exists (Rejected e), []. reflexivity.
Qed.

(** X25. The dispatcher does not enforce the parameters a tool declares as
    required.  A [write_resource] without [content] still goes to the pod:
    its first call is the PUT of the locator, without a body and declared
    as JSON whatever type the request declares. *)
Theorem write_resource_without_content (fuel : nat) (request parameters : JSValue)
    (u : string) (declared : JSValue) (w : World W) :
  JSON_stringify JUndefined = None ->
  calls_tool request "write_resource" parameters ->
  get_prop parameters "uri" = Val (JString u) ->
  get_prop parameters "content" = Val JUndefined ->
  get_prop parameters "content_type" = Val declared ->
  exists answer w' put res rest,
    handleRequest fetchFn config fuel request w = Some (Val answer, w') /\
    calls w' = (calls w ++ (put, res) :: rest)%list /\
    url put = normalizeUrl u (podUrl config) /\ method put = "PUT" /\
    body put = None /\
    get_header "Content-Type" (headers put) = Some "application/json".
Proof.
  intros Hjson Hcall Huri Hcontent Hct.
  rewrite (handleRequest_tool fuel request parameters "write_resource" _ w
             Hcall eq_refl).
  cbn [execute]. unfold param, bindF, liftT, liftM, retF.
  rewrite Huri, Hcontent, Hct. change (arg_uri (JString u)) with (Val (A:=string) u).
  cbv beta match.
  destruct (writeResource_first_call u JUndefined (arg_content_type declared) w)
    as (res & rest & E).
  destruct (writeResource fetchFn config u JUndefined (arg_content_type declared) w)
    as [[v|e] w1]; cbn [snd] in E.
  - exists (Success (ResourceResult v)), w1. eexists. exists res, rest.
    split; [reflexivity|]. split; [exact E|].
    cbn [url method body headers write_payload fst snd]. rewrite Hjson.
    split; [reflexivity|]. split; [reflexivity|]. split; [reflexivity|].
    apply get_set_header.
  - exists (Failure (error_message e)), w1. eexists. exists res, rest.
    split; [reflexivity|]. split; [exact E|].
    cbn [url method body headers write_payload fst snd]. rewrite Hjson.
    split; [reflexivity|]. split; [reflexivity|]. split; [reflexivity|].
    apply get_set_header.
Qed.

(** X26. A request without [uri] is answered without a call to the pod.
    The five tools that take a locator answer with the error of the failed
    string operation; [search] without its container answers success with
    no hits. *)
Theorem missing_locator_makes_no_call (fuel : nat) (request parameters : JSValue)
    (a : string) (w : World W) :
  URL_parse "undefined" = None ->
  calls_tool request a parameters ->
  (In a ["read_resource"; "write_resource"; "delete_resource";
         "list_container"; "create_container"] ->
   get_prop parameters "uri" = Val JUndefined ->
   handleRequest fetchFn config fuel request w
   = Some (Val (Failure "Cannot read properties of undefined (reading 'startsWith')"),
           w)) /\
  (a = "search" ->
   get_prop parameters "container_uri" = Val JUndefined ->
   handleRequest fetchFn config (S fuel) request w
   = Some (Val (Success (SearchResults [])), w)).
Proof.
  intros Hurl Hcall.
  assert (Harg : arg_uri JUndefined
                 = Exn (ErrorObj
                     "Cannot read properties of undefined (reading 'startsWith')")).
  { unfold arg_uri. change (ToString JUndefined) with "undefined".
    now rewrite Hurl. }
  assert (Hget : forall k, exists x, get_prop parameters k = Val x).
  { intros k. destruct Hcall as (_ & _ & Hobj).
    destruct parameters; simpl in Hobj; try tauto; simpl; eauto. }
  split.
  - intros Hin Huri.
    destruct (Hget "include_content") as [x1 H1].
    destruct (Hget "content") as [x2 H2].
    destruct (Hget "content_type") as [x3 H3].
    simpl in Hin.
    destruct Hin as [<-|[<-|[<-|[<-|[<-|[]]]]]];
      rewrite (handleRequest_tool fuel request parameters _ _ w Hcall eq_refl);
      cbn [execute]; unfold param, bindF, liftT, liftM, retF;
      rewrite Huri, ?H1, ?H2, ?H3, Harg; reflexivity.
  - intros -> Hcu.
    destruct (Hget "search_term") as [x1 H1].
    destruct (Hget "recursive") as [x2 H2].
    rewrite (handleRequest_tool (S fuel) request parameters _ _ w Hcall eq_refl).
    cbn [execute]. unfold param, bindF, liftT, liftM, retF.
    rewrite Hcu, H1, H2. cbn [searchResources].
    unfold try_catchF, bindF, liftT, retF. rewrite Harg. reflexivity.
Qed.

(** X27. The service advertises five capabilities and registers six
    tools under distinct names: every capability names a tool the
    dispatcher finds, and [search] is found although it is not
    advertised. *)
Theorem service_capabilities_registered :
  map name (tools (getService fetchFn config))
  = (capabilities (metadata (getService fetchFn config)) ++ ["search"])%list /\
  NoDup (map name (tools (getService fetchFn config))) /\
  (forall a, In a (capabilities (metadata (getService fetchFn config))) ->
     exists tool, find_tool fetchFn config a = Some tool /\ name tool = a) /\
  ~ In "search" (capabilities (metadata (getService fetchFn config))) /\
  (exists tool, find_tool fetchFn config "search" = Some tool /\ name tool = "search").
Proof.
  split; [reflexivity|]. split.
  - cbn. repeat constructor; cbn; intuition discriminate.
  - split.
    + intros a Ha. cbn in Ha.
      destruct Ha as [<-|[<-|[<-|[<-|[<-|[]]]]]]; eexists; split; reflexivity.
    + split.
      * cbn. intuition discriminate.
      * eexists. split; reflexivity.
Qed.

End WithTransport.

End ToolFacts.

(* ================================================================== *)
(** ** lib/mcp-adapter.ts: the handlers over the server *)
(* ================================================================== *)

Module AdapterFacts.
Import JS Types Utils Client Server Adapter JSFacts StringFacts Spec Props.
Import ClientFacts DispatchFacts SearchFacts PathFacts ToolFacts.

Section WithTransport.
Context {P : Platform} {W : Type}.
Variable fetchFn : FetchRequest -> W -> FetchResult * W.
Variable config : SolidPodConfig.

Lemma request_of_calls (a : string) (parameters : list (string * JSValue)) :
  calls_tool (request_of a parameters) a (JObject parameters).
Proof.
  split; [reflexivity|]. split; [reflexivity|]. intros H. exact H.
Qed.

(** X28. The read, write and delete handlers of the adapter are the
    operations of the client on the path of the URI, taken from the root
    of the pod: the host of the URI plays no part.  They return when the
    operation does, the read with the declared type and the content of
    the resource, and throw when it throws, with the message of the
    client after the label of the handler and the name of the error. *)
Theorem resource_handlers_follow_client
    (fuel : nat) (uri : Uri) (text : string) (declared : option string)
    (w : World W) :
  let solidPath := "/" ++ strip_slash (uri_pathname uri) in
  let message (label : string) (e : Thrown) :=
    label ++ ": " ++ template (AnError (error_message e)) in
  Adapter.read fetchFn config fuel uri w
  = Some (match readResource fetchFn config solidPath true w with
          | (Val v, w') =>
              (Val (mkRead (mkInfo (uri_href uri) (contentType (resource v)))
                      (content v)), w')
          | (Exn e, w') => (Exn (ErrorObj (message "Failed to read Solid resource" e)), w')
          end) /\
  Adapter.write fetchFn config fuel uri text declared w
  = Some (match writeResource fetchFn config solidPath (JString text)
                  (declared_or_plain declared) w with
          | (Val _, w') => (Val (mkWritten (uri_href uri)), w')
          | (Exn e, w') => (Exn (ErrorObj (message "Failed to write Solid resource" e)), w')
          end) /\
  Adapter.delete fetchFn config fuel uri w
  = Some (match deleteResource fetchFn config solidPath w with
          | (Val _, w') => (Val tt, w')
          | (Exn e, w') => (Exn (ErrorObj (message "Failed to delete Solid resource" e)), w')
          end).
Proof.
  intros solidPath message. split; [|split].
  - unfold Adapter.read, guarded, bindA, await.
    change (solid_path uri) with solidPath. cbv zeta.
    rewrite (handleRequest_tool fetchFn config fuel _ _ "read_resource" _ w
               (request_of_calls _ _) eq_refl).
    cbn [execute]. unfold param, bindF, liftT, liftM, retF.
    cbn [get_prop assoc String.eqb Ascii.eqb Bool.eqb].
    change (arg_uri (JString solidPath)) with (Val (A:=string) solidPath).
    cbv beta match.
    change (arg_include_content (JBool true)) with true.
    destruct (readResource fetchFn config solidPath true w) as [[v|e] w1];
      reflexivity.
  - unfold Adapter.write, guarded, bindA, await.
    change (solid_path uri) with solidPath. cbv zeta.
    rewrite (handleRequest_tool fetchFn config fuel _ _ "write_resource" _ w
               (request_of_calls _ _) eq_refl).
    cbn [execute]. unfold param, bindF, liftT, liftM, retF.
    cbn [get_prop assoc String.eqb Ascii.eqb Bool.eqb].
    change (arg_uri (JString solidPath)) with (Val (A:=string) solidPath).
    cbv beta match.
    change (arg_content_type (JString (declared_or_plain declared)))
      with (declared_or_plain declared).
    destruct (writeResource fetchFn config solidPath (JString text)
                (declared_or_plain declared) w) as [[v|e] w1]; reflexivity.
  - unfold Adapter.delete, guarded, bindA, await.
    change (solid_path uri) with solidPath. cbv zeta.
    rewrite (handleRequest_tool fetchFn config fuel _ _ "delete_resource" _ w
               (request_of_calls _ _) eq_refl).
    cbn [execute]. unfold param, bindF, liftT, liftM, retF.
    cbn [get_prop assoc String.eqb Ascii.eqb Bool.eqb].
    change (arg_uri (JString solidPath)) with (Val (A:=string) solidPath).
    cbv beta match.
    destruct (deleteResource fetchFn config solidPath w) as [[v|e] w1];
      reflexivity.
Qed.

(** X29. The list handler of the adapter lists the children of the read,
    without content, of the path of the URI; a resource that is not a
    container gets the empty list.  An entry carries the locator of the
    child after [solid://], also when that locator is a full [http]
    one, and as its name what follows the last delimiter of the locator:
    the name holds no delimiter and is empty exactly for a locator that
    is empty or ends with the delimiter, as those of containers do. *)
Theorem list_handler_entries (fuel : nat) (uri : Uri) (w : World W) :
  let solidPath := "/" ++ strip_slash (uri_pathname uri) in
  let entry (child : SolidResource) :=
    mkEntry ("solid://" ++ strip_slash (Types.uri child))
      (last_segment (Types.uri child)) (is_container child) in
  list_resources fetchFn config fuel uri w
  = Some (match readResource fetchFn config solidPath false w with
          | (Val v, w') =>
              (Val (map entry match children v with
                              | Some cs => cs
                              | None => []
                              end), w')
          | (Exn e, w') =>
              (Exn (ErrorObj ("Failed to list Solid container: "
                              ++ template (AnError (error_message e)))), w')
          end) /\
  (forall child,
     free_of "/" (entry_name (entry child)) = true /\
     endsWith (Types.uri child) (entry_name (entry child)) = true /\
     (entry_name (entry child) = EmptyString <->
      Types.uri child = EmptyString \/ endsWith (Types.uri child) "/" = true) /\
     (startsWith (Types.uri child) "/" = false ->
      entry_uri (entry child) = "solid://" ++ Types.uri child)).
Proof.
  intros solidPath entry. split.
  - unfold list_resources, guarded, bindA, await.
    change (solid_path uri) with solidPath. cbv zeta.
    rewrite (handleRequest_tool fetchFn config fuel _ _ "list_container" _ w
               (request_of_calls _ _) eq_refl).
    cbn [execute]. unfold param, bindF, liftT, liftM, retF.
    cbn [get_prop assoc String.eqb Ascii.eqb Bool.eqb].
    change (arg_uri (JString solidPath)) with (Val (A:=string) solidPath).
    cbv beta match.
    destruct (readResource fetchFn config solidPath false w) as [[v|e] w1];
      reflexivity.
  - intros child. unfold entry. cbn [entry_name entry_uri]. unfold last_segment.
    destruct (last_part_facts (Types.uri child)) as (l & -> & F & E & Hempty).
    split; [exact F|]. split; [exact E|]. split; [exact Hempty|].
    intros H. unfold strip_slash. now rewrite H.
Qed.

(** X30. The search handler of the adapter searches the path of the
    container it is given, or the root of the pod without one.  It
    reports the hits of the search of the server in their order, each
    under its locator after [solid://] and with an empty excerpt, and it
    is answered only when that search is.  A container that does not
    parse as a URL makes it throw without a call to the pod. *)
Theorem search_handler_results
    (fuel : nat) (query : string) (containerUri : option string)
    (recursive : option bool) (w : World W) :
  let found (item : SearchHit) :=
    mkFound ("solid://" ++ strip_slash (Types.uri (hit item)))
      (last_segment (Types.uri (hit item))) EmptyString
      (is_container (hit item)) in
  let deep := match recursive with Some b => b | None => false end in
  (forall containerPath,
     container_path containerUri = inr containerPath ->
     Adapter.search fetchFn config fuel query containerUri recursive w
     = match searchResources fetchFn config fuel (JString containerPath)
               (JString query) deep w with
       | Some (Val hits, w') => Some (Val (map found hits), w')
       | Some (Exn e, w') =>
           Some (Exn (ErrorObj ("Failed to search Solid resources: "
                                ++ template (AnError (error_message e)))), w')
       | None => None
       end /\
     forall e w',
       Adapter.search fetchFn config fuel query containerUri recursive w
       <> Some (Exn e, w')) /\
  (forall e,
     container_path containerUri = inl e ->
     Adapter.search fetchFn config fuel query containerUri recursive w
     = Some (Exn (ErrorObj "Failed to search Solid resources: TypeError: Invalid URL"),
             w)).
Proof.
  intros found deep. split.
  - intros containerPath Hpath.
    assert (E : Adapter.search fetchFn config fuel query containerUri recursive w
                = match searchResources fetchFn config fuel (JString containerPath)
                          (JString query) deep w with
                  | Some (Val hits, w') => Some (Val (map found hits), w')
                  | Some (Exn e, w') =>
                      Some (Exn (ErrorObj ("Failed to search Solid resources: "
                                           ++ template (AnError (error_message e)))),
                            w')
                  | None => None
                  end).
    { unfold Adapter.search, guarded, bindA, await, liftC. rewrite Hpath.
      rewrite (handleRequest_tool fetchFn config fuel _ _ "search" _ w
                 (request_of_calls _ _) eq_refl).
      cbn [execute]. unfold param, bindF, liftT, liftM, retF.
      cbn [get_prop assoc String.eqb Ascii.eqb Bool.eqb].
      cbv beta match.
      cbn [truthy]. fold deep.
      destruct (searchResources fetchFn config fuel (JString containerPath)
                  (JString query) deep w) as [[[hits|e] w1]|]; reflexivity. }
    split; [exact E|].
    intros e w'. rewrite E.
    pose proof (searchResources_never_throws fetchFn config fuel
                  (JString containerPath) (JString query) deep w) as N.
    destruct (searchResources fetchFn config fuel (JString containerPath)
                (JString query) deep w) as [[[hits|x] w1]|];
      [discriminate | now contradiction (N w1 x) | discriminate].
  - intros e Hpath.
    unfold Adapter.search, guarded, bindA, await, liftC. rewrite Hpath.
    unfold container_path in Hpath.
    destruct containerUri as [c|]; [|discriminate].
    destruct (nonempty c); [|discriminate].
    destruct (URL_parse c); [discriminate|].
    injection Hpath as <-. reflexivity.
Qed.

End WithTransport.

End AdapterFacts.

(* ================================================================== *)
(** ** More of the model at work on the reference host *)
(* ================================================================== *)

Module ScenariosMore.
Import JS Types Utils Client Server Service Adapter Host Pods MorePods.
Import JSFacts StringFacts Spec Props UtilsMore.
Import ScanMore PathFacts CallFacts ClientMore SearchMore ToolFacts AdapterFacts.
Import DispatchFacts.

(** A description that breaks off in the middle of a statement. *)
Lemma parseResourceMetadata_unterminated_dropped_witness :
  parseResourceMetadata
    (flat_body ++ String LF "<http://pod/c/d.txt> a <http://www.w3.org/ns/ldp#Resource>")
    "http://pod/c/"
  = parseResourceMetadata flat_body "http://pod/c/".
Proof.
  apply parseResourceMetadata_unterminated_dropped; vm_compute; reflexivity.
Defined.

(** A description without an [http] subject. *)
Lemma parseResourceMetadata_no_subject_witness :
  parseResourceMetadata "<urn:a> a <urn:b>." "http://pod/c/" = [].
Proof.
  apply parseResourceMetadata_no_subject. vm_compute. reflexivity.
Defined.

(** The filename of a note. *)
Lemma getFilenameFromUrl_last_segment_witness :
  exists filename,
    getFilenameFromUrl (P:=reference) "http://pod/notes/a.txt" = Val filename /\
    free_of "/" filename = true /\
    endsWith "/notes/a.txt" filename = true /\
    (filename = EmptyString <->
     "/notes/a.txt" = EmptyString \/ endsWith "/notes/a.txt" "/" = true).
Proof.
  exact (proj2 (getFilenameFromUrl_last_segment (P:=reference) "http://pod/notes/a.txt")
           (mkURL "http:" "pod" "/notes/a.txt") eq_refl).
Defined.


(** The calls of a write to a pod given by a path, where the read-back
    goes to another locator than the PUT, and to a pod given by a URL,
    where it goes to the same. *)
Lemma operations_call_in_order_witness :
  (exists new,
     calls (snd (writeResource (P:=reference) (static store_pod) by_path "/x"
                   (JString "hello") "text/plain" start))
     = (mkRequest "/pod/x" "PUT" [("Accept", ACCEPT); ("Content-Type", "text/plain")]
          (Some (BodyText "hello")), Resolved created) :: new /\
     Forall (fun c => fst c = mkRequest "/pod/pod/x" "GET" [("Accept", ACCEPT)] None)
       new) /\
  normalizeUrl (P:=reference) "http://pod/x" (podUrl with_token) = "http://pod/x" /\
  get_header "Authorization"
    (headers (mkRequest "http://pod/x" "DELETE" (getAuthHeaders with_token) None))
  = Some "Bearer secret".
Proof.
  split; [|split].
  - destruct (proj1 (proj2 (proj2 (operations_call_in_order (P:=reference)
                 (static store_pod) by_path "/x" true (JString "hello") "text/plain")))
                start) as (new & E & _ & F).
    exists new. split; [exact E | exact F].
  - apply (proj2 (proj2 (proj2 (proj2 (proj2 (operations_call_in_order (P:=reference)
                 (static store_pod) with_token "/x" true JNull EmptyString)))))).
    reflexivity.
  - apply (proj1 (proj2 (proj2 (proj1 (proj2 (proj2 (proj2 (proj2
             (operations_call_in_order (P:=reference)
                (static store_pod) with_token "/x" true JNull EmptyString))))))))).
Defined.

(** A read of a pod that cannot be reached. *)
Lemma failures_name_the_operation_witness :
  exists m,
    ErrorObj "Error reading resource http://pod/c/: fetch failed"
    = ErrorObj ("Error reading resource "
                ++ normalizeUrl (P:=reference) "/c/" (podUrl pod) ++ ": " ++ m).
Proof.
  apply (proj1 (failures_name_the_operation (P:=reference) (static unreachable) pod
                  "/c/" true JNull EmptyString start
                  (ErrorObj "Error reading resource http://pod/c/: fetch failed"))).
  vm_compute. reflexivity.
Defined.

(** A deletion of what the pod does not hold. *)
Lemma first_call_failure_stops_witness :
  deleteResource (P:=reference) (static flat_pod) pod "/x" start
  = (Exn (ErrorObj
            "Error deleting resource http://pod/x: Failed to delete resource: 404 Not Found"),
     mkWorld tt
       [(mkRequest "http://pod/x" "DELETE" [("Accept", ACCEPT)] None, not_found)]).
Proof.
  apply (proj1 (proj2 (proj2 (first_call_failure_stops (P:=reference)
                                (static flat_pod) pod "/x" true JNull EmptyString
                                start)))
           "Failed to delete resource: 404 Not Found").
  vm_compute. reflexivity.
Defined.

(** A note is written and read back. *)
Lemma writeResource_put_then_read_witness :
  writeResource (P:=reference) (static store_pod) pod "/notes/a.txt"
    (JString "hello") "text/plain" start
  = readResource (P:=reference) (static store_pod) pod
      (normalizeUrl (P:=reference) "/notes/a.txt" (podUrl pod)) true
      (mkWorld tt
         (calls start ++
          [(mkRequest (normalizeUrl (P:=reference) "/notes/a.txt" (podUrl pod)) "PUT"
              (snd (write_payload (P:=reference) pod (JString "hello") "text/plain"))
              (fst (write_payload (P:=reference) pod (JString "hello") "text/plain")),
            Resolved created)])%list).
Proof.
  apply (writeResource_put_then_read (P:=reference) (static store_pod) pod
           "/notes/a.txt" (JString "hello") "text/plain" start created tt);
    reflexivity.
Defined.

(** The PUT of a creation. *)
Lemma createContainer_put_then_read_witness :
  exists put res rest,
    calls (snd (createContainer (P:=reference) (static store_pod) pod "/new/" start))
    = (calls start ++ (put, res) :: rest)%list /\
    res = Resolved created /\
    url put = "http://pod/new/" /\ method put = "PUT" /\ body put = None /\
    get_header "Link" (headers put) = Some LINK_BASIC_CONTAINER /\
    get_header "Content-Type" (headers put) = Some "text/turtle" /\
    createContainer (P:=reference) (static store_pod) pod "/new/" start
    = readResource (P:=reference) (static store_pod) pod "http://pod/new/" true
        (mkWorld tt (calls start ++ [(put, Resolved created)])%list).
Proof.
  destruct (createContainer_put_then_read (P:=reference) (static store_pod) pod
              "/new/" start)
    as (put & res & rest & E & Hres & Hu & Hm & Hb & Hl & Hc & Hthen).
  assert (R : res = Resolved created).
  { rewrite <- Hres. clear - Hm. destruct put as [u m h b].
    cbn [method] in Hm. subst m. reflexivity. }
  exists put, res, rest. split; [exact E|]. split; [exact R|].
  split; [exact Hu|]. split; [exact Hm|]. split; [exact Hb|].
  split; [exact Hl|]. split; [exact Hc|].
  apply (Hthen created R). reflexivity.
Defined.

(** The read of a container, without its content. *)
Lemma readResource_descriptor_witness :
  exists v w',
    readResource (P:=reference) (static flat_pod) pod "/c/" false start = (Val v, w') /\
    uri (resource v) = "http://pod/c/" /\
    contentType (resource v) = Some "text/turtle" /\
    permissions (resource v) = Some PLACEHOLDER /\
    content v = None /\
    length (calls w') = 2.
Proof.
  pose (run := readResource (P:=reference) (static flat_pod) pod "/c/" false start).
  assert (R : run = (Val (returned nothing run), snd run))
    by (vm_compute; reflexivity).
  destruct (readResource_descriptor (P:=reference) (static flat_pod) pod "/c/" false
              start (snd run) (returned nothing run) R)
    as (r & Hr & Hu & Hct & _ & _ & Hp & Hc & _ & _ & Hn).
  exists (returned nothing run), (snd run).
  split; [exact R|]. split; [exact Hu|]. split.
  - rewrite Hct. revert Hr. vm_compute. now intros [= <-].
  - split; [exact Hp|]. split; [now apply Hc|]. rewrite Hn. reflexivity.
Defined.

(** The write scenario: a note, then its read-back. *)
Lemma writeResource_returns_read_back_witness :
  exists v w',
    writeResource (P:=reference) (static store_pod) pod "/notes/a.txt"
      (JString "ignored") "text/plain" start = (Val v, w') /\
    length (calls w') = 2 /\
    content v = Some (JString "hello") /\
    type (resource v) = Resource /\
    children v = None.
Proof.
  destruct (writeResource_returns_read_back (P:=reference) (static store_pod) pod
              "/notes/a.txt" (JString "ignored") "text/plain" start
              created note tt tt (JString "hello"))
    as (v & E & Hc & Ht & Hk & _); try reflexivity.
  exists v. eexists. split; [exact E|]. split; [reflexivity|].
  split; [exact Hc|]. split; [exact Ht | exact Hk].
Defined.

(** A container is created on a pod that describes it in Turtle. *)
Lemma turtle_read_back_fails_after_put_witness :
  exists m w',
    createContainer (P:=reference) (static turtle_store_pod) pod "/c/" start
    = (Exn (ErrorObj ("Error reading resource http://pod/c/: " ++ m)), w') /\
    map (fun c => method (fst c)) (calls w') = ["PUT"; "GET"].
Proof.
  destruct (proj2 (turtle_read_back_fails_after_put (P:=reference)
                     (static turtle_store_pod) pod "/c/" JNull EmptyString start
                     created described tt tt eq_refl eq_refl eq_refl
                     (fun reads =>
                        conj (ex_intro _ BODY_USED eq_refl)
                          (conj (ex_intro _ BODY_USED eq_refl)
                             (ex_intro _ BODY_USED eq_refl))))
              eq_refl)
    as (m & E).
  exists m. eexists. split; [exact E|]. reflexivity.
Defined.

(** The hit of the search for [A] in the flat container. *)
Lemma searchResources_hits_match_witness :
  exists hits w',
    searchResources (P:=reference) (static flat_pod) pod 1
      (JString "/c/") (JString "A") false start = Some (Val hits, w') /\
    map (fun h => uri (hit h)) hits = ["http://pod/c/a.txt"] /\
    Forall (sound_hit (P:=reference) (JString "A")) hits.
Proof.
  eexists. eexists. split; [vm_compute; reflexivity|].
  split; [reflexivity|].
  apply (searchResources_hits_match (P:=reference) (static flat_pod) pod 1
           (JString "/c/") (JString "A") false start
           (snd (readResource (P:=reference) (static flat_pod) pod "/c/" false start))).
  vm_compute. reflexivity.
Defined.

(** The search for [ABOUT] and for [about]. *)
Lemma searchResources_ignores_case_witness :
  searchResources (P:=reference) (static tree_pod) pod 3
    (JString "/c/") (JString "ABOUT") true start
  = searchResources (P:=reference) (static tree_pod) pod 3
      (JString "/c/") (JString "about") true start.
Proof.
  apply searchResources_ignores_case. reflexivity.
Defined.

(** The empty term over the flat container. *)
Lemma search_empty_term_lists_children_witness :
  exists w1,
    searchResources (P:=reference) (static flat_pod) pod 1
      (JString "/c/") (JString EmptyString) false start
    = Some (Val [mkHit (mkResource "http://pod/c/a.txt" Resource (Some "text/plain")
                          None None None) RELEVANCE;
                 mkHit (mkResource "http://pod/c/b.txt" Resource
                          (Some "application/json") None None None) RELEVANCE],
            w1).
Proof.
  pose (run := readResource (P:=reference) (static flat_pod) pod "/c/" false start).
  exists (snd run).
  refine (search_empty_term_lists_children (P:=reference) (static flat_pod) pod 0
            "/c/" start (snd run) (returned nothing run)
            [mkResource "http://pod/c/a.txt" Resource (Some "text/plain")
               None None None;
             mkResource "http://pod/c/b.txt" Resource (Some "application/json")
               None None None] _ _ _).
  - vm_compute. reflexivity.
  - vm_compute. reflexivity.
  - repeat constructor.
Defined.

(** A container with a child whose locator does not parse, searched for
    the child next to it. *)
Lemma search_unparsed_child_empties_witness :
  exists w1,
    searchResources (P:=reference) (static broken_pod) pod 1
      (JString "/c/") (JString "a") false start = Some (Val [], w1).
Proof.
  pose (run := readResource (P:=reference) (static broken_pod) pod "/c/" false start).
  exists (snd run).
  refine (proj2 (search_unparsed_child_empties (P:=reference) (static broken_pod) pod 0
                   "/c/" (JString "a") false start (snd run) (returned nothing run)
                   [mkResource "http://pod/c/a.txt" Resource (Some "text/plain")
                      None None None;
                    mkResource "http" Resource (Some "text/plain") None None None]
                   (mkResource "http" Resource (Some "text/plain") None None None)
                   _ _ _ _) eq_refl).
  - vm_compute. reflexivity.
  - vm_compute. reflexivity.
  - right. left. reflexivity.
  - vm_compute. reflexivity.
Defined.

(** A deletion that goes through, and one of what the pod does not
    hold. *)
Lemma delete_resource_outcome_witness :
  (exists w',
     handleRequest (P:=reference) (static flat_pod) pod 0
       (tool_request "delete_resource" [("uri", JString "/c/")]) start
     = Some (Val (Success (DeleteResult true)), w')) /\
  (exists w',
     handleRequest (P:=reference) (static flat_pod) pod 0
       (tool_request "delete_resource" [("uri", JString "/x")]) start
     = Some (Val (Failure
                    "Error deleting resource http://pod/x: Failed to delete resource: 404 Not Found"),
             w')).
Proof.
  split; eexists.
  - apply (proj1 (delete_resource_outcome (P:=reference) (static flat_pod) pod 0
                    (tool_request "delete_resource" [("uri", JString "/c/")])
                    (JObject [("uri", JString "/c/")]) "/c/" start
                    (conj eq_refl (conj eq_refl (fun H => H))) eq_refl)).
  - apply (proj1 (delete_resource_outcome (P:=reference) (static flat_pod) pod 0
                    (tool_request "delete_resource" [("uri", JString "/x")])
                    (JObject [("uri", JString "/x")]) "/x" start
                    (conj eq_refl (conj eq_refl (fun H => H))) eq_refl)).
Defined.

(** What a listing answers with. *)
Lemma handleRequest_result_kind_witness :
  exists a,
    get_prop (tool_request "list_container" [("uri", JString "/c/")]) "action"
    = Val (JString a) /\
    a = "list_container".
Proof.
  pose (run := handleRequest (P:=reference) (static flat_pod) pod 0
                 (tool_request "list_container" [("uri", JString "/c/")]) start).
  refine (handleRequest_result_kind (P:=reference) (static flat_pod) pod 0
            (tool_request "list_container" [("uri", JString "/c/")]) start
            (match run with Some (_, w') => w' | None => start end)
            (ListResult
               (mkResource "http://pod/c/" Container (Some "text/turtle")
                  (Some EmptyString) None (Some PLACEHOLDER))
               [mkResource "http://pod/c/a.txt" Resource (Some "text/plain")
                  None None None;
                mkResource "http://pod/c/b.txt" Resource (Some "application/json")
                  None None None]) _).
  vm_compute. reflexivity.
Defined.

(** The listing of a note. *)
Lemma list_container_is_read_witness :
  exists v w',
    handleRequest (P:=reference) (static store_pod) pod 0
      (tool_request "list_container" [("uri", JString "/notes/a.txt")]) start
    = Some (Val (Success (ListResult (resource v) [])), w') /\
    type (resource v) = Resource.
Proof.
  pose (run := readResource (P:=reference) (static store_pod) pod "/notes/a.txt"
                 false start).
  exists (returned nothing run), (snd run).
  split; [|reflexivity].
  refine (proj2 (list_container_is_read (P:=reference) (static store_pod) pod 0
                   (tool_request "list_container" [("uri", JString "/notes/a.txt")])
                   (JObject [("uri", JString "/notes/a.txt")]) "/notes/a.txt" start
                   (conj eq_refl (conj eq_refl (fun H => H))) eq_refl)
            (returned nothing run) (snd run) _ _).
  - vm_compute. reflexivity.
  - reflexivity.
Defined.

(** A read that asks for no content with [null]. *)
Lemma read_resource_content_flag_witness :
  exists v w',
    handleRequest (P:=reference) (static store_pod) pod 0
      (tool_request "read_resource"
         [("uri", JString "/notes/a.txt"); ("include_content", JNull)]) start
    = Some (Val (Success (ResourceResult v)), w') /\
    content v = None.
Proof.
  pose (run := readResource (P:=reference) (static store_pod) pod "/notes/a.txt"
                 false start).
  assert (H : handleRequest (P:=reference) (static store_pod) pod 0
                (tool_request "read_resource"
                   [("uri", JString "/notes/a.txt"); ("include_content", JNull)]) start
              = Some (Val (Success (ResourceResult (returned nothing run))), snd run))
    by (vm_compute; reflexivity).
  exists (returned nothing run), (snd run). split; [exact H|].
  destruct (read_resource_content_flag (P:=reference) (static store_pod) pod 0
              (tool_request "read_resource"
                 [("uri", JString "/notes/a.txt"); ("include_content", JNull)])
              (JObject [("uri", JString "/notes/a.txt"); ("include_content", JNull)])
              "/notes/a.txt" JNull start (snd run) (returned nothing run)
              (conj eq_refl (conj eq_refl (fun H => H))) eq_refl eq_refl H)
    as [Hto _].
  destruct (content (returned nothing run)) as [c|]; [|reflexivity].
  destruct Hto as [N|N]; [discriminate | discriminate N | discriminate N].
Defined.

(** A write without content. *)
Lemma write_resource_without_content_witness :
  exists answer w' put res rest,
    handleRequest (P:=reference) (static store_pod) pod 0
      (tool_request "write_resource"
         [("uri", JString "/notes/a.txt"); ("content_type", JString "text/plain")])
      start = Some (Val answer, w') /\
    calls w' = (calls start ++ (put, res) :: rest)%list /\
    url put = normalizeUrl (P:=reference) "/notes/a.txt" (podUrl pod) /\
    method put = "PUT" /\
    body put = None /\
    get_header "Content-Type" (headers put) = Some "application/json".
Proof.
  apply (write_resource_without_content (P:=reference) (static store_pod) pod 0
           (tool_request "write_resource"
              [("uri", JString "/notes/a.txt"); ("content_type", JString "text/plain")])
           (JObject [("uri", JString "/notes/a.txt");
                     ("content_type", JString "text/plain")])
           "/notes/a.txt" (JString "text/plain") start eq_refl
           (conj eq_refl (conj eq_refl (fun H => H))) eq_refl eq_refl eq_refl).
Defined.

(** A read and a search without a locator. *)
Lemma missing_locator_makes_no_call_witness :
  handleRequest (P:=reference) (static flat_pod) pod 0
    (tool_request "read_resource" []) start
  = Some (Val (Failure "Cannot read properties of undefined (reading 'startsWith')"),
          start) /\
  handleRequest (P:=reference) (static flat_pod) pod 1
    (tool_request "search" []) start
  = Some (Val (Success (SearchResults [])), start).
Proof.
  split.
  - apply (proj1 (missing_locator_makes_no_call (P:=reference) (static flat_pod) pod 0
                    (tool_request "read_resource" []) (JObject []) "read_resource"
                    start eq_refl (conj eq_refl (conj eq_refl (fun H => H))))).
    + left. reflexivity.
    + reflexivity.
  - apply (proj2 (missing_locator_makes_no_call (P:=reference) (static flat_pod) pod 0
                    (tool_request "search" []) (JObject []) "search"
                    start eq_refl (conj eq_refl (conj eq_refl (fun H => H))))).
    + reflexivity.
    + reflexivity.
Defined.

(** A capability is dispatched. *)
Lemma service_capabilities_registered_witness :
  exists tool,
    find_tool (P:=reference) (static flat_pod) pod "list_container" = Some tool /\
    name tool = "list_container".
Proof.
  apply (proj1 (proj2 (proj2 (service_capabilities_registered (P:=reference)
                                (static flat_pod) pod)))).
  right. right. right. left. reflexivity.
Defined.

(** The entry of a container among the children. *)
Lemma list_handler_entries_witness :
  entry_name (mkEntry ("solid://" ++ strip_slash "http://pod/c/sub/")
                (last_segment "http://pod/c/sub/") true) = EmptyString /\
  entry_uri (mkEntry ("solid://" ++ strip_slash "http://pod/c/sub/")
               (last_segment "http://pod/c/sub/") true) = "solid://http://pod/c/sub/".
Proof.
  destruct (proj2 (list_handler_entries (P:=reference) (static flat_pod) pod 0
                     (mkUri "/c/" "solid://pod/c/") start)
              (mkResource "http://pod/c/sub/" Container None None None None))
    as (_ & _ & Hname & Huri).
  split.
  - apply Hname. right. reflexivity.
  - apply Huri. reflexivity.
Defined.

(** A search of the adapter in a container that is no URL, and in the flat
    container. *)
Lemma search_handler_results_witness :
  Adapter.search (P:=reference) (static flat_pod) pod 1 "a" (Some "notes") None start
  = Some (Exn (ErrorObj "Failed to search Solid resources: TypeError: Invalid URL"),
          start) /\
  forall e w',
    Adapter.search (P:=reference) (static flat_pod) pod 1 "a"
      (Some "solid://pod/c/") None start <> Some (Exn e, w').
Proof.
  split.
  - apply (proj2 (search_handler_results (P:=reference) (static flat_pod) pod 1 "a"
                    (Some "notes") None start) (ATypeError "Invalid URL")).
    reflexivity.
  - apply (proj1 (search_handler_results (P:=reference) (static flat_pod) pod 1 "a"
                    (Some "solid://pod/c/") None start) "/c/").
    reflexivity.
Defined.

(** A Content-Length beyond what a double holds exactly. *)
Example parseInt10_rounds :
  parseInt10 "9007199254740993" = Int 9007199254740992%Z /\
  parseInt10 " -0" = NegZero /\
  parseInt10 "42 bytes" = Int 42%Z /\
  parseInt10 "bytes" = NaN.
Proof. vm_compute. repeat split. Qed.


(** Two containers that list each other, and a recursive search that comes
    back all the same: in one a child without a locator stands before the
    link, in the other the search has no term. *)
Lemma search_on_cycle_comes_back :
  In (mkResource "http://pod/b/" Container None None None None)
    (listing (P:=reference) blocked_pod pod "http://pod/a/") /\
  In (mkResource "http://pod/a/" Container None None None None)
    (listing (P:=reference) blocked_pod pod "http://pod/b/") /\
  (exists w',
     searchResources (P:=reference) (static blocked_pod) pod 2
       (JString "http://pod/b/") (JString "a") true start = Some (Val [], w') /\
     length (calls w') = 4) /\
  (exists w',
     searchResources (P:=reference) (static loop_pod) pod 1
       (JString "http://pod/a/") JUndefined true start = Some (Val [], w') /\
     length (calls w') = 2).
Proof.
  split; [vm_compute; auto|]. split; [vm_compute; auto|].
  split; eexists; (split; [vm_compute; reflexivity | reflexivity]).
Qed.

End ScenariosMore.
